(** * ncdns: the query-resolution engine of [ncdns.go]

    A shallow embedding of the per-request transaction ([Tx]) of the
    authoritative responder, and of the functions that act on it:
    [handle], [blookup], [rrsetHasType], [addAnswers], [addAnswersMain],
    [addAnswersAuthoritative], [addAnswersCNAME], [addAnswersDelegation],
    [queueAdditional], [addNSEC], [addNSEC3RR], [addNSEC3RRActual],
    [addAdditional] and [addAdditionalItem].

    Go strings are byte strings and are modelled by [string]; [uint16] and
    [uint32] values that are only compared are modelled by [N]; Go [int]
    values are modelled by [Z]; the two Go maps used as sets are modelled
    by [gset]. A failed type assertion or a nil dereference is a run-time
    panic and is modelled by the outcome [Panic]. *)

From Stdlib Require Import NArith ZArith String Ascii List Bool Lia.
From stdpp Require Import base gmap sets list strings sorting.

Local Open Scope string_scope.
Local Open Scope N_scope.

(** ** Outcomes of a call *)

(** A Go call either returns, panics, or (in the model only) exhausts the
    fuel given to a loop. *)
Inductive run (A : Type) : Type :=
  | Done (a : A)
  | Panic
  | NoFuel.
Arguments Done {A} a.
Arguments Panic {A}.
Arguments NoFuel {A}.

#[global] Instance run_bind : MBind run := fun A B (k : A -> run B) (m : run A) =>
  match m with
  | Done a => k a
  | Panic => Panic
  | NoFuel => NoFuel
  end.

(** ** Errors (package [ncerr]) *)

(** Modelled from the spec: package [ncerr] is declared outside
    [ncdns.go]. An error is one of the three sentinels [NotInZone],
    [NoSuchDomain] and [NoResults], which the handler and the resolver
    compare against with [==], or any other error. *)
Inductive error : Type :=
  | ErrNoResults
  | ErrNoSuchDomain
  | ErrNotInZone
  | ErrOther (msg : string).

#[global] Instance error_eq_dec : EqDecision error.
Proof. solve_decision. Defined.

(** ** Constants of package [dns] *)

Definition TypeA      : N := 1.
Definition TypeNS     : N := 2.
Definition TypeCNAME  : N := 5.
Definition TypeSOA    : N := 6.
Definition TypeAAAA   : N := 28.
Definition TypeOPT    : N := 41.
Definition TypeDS     : N := 43.
Definition TypeDNSKEY : N := 48.
Definition TypeNSEC3  : N := 50.
Definition TypeANY    : N := 255.

Definition ClassINET : N := 1.
Definition ClassANY  : N := 255.

Definition RcodeSuccess       : Z := 0%Z.
Definition RcodeServerFailure : Z := 2%Z.
Definition RcodeNameError     : Z := 3%Z.
Definition RcodeRefused       : Z := 5%Z.

Definition SHA1 : N := 1.

(** ** Resource records *)

Record RR_Header : Type := mkHdr {
  Name   : string;
  Rrtype : N;
  Class  : N;
  Ttl    : N
}.

(** The concrete record types the code asserts to, builds or passes
    through. The header's [Rrtype] is a field of its own in Go, so a
    record whose header says SOA need not be a [*dns.SOA]. *)
Inductive RData : Type :=
  | RD_SOA (Ns Mbox : string) (Serial Refresh Retry Expire Minttl : N)
  | RD_NS (Ns : string)
  | RD_CNAME (Target : string)
  | RD_DS (KeyTag Algorithm DigestType : N) (Digest : string)
  | RD_DNSKEY (Flags Protocol Algorithm : N) (PublicKey : string)
  | RD_NSEC3 (Hash Flags Iterations SaltLength : N) (Salt : string)
             (HashLength : N) (NextDomain : string) (TypeBitMap : list N)
  | RD_Other (rdata : string).

Record RR : Type := mkRR {
  Hdr   : RR_Header;
  Rdata : RData
}.

#[global] Instance RR_Header_eq_dec : EqDecision RR_Header.
Proof. solve_decision. Defined.
#[global] Instance RData_eq_dec : EqDecision RData.
Proof. solve_decision. Defined.
#[global] Instance RR_eq_dec : EqDecision RR.
Proof. solve_decision. Defined.

(** The type assertions of a record to [*dns.SOA], [*dns.NS] and
    [*dns.CNAME]: each succeeds when the record has that concrete type. *)
Definition as_SOA (rr : RR) : option RR :=
  match Rdata rr with RD_SOA _ _ _ _ _ _ _ => Some rr | _ => None end.
Definition as_NS (rr : RR) : option string :=
  match Rdata rr with RD_NS ns => Some ns | _ => None end.
Definition as_CNAME (rr : RR) : option RR :=
  match Rdata rr with RD_CNAME _ => Some rr | _ => None end.

(** A [*dns.DNSKEY] held by the server. *)
Record DNSKEY : Type := mkDNSKEY {
  KHdr       : RR_Header;
  KFlags     : N;
  KProtocol  : N;
  KAlgorithm : N;
  KPublicKey : string
}.

Definition DNSKEY_RR (k : DNSKEY) : RR :=
  mkRR (KHdr k) (RD_DNSKEY (KFlags k) (KProtocol k) (KAlgorithm k) (KPublicKey k)).

(** [k.Hdr.Name = name] *)
Definition setKeyName (name : string) (k : DNSKEY) : DNSKEY :=
  mkDNSKEY (mkHdr name (Rrtype (KHdr k)) (Class (KHdr k)) (Ttl (KHdr k)))
           (KFlags k) (KProtocol k) (KAlgorithm k) (KPublicKey k).

(** An entry of a message section is a pointer. Records obtained from the
    backend or built by the resolver are owned by the response; [s.ksk]
    and [s.zsk] are the server's own two records, appended by pointer. *)
Inductive RRptr : Type :=
  | Own (rr : RR)
  | PtrKSK
  | PtrZSK.

(** ** Messages *)

Record dnsQuestion : Type := mkQuestion {
  QName  : string;
  Qtype  : N;
  Qclass : N
}.

Record Msg : Type := mkMsg {
  MsgId         : N;
  Response      : bool;
  Authoritative : bool;
  Compress      : bool;
  Rcode         : Z;
  Question      : list dnsQuestion;
  Answer        : list RRptr;
  Ns            : list RRptr;
  Extra         : list RRptr
}.

(** [&dns.Msg{}] *)
Definition emptyMsg : Msg := mkMsg 0 false false false 0%Z [] [] [] [].

(** [res.SetReply(req)] of package [dns]: copies the id, marks the message
    as a response with rcode 0, and copies the first question. *)
Definition SetReply (req res : Msg) : Msg :=
  mkMsg (MsgId req) true (Authoritative res) (Compress res) RcodeSuccess
        (match Question req with
         | q :: _ => [q]
         | [] => Question res
         end)
        (Answer res) (Ns res) (Extra res).

(** [res.SetRcode(req, rcode)] of package [dns]: [SetReply], then the
    rcode. *)
Definition SetRcode (req : Msg) (rcode : Z) (res : Msg) : Msg :=
  let r := SetReply req res in
  mkMsg (MsgId r) (Response r) (Authoritative r) (Compress r) rcode
        (Question r) (Answer r) (Ns r) (Extra r).

Definition setAuthoritative (a : bool) (m : Msg) : Msg :=
  mkMsg (MsgId m) (Response m) a (Compress m) (Rcode m)
        (Question m) (Answer m) (Ns m) (Extra m).
Definition setCompress (c : bool) (m : Msg) : Msg :=
  mkMsg (MsgId m) (Response m) (Authoritative m) c (Rcode m)
        (Question m) (Answer m) (Ns m) (Extra m).
(** [m.Answer = append(m.Answer, rs...)] and its two siblings *)
Definition appendAnswer (rs : list RRptr) (m : Msg) : Msg :=
  mkMsg (MsgId m) (Response m) (Authoritative m) (Compress m) (Rcode m)
        (Question m) (Answer m ++ rs) (Ns m) (Extra m).
Definition appendNs (rs : list RRptr) (m : Msg) : Msg :=
  mkMsg (MsgId m) (Response m) (Authoritative m) (Compress m) (Rcode m)
        (Question m) (Answer m) (Ns m ++ rs) (Extra m).
Definition appendExtra (rs : list RRptr) (m : Msg) : Msg :=
  mkMsg (MsgId m) (Response m) (Authoritative m) (Compress m) (Rcode m)
        (Question m) (Answer m) (Ns m) (Extra m ++ rs).

(** ** The server *)

(** Modelled from the spec: the interface [Backend] is declared outside
    [ncdns.go]. Its single operation [Lookup] maps a name to the records
    at that name and an error. *)
Definition Backend : Type := string -> list RR * option error.

Record ServerConfig : Type := mkConfig {
  Bind                : string;
  PublicKey           : string;
  PrivateKey          : string;
  ZonePublicKey       : string;
  ZonePrivateKey      : string;
  NamecoinRPCUsername : string;
  NamecoinRPCPassword : string;
  NamecoinRPCAddress  : string;
  CacheMaxEntries     : Z;
  SelfIP              : string;
  SelfName            : string
}.

(** The fields of [Server] a request can reach. A [dns.PrivateKey] is
    opaque to this code and is kept as its encoding. *)
Record Server : Type := mkServer {
  ksk        : DNSKEY;
  kskPrivate : string;
  zsk        : DNSKEY;
  zskPrivate : string;
  cfg        : ServerConfig;
  b          : Backend
}.

(** What a section entry points to, given the server it was built on. *)
Definition deref (s : Server) (p : RRptr) : RR :=
  match p with
  | Own rr => rr
  | PtrKSK => DNSKEY_RR (ksk s)
  | PtrZSK => DNSKEY_RR (zsk s)
  end.

(** ** The transaction *)

Record Tx : Type := mkTx {
  req    : Msg;
  res    : Msg;
  qname  : string;
  qtype  : N;
  qclass : N;
  s      : Server;
  rcode  : Z;
  typesAtQname             : gset N;
  additionalQueue          : gset string;
  soa                      : option RR;
  delegationPoint          : string;
  queryIsAtDelegationPoint : bool;
  consolationSOA           : bool;
  suppressNSEC             : bool
}.

Definition updRes (f : Msg -> Msg) (tx : Tx) : Tx :=
  mkTx (req tx) (f (res tx)) (qname tx) (qtype tx) (qclass tx) (s tx) (rcode tx)
       (typesAtQname tx) (additionalQueue tx) (soa tx) (delegationPoint tx)
       (queryIsAtDelegationPoint tx) (consolationSOA tx) (suppressNSEC tx).
Definition setQuestion (n : string) (t c : N) (tx : Tx) : Tx :=
  mkTx (req tx) (res tx) n t c (s tx) (rcode tx)
       (typesAtQname tx) (additionalQueue tx) (soa tx) (delegationPoint tx)
       (queryIsAtDelegationPoint tx) (consolationSOA tx) (suppressNSEC tx).
Definition setServer (sv : Server) (tx : Tx) : Tx :=
  mkTx (req tx) (res tx) (qname tx) (qtype tx) (qclass tx) sv (rcode tx)
       (typesAtQname tx) (additionalQueue tx) (soa tx) (delegationPoint tx)
       (queryIsAtDelegationPoint tx) (consolationSOA tx) (suppressNSEC tx).
Definition setRcodeTx (r : Z) (tx : Tx) : Tx :=
  mkTx (req tx) (res tx) (qname tx) (qtype tx) (qclass tx) (s tx) r
       (typesAtQname tx) (additionalQueue tx) (soa tx) (delegationPoint tx)
       (queryIsAtDelegationPoint tx) (consolationSOA tx) (suppressNSEC tx).
(** [tx.typesAtQname[t] = struct{}{}] *)
Definition addType (t : N) (tx : Tx) : Tx :=
  mkTx (req tx) (res tx) (qname tx) (qtype tx) (qclass tx) (s tx) (rcode tx)
       ({[ t ]} ∪ typesAtQname tx) (additionalQueue tx) (soa tx) (delegationPoint tx)
       (queryIsAtDelegationPoint tx) (consolationSOA tx) (suppressNSEC tx).
Definition setSoa (o : option RR) (tx : Tx) : Tx :=
  mkTx (req tx) (res tx) (qname tx) (qtype tx) (qclass tx) (s tx) (rcode tx)
       (typesAtQname tx) (additionalQueue tx) o (delegationPoint tx)
       (queryIsAtDelegationPoint tx) (consolationSOA tx) (suppressNSEC tx).
Definition setDelegationPoint (d : string) (tx : Tx) : Tx :=
  mkTx (req tx) (res tx) (qname tx) (qtype tx) (qclass tx) (s tx) (rcode tx)
       (typesAtQname tx) (additionalQueue tx) (soa tx) d
       (queryIsAtDelegationPoint tx) (consolationSOA tx) (suppressNSEC tx).
Definition setQueryIsAtDelegationPoint (v : bool) (tx : Tx) : Tx :=
  mkTx (req tx) (res tx) (qname tx) (qtype tx) (qclass tx) (s tx) (rcode tx)
       (typesAtQname tx) (additionalQueue tx) (soa tx) (delegationPoint tx)
       v (consolationSOA tx) (suppressNSEC tx).
Definition setConsolationSOA (v : bool) (tx : Tx) : Tx :=
  mkTx (req tx) (res tx) (qname tx) (qtype tx) (qclass tx) (s tx) (rcode tx)
       (typesAtQname tx) (additionalQueue tx) (soa tx) (delegationPoint tx)
       (queryIsAtDelegationPoint tx) v (suppressNSEC tx).
Definition setSuppressNSEC (v : bool) (tx : Tx) : Tx :=
  mkTx (req tx) (res tx) (qname tx) (qtype tx) (qclass tx) (s tx) (rcode tx)
       (typesAtQname tx) (additionalQueue tx) (soa tx) (delegationPoint tx)
       (queryIsAtDelegationPoint tx) (consolationSOA tx) v.

(** [tx.queueAdditional(name)] *)
Definition queueAdditional (name : string) (tx : Tx) : Tx :=
  mkTx (req tx) (res tx) (qname tx) (qtype tx) (qclass tx) (s tx) (rcode tx)
       (typesAtQname tx) ({[ name ]} ∪ additionalQueue tx) (soa tx) (delegationPoint tx)
       (queryIsAtDelegationPoint tx) (consolationSOA tx) (suppressNSEC tx).

(** ** Strings (package [strings] and slicing) *)

(** [len(n)] *)
Definition len (n : string) : Z := Z.of_nat (String.length n).

(** [strings.TrimRight(n, ".")]: every trailing dot is removed. *)
Fixpoint TrimRightDot (n : string) : string :=
  match n with
  | EmptyString => EmptyString
  | String c rest =>
      match TrimRightDot rest with
      | EmptyString => if Ascii.eqb c "." then EmptyString else String c EmptyString
      | t => String c t
      end
  end.

(** [strings.Index(n, ".")]: the index of the first dot, or -1. *)
Fixpoint IndexDot (n : string) : Z :=
  match n with
  | EmptyString => (-1)%Z
  | String c rest =>
      if Ascii.eqb c "." then 0%Z
      else let i := IndexDot rest in
           if (i <? 0)%Z then (-1)%Z else (i + 1)%Z
  end.

(** [n[k:]] for [0 <= k <= len(n)] *)
Fixpoint sliceFrom (k : nat) (n : string) : string :=
  match k, n with
  | O, _ => n
  | S k', String _ rest => sliceFrom k' rest
  | S _, EmptyString => EmptyString
  end.

(** ** Lookups *)

(** [tx.blookup(qname)]: a successful lookup without records is turned
    into [ErrNoResults]. *)
Definition blookup (tx : Tx) (name : string) : list RR * option error :=
  let '(rrs, err) := b (s tx) name in
  match err with
  | None => if (List.length rrs =? 0)%nat then (rrs, Some ErrNoResults) else (rrs, None)
  | Some e => (rrs, Some e)
  end.

(** [rrsetHasType(rrs, t)]: the first record of type [t], or nil. *)
Fixpoint rrsetHasType (rrs : list RR) (t : N) : option RR :=
  match rrs with
  | [] => None
  | rr :: rest => if Rrtype (Hdr rr) =? t then Some rr else rrsetHasType rest t
  end.

(** Modelled from the spec: [tx.istype] is declared outside [ncdns.go].
    A record type matches the question when it is the query type or the
    query type is ANY ("[qtype == ANY] matches all"); the delegation
    branch notes that [istype] matches ANY. *)
Definition istype (tx : Tx) (x : N) : bool :=
  (qtype tx =? x) || (qtype tx =? TypeANY).

(** ** The authoritative branch *)

(** [tx.addAnswersCNAME(cn)] *)
Definition addAnswersCNAME (cn : RR) (tx : Tx) : run (Tx * option error) :=
  Done (updRes (appendAnswer [Own cn]) tx, None).

(** One turn of the loop "add every record which was requested". *)
Definition addRequested (tx : Tx) (rr : RR) : Tx :=
  let t := Rrtype (Hdr rr) in
  let tx1 := if istype tx t then updRes (appendAnswer [Own rr]) tx else tx in
  addType t tx1.

(** [tx.addAnswersAuthoritative(rrs, origerr)] *)
Definition addAnswersAuthoritative (rrs : list RR) (origerr : option error) (tx : Tx)
  : run (Tx * option error) :=
  match origerr with
  | Some e => Done (tx, Some e)
  | None =>
      let all := fun _ : unit =>
        let tx1 := fold_left addRequested rrs tx in
        let tx2 := match Answer (res tx1) with
                   | [] => setConsolationSOA true tx1
                   | _ :: _ => tx1
                   end in
        Done (tx2, None) in
      match rrsetHasType rrs TypeCNAME with
      | Some cn =>
          if negb (istype tx TypeCNAME) then
            match as_CNAME cn with
            | Some c => addAnswersCNAME c tx
            | None => Panic
            end
          else all tt
      | None => all tt
      end
  end.

(** ** The delegation branch *)

(** The loop of the DS sub-case: DS records go to Answer; [added] tells
    whether one did. *)
Fixpoint addDSAnswers (nss : list RR) (added : bool) (tx : Tx) : bool * Tx :=
  match nss with
  | [] => (added, tx)
  | ns :: rest =>
      if Rrtype (Hdr ns) =? TypeDS
      then addDSAnswers rest true (updRes (appendAnswer [Own ns]) tx)
      else addDSAnswers rest added tx
  end.

(** The loop of the referral sub-case. *)
Fixpoint addReferral (nss : list RR) (tx : Tx) : run Tx :=
  match nss with
  | [] => Done tx
  | ns :: rest =>
      let t := Rrtype (Hdr ns) in
      let tx1 := if (t =? TypeNS) || (t =? TypeDS)
                 then updRes (appendNs [Own ns]) tx else tx in
      tx2 ← (if t =? TypeNS
             then match as_NS ns with
                  | Some target => Done (queueAdditional target tx1)
                  | None => Panic
                  end
             else Done tx1);
      let tx3 := if t =? TypeDS then setSuppressNSEC true tx2 else tx2 in
      addReferral rest tx3
  end.

(** [tx.addAnswersDelegation(nss)] *)
Definition addAnswersDelegation (nss : list RR) (tx : Tx) : run (Tx * option error) :=
  tx1 ← (if (qtype tx =? TypeDS) && queryIsAtDelegationPoint tx then
           let '(added, tx') := addDSAnswers nss false tx in
           Done (if added then setSuppressNSEC true tx' else setConsolationSOA true tx')
         else
           addReferral nss (updRes (setAuthoritative false) tx));
  Done (addType TypeNS tx1, None).

(** ** The zone walk *)

(** The locals of [addAnswersMain] together with the transaction, as the
    loop labelled [A] updates them. [w_visited] lists the names handed to
    [blookup], oldest first (the lines [blookup] logs). *)
Record WalkSt : Type := mkWalk {
  w_tx            : Tx;
  w_soa           : option RR;
  w_origq         : list RR;
  w_origerr       : option error;
  w_firsterr      : option error;
  w_nss           : list RR;
  w_firstNSAtLen  : Z;
  w_firstSOAAtLen : Z;
  w_visited       : list string
}.

(** The state on entry to the loop. *)
Definition walkInit (tx : Tx) : WalkSt :=
  mkWalk tx None [] None None [] (-1)%Z (-1)%Z [].

Section Resolver.

(** [absname] is declared outside [ncdns.go]: the absolute form of a
    name. *)
Variable absname : string -> string.

(** [case dns.TypeSOA]: the apex; the caller leaves the loop. *)
Definition onSOA (n : string) (rr : RR) (st : WalkSt) : run WalkSt :=
  st1 ← match w_soa st with
        | None =>
            match as_SOA rr with
            | Some x => Done (mkWalk (w_tx st) (Some x) (w_origq st) (w_origerr st)
                                     (w_firsterr st) (w_nss st) (w_firstNSAtLen st)
                                     (w_firstSOAAtLen st) (w_visited st))
            | None => Panic
            end
        | Some _ => Done st
        end;
  Done (if (w_firstSOAAtLen st1 <? 0)%Z
        then mkWalk (w_tx st1) (w_soa st1) (w_origq st1) (w_origerr st1)
                    (w_firsterr st1) (w_nss st1) (w_firstNSAtLen st1)
                    (len n) (w_visited st1)
        else st1).

(** [case dns.TypeNS]: [nss] is assigned at every NS record; the
    delegation point is fixed at the first one. *)
Definition onNS (n norig : string) (rrs : list RR) (st : WalkSt) : WalkSt :=
  if (w_firstNSAtLen st <? 0)%Z then
    let tx1 := setDelegationPoint (absname n) (w_tx st) in
    let tx2 := if String.eqb n norig then setQueryIsAtDelegationPoint true tx1 else tx1 in
    mkWalk tx2 (w_soa st) (w_origq st) (w_origerr st) (w_firsterr st)
           rrs (len n) (w_firstSOAAtLen st) (w_visited st)
  else
    mkWalk (w_tx st) (w_soa st) (w_origq st) (w_origerr st) (w_firsterr st)
           rrs (w_firstNSAtLen st) (w_firstSOAAtLen st) (w_visited st).

(** [for i := range rrs { switch ... }] over the records still to be
    seen; the flag tells whether [break A] was taken. *)
Fixpoint scan (n norig : string) (rrs todo : list RR) (st : WalkSt) : run (WalkSt * bool) :=
  match todo with
  | [] => Done (st, false)
  | rr :: rest =>
      let t := Rrtype (Hdr rr) in
      if t =? TypeSOA then
        st1 ← onSOA n rr st; Done (st1, true)
      else if t =? TypeNS then
        scan n norig rrs rest (onNS n norig rrs st)
      else
        scan n norig rrs rest st
  end.

(** [blookup] is called for [n]. *)
Definition noteLookup (n : string) (st : WalkSt) : WalkSt :=
  mkWalk (w_tx st) (w_soa st) (w_origq st) (w_origerr st) (w_firsterr st)
         (w_nss st) (w_firstNSAtLen st) (w_firstSOAAtLen st) (w_visited st ++ [n]).

(** [if len(n) == len(norig) { origq = rrs; origerr = err }] *)
Definition keepOriginal (n norig : string) (rrs : list RR) (err : option error)
           (st : WalkSt) : WalkSt :=
  if (len n =? len norig)%Z
  then mkWalk (w_tx st) (w_soa st) rrs err (w_firsterr st)
              (w_nss st) (w_firstNSAtLen st) (w_firstSOAAtLen st) (w_visited st)
  else st.

(** [else if firsterr == nil { firsterr = err }] *)
Definition keepFirstErr (e : error) (st : WalkSt) : WalkSt :=
  match w_firsterr st with
  | None => mkWalk (w_tx st) (w_soa st) (w_origq st) (w_origerr st) (Some e)
                   (w_nss st) (w_firstNSAtLen st) (w_firstSOAAtLen st) (w_visited st)
  | Some _ => st
  end.

(** The loop [A: for len(n) > 0 { ... }]. Each turn shortens [n], so
    [S (length n)] turns of fuel are never used up. *)
Fixpoint walkLoop (fuel : nat) (norig n : string) (st : WalkSt) : run WalkSt :=
  if (0 <? len n)%Z then
    match fuel with
    | O => NoFuel
    | S fuel' =>
        let '(rrs, err) := blookup (w_tx st) n in
        let st1 := keepOriginal n norig rrs err (noteLookup n st) in
        '(st2, brk) ← match err with
                      | None => scan n norig rrs rrs st1
                      | Some e => Done (keepFirstErr e st1, false)
                      end;
        if brk : bool then Done st2
        else
          let nidx := IndexDot n in
          if (nidx <? 0)%Z then Done st2
          else walkLoop fuel' norig (sliceFrom (Z.to_nat (nidx + 1)) n) st2
    end
  else Done st.

Definition walk (tx : Tx) : run WalkSt :=
  let norig := TrimRightDot (qname tx) in
  walkLoop (S (String.length norig)) norig norig (walkInit tx).

(** [tx.addAnswersMain()] *)
Definition addAnswersMain (tx : Tx) : run (Tx * option error) :=
  w ← walk tx;
  match w_soa w with
  | None => Done (w_tx w, Some ErrNotInZone)
  | Some soa =>
      let tx1 := setSoa (Some soa) (w_tx w) in
      if (w_firstNSAtLen w <=? w_firstSOAAtLen w)%Z
      then addAnswersAuthoritative (w_origq w) (w_origerr w) tx1
      else addAnswersDelegation (w_nss w) tx1
  end.

(** ** After the branch *)

(** The helpers below are declared outside [ncdns.go] or belong to the
    [dns] and [strings] packages; the development is parametric in them.
    [HashName] is [dns.HashName(label, ha, iter, salt)]. *)
Variable HashName : string -> N -> N -> string -> string.
Variable stepName : string -> string.
Variable useDNSSEC : Tx -> bool.
Variable signResponse : Tx -> run (Tx * option error).
Variable ToLower : string -> string.
Variable IsEdns0 : Msg -> option RR.

(** The block "if we are at the zone apex" of [addAnswers]: the owner
    name of the server's two keys is overwritten in place, and the two
    keys are appended by pointer. *)
Definition addApexDNSKEY (tx : Tx) : Tx :=
  match soa tx with
  | Some apex =>
      if bool_decide (TypeSOA ∈ typesAtQname tx) then
        let tx1 :=
          if istype tx TypeDNSKEY then
            let k := setKeyName (Name (Hdr apex)) (ksk (s tx)) in
            let z := setKeyName (Name (KHdr k)) (zsk (s tx)) in
            let sv := mkServer k (kskPrivate (s tx)) z (zskPrivate (s tx))
                               (cfg (s tx)) (b (s tx)) in
            setConsolationSOA false
              (updRes (appendAnswer [PtrZSK])
                 (updRes (appendAnswer [PtrKSK]) (setServer sv tx)))
          else tx in
        addType TypeDNSKEY tx1
      else tx
  | None => tx
  end.

(** [if tx.consolationSOA && tx.soa != nil { ... }] *)
Definition addConsolationSOA (tx : Tx) : Tx :=
  match soa tx with
  | Some apex =>
      if consolationSOA tx then updRes (appendNs [Own apex]) tx else tx
  | None => tx
  end.

(** Modelled from the spec: [uint16Slice], the order handed to
    [sort.Sort(uint16Slice(tbm))], is declared outside [ncdns.go]. The
    bit-map is the sorted set of the types, in ascending order. *)
Definition sortTypes (tbm : list N) : list N := merge_sort N.le tbm.

(** The NSEC3 record [addNSEC3RRActual] builds for the apex [apex]. *)
Definition nsec3For (tx : Tx) (tset : gset N) (apex : RR) : RR :=
  let tbm := sortTypes (elements tset) in
  let nsr1n := HashName (qname tx) SHA1 1 "8F" in
  let nsr1nn := stepName nsr1n in
  mkRR (mkHdr (absname (nsr1n ++ "." ++ Name (Hdr apex))) TypeNSEC3 ClassINET 600)
       (RD_NSEC3 SHA1 0 1 1 "8F"
                 (N.of_nat (String.length nsr1nn) mod 256) nsr1nn tbm).

(** [tx.addNSEC3RRActual(name, tset)]; [tx.soa.Hdr.Name] dereferences
    [tx.soa]. The argument [name] is not used by the body. *)
Definition addNSEC3RRActual (name : string) (tset : gset N) (tx : Tx)
  : run (Tx * option error) :=
  match soa tx with
  | Some apex => Done (updRes (appendNs [Own (nsec3For tx tset apex)]) tx, None)
  | None => Panic
  end.

(** [tx.addNSEC3RR()] *)
Definition addNSEC3RR (tx : Tx) : run (Tx * option error) :=
  '(tx1, err) ← addNSEC3RRActual (qname tx) (typesAtQname tx) tx;
  match err with
  | Some e => Done (tx1, Some e)
  | None => Done (tx1, None)
  end.

(** [tx.addNSEC()] *)
Definition addNSEC (tx : Tx) : run (Tx * option error) :=
  if negb (useDNSSEC tx) || suppressNSEC tx then Done (tx, None)
  else
    match Answer (res tx) with
    | [] =>
        '(tx1, err) ← addNSEC3RR tx;
        match err with
        | Some e => Done (tx1, Some e)
        | None => Done (tx1, None)
        end
    | _ :: _ => Done (tx, None)
    end.

(** [tx.addAdditionalItem(aname)] *)
Definition addAdditionalItem (aname : string) (tx : Tx) : Tx * option error :=
  let '(rrs, err) := blookup tx aname in
  match err with
  | Some e => (tx, Some e)
  | None =>
      (fold_left (fun (t : Tx) (rr : RR) =>
                    if (Rrtype (Hdr rr) =? TypeA) || (Rrtype (Hdr rr) =? TypeAAAA)
                    then updRes (appendExtra [Own rr]) t else t)
                 rrs tx, None)
  end.

(** [tx.addAdditional()]: the error of an item is dropped. Go ranges over
    the queue in no fixed order; the model takes the order of
    [elements]. *)
Definition addAdditional (tx : Tx) : run (Tx * option error) :=
  Done (fold_left (fun (t : Tx) (aname : string) => fst (addAdditionalItem aname t))
                  (elements (additionalQueue tx)) tx, None).

(** [tx.addAnswers()] *)
Definition addAnswers (tx : Tx) : run (Tx * option error) :=
  '(tx1, err) ← addAnswersMain tx;
  match err with
  | Some e => Done (tx1, Some e)
  | None =>
      let tx2 := addConsolationSOA (addApexDNSKEY tx1) in
      '(tx3, err) ← addNSEC tx2;
      match err with
      | Some e => Done (tx3, Some e)
      | None =>
          '(tx4, err) ← addAdditional tx3;
          match err with
          | Some e => Done (tx4, Some e)
          | None =>
              '(tx5, err) ← signResponse tx4;
              match err with
              | Some e => Done (tx5, Some e)
              | None => Done (tx5, None)
              end
          end
      end
  end.

(** ** The handler *)

(** The rcode the handler records for an error of [addAnswers]. *)
Definition rcodeFor (err : error) (tx : Tx) : Tx :=
  if bool_decide (err = ErrNoResults) then setRcodeTx 0%Z tx
  else if bool_decide (err = ErrNoSuchDomain) then setRcodeTx RcodeNameError tx
  else if (rcode tx =? 0)%Z then setRcodeTx RcodeServerFailure tx
  else tx.

(** [for _, q := range tx.req.Question { ... }] *)
Fixpoint questionLoop (qs : list dnsQuestion) (tx : Tx) : run Tx :=
  match qs with
  | [] => Done tx
  | q :: rest =>
      let tx1 := setQuestion (ToLower (QName q)) (Qtype q) (Qclass q) tx in
      if negb (Qclass q =? ClassINET) && negb (Qclass q =? ClassANY)
      then questionLoop rest tx1
      else
        '(tx2, err) ← addAnswers tx1;
        match err with
        | Some e => Done (rcodeFor e tx2)
        | None => questionLoop rest tx2
        end
  end.

(** The transaction [handle] starts from. *)
Definition newTx (sv : Server) (reqMsg : Msg) : Tx :=
  let tx := mkTx reqMsg
                 (setCompress true (setAuthoritative true (SetReply reqMsg emptyMsg)))
                 "" 0 0 sv 0%Z ∅ ∅ None "" false false false in
  match IsEdns0 reqMsg with
  | Some opt => updRes (appendExtra [Own opt]) tx
  | None => tx
  end.

(** [s.handle(rw, reqMsg)]: the server as the handler leaves it, and the
    message handed to [rw.WriteMsg]. *)
Definition handle (sv : Server) (reqMsg : Msg) : run (Server * Msg) :=
  tx ← questionLoop (Question reqMsg) (newTx sv reqMsg);
  Done (s tx, SetRcode reqMsg (rcode tx) (res tx)).

End Resolver.

(** ** A concrete zone

    The zone of the scenarios: [example.] with an SOA and an NS record, an
    address at [host.example.] and at [ns1.example.], and a delegation at
    [sub.example.] with an NS and a DS record. The helpers that are not
    part of [ncdns.go] are instantiated by simple stand-ins, so that the
    resolver can be run on closed inputs. *)

Module Zone.

(** A name is made absolute by a final dot. *)
Definition absname (n : string) : string :=
  match n with
  | EmptyString => "."
  | _ => if String.eqb (sliceFrom (String.length n - 1) n) "." then n else n ++ "."
  end.

(** Stand-ins for the hash and its successor: they only have to be
    recognisable in the record that is built. *)
Definition HashName (label : string) (ha iter : N) (salt : string) : string :=
  "H" ++ label.
Definition stepName (h : string) : string := h ++ "0".
(** A signer that adds no signature. *)
Definition signResponse (tx : Tx) : run (Tx * option error) := Done (tx, None).
Definition lowerAscii (c : ascii) : ascii :=
  let k := N_of_ascii c in
  if (65 <=? k) && (k <=? 90) then ascii_of_N (k + 32) else c.
Fixpoint ToLower (n : string) : string :=
  match n with
  | EmptyString => EmptyString
  | String c rest => String (lowerAscii c) (ToLower rest)
  end.
(** The first OPT record of the additional section. *)
Definition IsEdns0 (m : Msg) : option RR :=
  rrsetHasType (omap (fun p => match p with Own rr => Some rr | _ => None end) (Extra m)) TypeOPT.

Definition rr (name : string) (t : N) (d : RData) : RR := mkRR (mkHdr name t ClassINET 3600) d.

Definition soaRR : RR := rr "example." TypeSOA (RD_SOA "ns1.example." "admin.example." 1 600 600 600 600).
Definition nsRR : RR := rr "example." TypeNS (RD_NS "ns1.example.").
Definition hostA : RR := rr "host.example." TypeA (RD_Other "10.0.0.2").
Definition ns1A : RR := rr "ns1.example." TypeA (RD_Other "10.0.0.1").
Definition subNS : RR := rr "sub.example." TypeNS (RD_NS "ns1.sub.example.").
Definition subDS : RR := rr "sub.example." TypeDS (RD_DS 1 8 2 "ABCD").

Definition aliasCNAME : RR := rr "www.example." TypeCNAME (RD_CNAME "host.example.").
Definition aliasTXT : RR := rr "www.example." 16 (RD_Other "v=1").

Definition backend : Backend := fun name =>
  if String.eqb name "example" then ([soaRR; nsRR], None)
  else if String.eqb name "host.example" then ([hostA], None)
  else if String.eqb name "www.example" then ([aliasCNAME; aliasTXT], None)
  else if String.eqb name "ns1.example" then ([ns1A], None)
  else if String.eqb name "sub.example" then ([subNS; subDS], None)
  else ([], Some ErrNoSuchDomain).

(** A zone with two nested delegations below the apex. *)
Definition cNS : RR := rr "c.example." TypeNS (RD_NS "ns1.c.example.").
Definition bcNS : RR := rr "b.c.example." TypeNS (RD_NS "ns1.b.c.example.").
Definition bcDS : RR := rr "b.c.example." TypeDS (RD_DS 2 8 2 "BEEF").

Definition nested : Backend := fun name =>
  if String.eqb name "example" then ([soaRR; nsRR], None)
  else if String.eqb name "c.example" then ([cNS], None)
  else if String.eqb name "b.c.example" then ([bcNS; bcDS], None)
  else ([], Some ErrNoSuchDomain).

(** The keys as loaded from their files, under the owner name [bit.]. *)
Definition key (flags : N) (pk : string) : DNSKEY :=
  mkDNSKEY (mkHdr "bit." TypeDNSKEY ClassINET 3600) flags 3 8 pk.
Definition config : ServerConfig :=
  mkConfig ":53" "ncdns.key" "ncdns.private" "" "" "" "" "localhost:8336" 1000%Z "127.127.127.127" "".
Definition server : Server :=
  mkServer (key 257 "KSK") "ksk-private" (key 256 "ZSK") "zsk-private" config backend.

Definition nestedServer : Server :=
  mkServer (key 257 "KSK") "ksk-private" (key 256 "ZSK") "zsk-private" config nested.

Definition query (name : string) (t : N) : Msg :=
  mkMsg 7 false false false 0%Z [mkQuestion name t ClassINET] [] [] [].

(** A request with one question of class CHAOS (3). *)
Definition chaosQuery : Msg :=
  mkMsg 9 false false false 0%Z [mkQuestion "version.bind." 16 3] [] [] [].

(** The transaction of [host.example. MX] as the authoritative branch
    leaves it. *)
Definition deniedTx : Tx :=
  setConsolationSOA true
    (addType TypeA (setSoa (Some soaRR)
       (setQuestion "host.example." 15 ClassINET (newTx IsEdns0 server (query "host.example." 15))))).

(** The transaction of a question below the delegation [sub.example.],
    and of the DS question at it, on entry to the delegation branch. *)
Definition referralTx : Tx :=
  setSoa (Some soaRR) (setDelegationPoint "sub.example."
    (setQuestion "foo.sub.example." TypeA ClassINET
       (newTx IsEdns0 server (query "foo.sub.example." TypeA)))).
Definition dsTx : Tx :=
  setSoa (Some soaRR) (setQueryIsAtDelegationPoint true (setDelegationPoint "sub.example."
    (setQuestion "sub.example." TypeDS ClassINET
       (newTx IsEdns0 server (query "sub.example." TypeDS))))).

(** A transaction for one question, as [handle] sets it up. *)
Definition txFor (sv : Server) (name : string) (t : N) : Tx :=
  setQuestion name t ClassINET (newTx IsEdns0 sv (query name t)).

(** A transaction whose queue holds the name of a host with an address
    and a name the backend does not know. *)
Definition glueTx : Tx :=
  queueAdditional "ns1.example" (queueAdditional "nothere.example" referralTx).

(** A zone whose apex also bears an alias. *)
Definition apexCNAME : RR := rr "example." TypeCNAME (RD_CNAME "host.example.").

Definition aliased : Backend := fun name =>
  if String.eqb name "example" then ([soaRR; nsRR; apexCNAME], None)
  else if String.eqb name "host.example" then ([hostA], None)
  else ([], Some ErrNoSuchDomain).

Definition aliasedServer : Server :=
  mkServer (key 257 "KSK") "ksk-private" (key 256 "ZSK") "zsk-private" config aliased.

(** A request with two questions: an address question at the delegation
    [sub.example.], then a DS question below it. *)
Definition twoQuestions : Msg :=
  mkMsg 11 false false false 0%Z
        [mkQuestion "sub.example." TypeA ClassINET;
         mkQuestion "foo.sub.example." TypeDS ClassINET] [] [] [].

(** The handler and the resolver on this zone. *)
Abbreviation run_handle dnssec sv m :=
  (handle absname HashName stepName (fun _ => dnssec) signResponse ToLower IsEdns0 sv m).

Abbreviation run_addAnswers dnssec tx :=
  (addAnswers absname HashName stepName (fun _ => dnssec) signResponse tx).

End Zone.

(** ** Notions used in the statements *)

(** The record has type [t] according to its header. *)
Definition isType (t : N) (rr : RR) : bool := Rrtype (Hdr rr) =? t.

Definition isNSorDS (rr : RR) : bool := isType TypeNS rr || isType TypeDS rr.

(** A record whose header says NS is a [*dns.NS]. *)
Definition nsTyped (rr : RR) : bool :=
  if isType TypeNS rr then match Rdata rr with RD_NS _ => true | _ => false end
  else true.

(** A record whose header says SOA is a [*dns.SOA]. *)
Definition soaTyped (rr : RR) : bool :=
  if isType TypeSOA rr then match Rdata rr with RD_SOA _ _ _ _ _ _ _ => true | _ => false end
  else true.

(** The targets of the NS records of a record set. *)
Definition nsTargets (nss : list RR) : list string :=
  omap (fun rr => if isType TypeNS rr then as_NS rr else None) nss.

(** The lookup of [n] succeeds with a record of type [t]. *)
Definition bearsType (tx : Tx) (t : N) (n : string) : bool :=
  match blookup tx n with
  | (rrs, None) => existsb (isType t) rrs
  | (_, Some _) => false
  end.

(** Two states of the server that differ at most in the owner names of
    the two DNSKEY records. *)
Definition sameButKeyNames (sv sv' : Server) : Prop :=
  kskPrivate sv' = kskPrivate sv ∧ zskPrivate sv' = zskPrivate sv ∧
  cfg sv' = cfg sv ∧ b sv' = b sv ∧
  ksk sv' = setKeyName (Name (KHdr (ksk sv'))) (ksk sv) ∧
  zsk sv' = setKeyName (Name (KHdr (zsk sv'))) (zsk sv).

(** The invariant of the loop [A] on entry to a turn for the name [n],
    for a walk started from [tx0] with [norig]: no SOA was found; the
    names visited are longer than [n]; [firstNSAtLen] is unset and no name
    visited bears an NS record, or exceeds [len n] and one does. *)
Definition walkInv (tx0 : Tx) (norig n : string) (st : WalkSt) : Prop :=
  s (w_tx st) = s tx0 ∧ res (w_tx st) = res tx0 ∧
  w_soa st = None ∧ w_firstSOAAtLen st = (-1)%Z ∧
  Forall (fun v => bearsType tx0 TypeSOA v = false ∧ (len n < len v)%Z) (w_visited st) ∧
  ((w_firstNSAtLen st = (-1)%Z ∧
    Forall (fun v => bearsType tx0 TypeNS v = false) (w_visited st)) ∨
   ((len n < w_firstNSAtLen st)%Z ∧
    Exists (fun v => bearsType tx0 TypeNS v = true) (w_visited st))) ∧
  (w_visited st = [] → n = norig) ∧
  (w_visited st ≠ [] →
   (len n < len norig)%Z ∧
   w_origq st = (blookup tx0 norig).1 ∧ w_origerr st = (blookup tx0 norig).2).

(** What holds of the state the loop [A] is left with. *)
Definition walkPost (tx0 : Tx) (norig : string) (w : WalkSt) : Prop :=
  s (w_tx w) = s tx0 ∧ res (w_tx w) = res tx0 ∧
  (w_visited w ≠ [] →
   w_origq w = (blookup tx0 norig).1 ∧ w_origerr w = (blookup tx0 norig).2) ∧
  ((w_soa w = None ∧
    Forall (fun v => bearsType tx0 TypeSOA v = false) (w_visited w)) ∨
   (∃ apex pre m,
      w_soa w = Some apex ∧ w_visited w = (pre ++ [m])%list ∧
      bearsType tx0 TypeSOA m = true ∧
      Forall (fun v => bearsType tx0 TypeSOA v = false ∧ (len m < len v)%Z) pre ∧
      w_firstSOAAtLen w = len m ∧ (0 < len m)%Z ∧
      ((Forall (fun v => bearsType tx0 TypeNS v = false) pre ∧
        (w_firstNSAtLen w = (-1)%Z ∨
         (w_firstNSAtLen w = len m ∧ bearsType tx0 TypeNS m = true))) ∨
       (Exists (fun v => bearsType tx0 TypeNS v = true) pre ∧
        (len m < w_firstNSAtLen w)%Z)))).

(** A record whose header says CNAME is a [*dns.CNAME]. *)
Definition cnameTyped (rr : RR) : bool :=
  if isType TypeCNAME rr then match Rdata rr with RD_CNAME _ => true | _ => false end
  else true.

(** The record matches the question of [tx]. *)
Definition requested (tx : Tx) (rr : RR) : bool := istype tx (Rrtype (Hdr rr)).

(** [tx] with the set of types replaced. *)
Definition withTypes (ts : gset N) (tx : Tx) : Tx :=
  mkTx (req tx) (res tx) (qname tx) (qtype tx) (qclass tx) (s tx) (rcode tx)
       ts (additionalQueue tx) (soa tx) (delegationPoint tx)
       (queryIsAtDelegationPoint tx) (consolationSOA tx) (suppressNSEC tx).

(** What follows the first dot of [n]: the name of the next turn of the
    walk. *)
Definition nextName (n : string) : string := sliceFrom (Z.to_nat (IndexDot n + 1)) n.

(** The names the walk goes through when no SOA record stops it: [n],
    then what follows its first dot, and so on. *)
Fixpoint namesFrom (fuel : nat) (n : string) : list string :=
  if (0 <? len n)%Z then
    n :: match fuel with
         | O => []
         | S fuel' => if (IndexDot n <? 0)%Z then [] else namesFrom fuel' (nextName n)
         end
  else [].

Definition walkNames (norig : string) : list string :=
  namesFrom (String.length norig) norig.

(** The number of dots of a name. *)
Fixpoint countDots (n : string) : nat :=
  match n with
  | EmptyString => O
  | String c rest => ((if Ascii.eqb c "." then 1 else 0) + countDots rest)%nat
  end.

(** A record typed NS stands before every record typed SOA: the pass
    over the records reaches it. *)
Fixpoint nsSeen (rrs : list RR) : bool :=
  match rrs with
  | [] => false
  | rr :: rest =>
      if isType TypeSOA rr then false
      else if isType TypeNS rr then true
      else nsSeen rest
  end.

(** The lookup of [n] succeeds and the pass over its records reaches an
    NS record. *)
Definition seesNS (tx : Tx) (n : string) : bool :=
  match blookup tx n with
  | (rrs, None) => nsSeen rrs
  | (_, Some _) => false
  end.

(** What the walk does to the transaction at the first name [m] at which
    it reaches an NS record. *)
Definition markDelegation (absname : string -> string) (norig m : string) (tx : Tx) : Tx :=
  if String.eqb m norig
  then setQueryIsAtDelegationPoint true (setDelegationPoint (absname m) tx)
  else setDelegationPoint (absname m) tx.

(** The delegation data of a walk state, for a walk started from [tx0]:
    either no visited name showed an NS record and nothing was written, or
    the first such name [m] fixed [firstNSAtLen] and the delegation point,
    and the last such name [l] gave [nss]. *)
Definition walkTrace (absname : string -> string) (tx0 : Tx) (norig : string)
           (st : WalkSt) : Prop :=
  (w_firstNSAtLen st = (-1)%Z ∧ w_tx st = tx0 ∧ w_nss st = [] ∧
   Forall (fun v => seesNS tx0 v = false) (w_visited st)) ∨
  (∃ pre m mid pre' l post',
     w_visited st = (pre ++ m :: mid)%list ∧
     Forall (fun v => seesNS tx0 v = false) pre ∧ seesNS tx0 m = true ∧
     w_firstNSAtLen st = len m ∧
     w_tx st = markDelegation absname norig m tx0 ∧
     w_visited st = (pre' ++ l :: post')%list ∧
     seesNS tx0 l = true ∧ Forall (fun v => seesNS tx0 v = false) post' ∧
     w_nss st = (blookup tx0 l).1).

(** The header type of a record agrees with its concrete type where the
    resolver asserts one. *)
Definition wellTyped (rr : RR) : bool := soaTyped rr && nsTyped rr && cnameTyped rr.

(** [tx'] has the request, the question and the rcode of [tx]; the
    sections of its response begin with those of [tx]; its sets contain
    those of [tx]. *)
Definition extends (tx tx' : Tx) : Prop :=
  req tx' = req tx ∧ qname tx' = qname tx ∧ qtype tx' = qtype tx ∧
  qclass tx' = qclass tx ∧ rcode tx' = rcode tx ∧
  Question (res tx') = Question (res tx) ∧
  Answer (res tx) `prefix_of` Answer (res tx') ∧
  Ns (res tx) `prefix_of` Ns (res tx') ∧
  Extra (res tx) `prefix_of` Extra (res tx') ∧
  typesAtQname tx ⊆ typesAtQname tx' ∧
  additionalQueue tx ⊆ additionalQueue tx'.

(** An address record. *)
Definition isAddress (rr : RR) : bool :=
  (Rrtype (Hdr rr) =? TypeA) || (Rrtype (Hdr rr) =? TypeAAAA).

(** The records [addAdditionalItem] appends for the name [aname]. *)
Definition additionalFor (tx : Tx) (aname : string) : list RR :=
  match blookup tx aname with
  | (rrs, None) => List.filter isAddress rrs
  | (_, Some _) => []
  end.

(** The first record typed SOA that a successful lookup of [n] gives. *)
Definition soaAt (bk : Backend) (n : string) : option RR :=
  match bk n with
  | (rrs, None) => rrsetHasType rrs TypeSOA
  | (_, Some _) => None
  end.

(** [apex] is the apex SOA of the zone of [name]: the first record typed
    SOA at the first of the names of the walk of [name] that has one. *)
Definition apexOf (bk : Backend) (name : string) (apex : RR) : Prop :=
  ∃ pre m post,
    walkNames (TrimRightDot name) = (pre ++ m :: post)%list ∧
    Forall (fun v => soaAt bk v = None) pre ∧
    soaAt bk m = Some apex.

(** * Properties *)

(** ** Strings *)

Lemma len_nonneg (n : string) : (0 <= len n)%Z.
Proof. unfold len. lia. Qed.

Lemma len_String (c : ascii) (n : string) : len (String c n) = (len n + 1)%Z.
Proof. unfold len. simpl. lia. Qed.

Lemma IndexDot_range (n : string) :
  IndexDot n = (-1)%Z ∨ (0 <= IndexDot n < len n)%Z.
Proof.
  induction n as [|c n IH]; simpl; [by left|].
  rewrite len_String. destruct (Ascii.eqb c "."); [right; pose proof (len_nonneg n); lia|].
  destruct IH as [-> | IH]; simpl; [by left|].
  destruct (Z.ltb_spec (IndexDot n) 0); [lia | right; lia].
Qed.

Lemma length_sliceFrom (k : nat) (n : string) :
  String.length (sliceFrom k n) = (String.length n - k)%nat.
Proof.
  revert n; induction k as [|k IH]; intros [|c n]; simpl; auto with arith.
Qed.

(** The name of the next turn is strictly shorter. *)
Lemma len_next (n : string) :
  (0 <= IndexDot n)%Z →
  (len (sliceFrom (Z.to_nat (IndexDot n + 1)) n) < len n)%Z.
Proof.
  intros H. destruct (IndexDot_range n) as [E | R]; [lia|].
  unfold len in *. rewrite length_sliceFrom. lia.
Qed.

(** ** The root name *)

Section Root.

Variable absname : string -> string.
Variable HashName : string -> N -> N -> string -> string.
Variable stepName : string -> string.
Variable useDNSSEC : Tx -> bool.
Variable signResponse : Tx -> run (Tx * option error).

(** Without a label to look up, the walk makes no turn. *)
Lemma walk_no_label (tx : Tx) :
  TrimRightDot (qname tx) = "" → walk absname tx = Done (walkInit tx).
Proof. unfold walk. intros ->. reflexivity. Qed.

Lemma addAnswersMain_no_label (tx : Tx) :
  TrimRightDot (qname tx) = "" →
  addAnswersMain absname tx = Done (tx, Some ErrNotInZone).
Proof. intros H. unfold addAnswersMain. rewrite (walk_no_label tx H). reflexivity. Qed.

(** C10: for the root name ["."] and for the empty name, trimming leaves
    the empty string, the zone walk hands no name to the backend, and the
    resolver returns [ErrNotInZone] with the transaction, hence every
    section of the response, as it was. *)
Theorem root_query_not_in_zone (tx : Tx) :
  qname tx = "." ∨ qname tx = "" →
  TrimRightDot (qname tx) = "" ∧
  (∃ w, walk absname tx = Done w ∧ w_visited w = [] ∧ w_tx w = tx) ∧
  addAnswersMain absname tx = Done (tx, Some ErrNotInZone) ∧
  addAnswers absname HashName stepName useDNSSEC signResponse tx
    = Done (tx, Some ErrNotInZone).
Proof.
  intros H.
  assert (E : TrimRightDot (qname tx) = "") by (destruct H as [-> | ->]; reflexivity).
  split; [exact E|]. split.
  - exists (walkInit tx). rewrite (walk_no_label tx E). auto.
  - split; [apply addAnswersMain_no_label; exact E|].
    unfold addAnswers. rewrite (addAnswersMain_no_label tx E). reflexivity.
Qed.

End Root.

Lemma root_query_not_in_zone_witness :
  qname (Zone.txFor Zone.server "." TypeA) = "." ∧
  Zone.run_addAnswers true (Zone.txFor Zone.server "." TypeA)
    = Done (Zone.txFor Zone.server "." TypeA, Some ErrNotInZone).
Proof.
  split; [reflexivity|].
  apply (root_query_not_in_zone Zone.absname Zone.HashName Zone.stepName
           (fun _ => true) Zone.signResponse (Zone.txFor Zone.server "." TypeA)).
  left. reflexivity.
Defined.

(** ** Errors and rcodes *)

Lemma rcodeFor_NoResults (tx : Tx) : rcode (rcodeFor ErrNoResults tx) = RcodeSuccess.
Proof. reflexivity. Qed.

Lemma rcodeFor_NoSuchDomain (tx : Tx) : rcode (rcodeFor ErrNoSuchDomain tx) = RcodeNameError.
Proof. reflexivity. Qed.

(** Every other error, [ErrNotInZone] among them, takes the last arm. *)
Lemma rcodeFor_other (e : error) (tx : Tx) :
  e ≠ ErrNoResults → e ≠ ErrNoSuchDomain →
  rcode (rcodeFor e tx) = if (rcode tx =? 0)%Z then RcodeServerFailure else rcode tx.
Proof.
  intros H1 H2. unfold rcodeFor.
  rewrite (bool_decide_eq_false_2 _ H1), (bool_decide_eq_false_2 _ H2).
  destruct (rcode tx =? 0)%Z; reflexivity.
Qed.

Lemma rcodeFor_NotInZone (tx : Tx) :
  rcode tx = 0%Z → rcode (rcodeFor ErrNotInZone tx) = RcodeServerFailure.
Proof. intros H. rewrite rcodeFor_other by discriminate. rewrite H. reflexivity. Qed.

(** An error of the branch leaves [addAnswers] at once: neither the
    consolation SOA nor the NSEC3 step is reached. *)
Lemma addAnswers_branch_error absname HashName stepName useDNSSEC signResponse
      (tx tx1 : Tx) (e : error) :
  addAnswersMain absname tx = Done (tx1, Some e) →
  addAnswers absname HashName stepName useDNSSEC signResponse tx = Done (tx1, Some e).
Proof. intros H. unfold addAnswers. rewrite H. reflexivity. Qed.

Lemma addAnswersAuthoritative_error (rrs : list RR) (e : error) (tx : Tx) :
  addAnswersAuthoritative rrs (Some e) tx = Done (tx, Some e).
Proof. reflexivity. Qed.

(** C3: a question outside every zone, [host.org. A], makes the resolver
    return [ErrNotInZone]; the handler has no arm for that error and
    answers with rcode SERVFAIL (2), not REFUSED (5). *)
Theorem not_in_zone_is_servfail :
  (∃ tx1, Zone.run_addAnswers true (Zone.txFor Zone.server "host.org." TypeA)
          = Done (tx1, Some ErrNotInZone)) ∧
  ∃ m, Zone.run_handle true Zone.server (Zone.query "host.org." TypeA)
       = Done (Zone.server, m) ∧
       Rcode m = RcodeServerFailure ∧ Rcode m ≠ RcodeRefused.
Proof.
  split.
  - eexists. vm_compute. reflexivity.
  - eexists. split; [vm_compute; reflexivity|]. split; [reflexivity | discriminate].
Qed.

(** C6: [nothere.example. A], for which the backend returns
    [ErrNoSuchDomain] while the walk finds the apex SOA at [example]: the
    rcode is NXDOMAIN (3), and the Authority section is empty, holding
    neither the apex SOA nor an NSEC3 record. *)
Theorem nxdomain_authority_is_empty :
  Zone.backend "nothere.example" = ([], Some ErrNoSuchDomain) ∧
  (∃ w, walk Zone.absname (Zone.txFor Zone.server "nothere.example." TypeA) = Done w ∧
        w_soa w = Some Zone.soaRR ∧ w_visited w = ["nothere.example"; "example"]) ∧
  ∃ m, Zone.run_handle true Zone.server (Zone.query "nothere.example." TypeA)
       = Done (Zone.server, m) ∧
       Rcode m = RcodeNameError ∧ Answer m = [] ∧ Ns m = [].
Proof.
  split; [reflexivity|]. split.
  - eexists. split; [vm_compute; reflexivity|]. split; reflexivity.
  - eexists. split; [vm_compute; reflexivity|]. repeat split.
Qed.

(** ** The alias case of the authoritative branch *)

Lemma istype_false (tx : Tx) (t : N) :
  qtype tx ≠ t → qtype tx ≠ TypeANY → istype tx t = false.
Proof.
  intros H1 H2. unfold istype.
  apply orb_false_intro; apply N.eqb_neq; assumption.
Qed.

(** C8, as amended: when the records at the queried name contain a CNAME
    and the query type is neither CNAME nor ANY, the first such record
    alone is appended to Answer and the branch returns; nothing else in
    the transaction changes. For a CNAME query and for an ANY query the
    alias test is skipped and the records are answered as for any other
    name. *)
Theorem cname_redirect (rrs : list RR) (tx : Tx) (cn : RR) (target : string) :
  rrsetHasType rrs TypeCNAME = Some cn →
  Rdata cn = RD_CNAME target →
  (qtype tx ≠ TypeCNAME → qtype tx ≠ TypeANY →
   addAnswersAuthoritative rrs None tx = Done (updRes (appendAnswer [Own cn]) tx, None) ∧
   Answer (res (updRes (appendAnswer [Own cn]) tx)) = (Answer (res tx) ++ [Own cn])%list ∧
   Ns (res (updRes (appendAnswer [Own cn]) tx)) = Ns (res tx) ∧
   Extra (res (updRes (appendAnswer [Own cn]) tx)) = Extra (res tx) ∧
   typesAtQname (updRes (appendAnswer [Own cn]) tx) = typesAtQname tx ∧
   consolationSOA (updRes (appendAnswer [Own cn]) tx) = consolationSOA tx) ∧
  (qtype tx = TypeCNAME ∨ qtype tx = TypeANY →
   addAnswersAuthoritative rrs None tx
   = Done (match Answer (res (fold_left addRequested rrs tx)) with
           | [] => setConsolationSOA true (fold_left addRequested rrs tx)
           | _ :: _ => fold_left addRequested rrs tx
           end, None)).
Proof.
  intros Hcn Hrd. split.
  - intros Hq1 Hq2. split; [|repeat split].
    unfold addAnswersAuthoritative. rewrite Hcn.
    rewrite (istype_false tx TypeCNAME Hq1 Hq2). simpl.
    unfold as_CNAME. rewrite Hrd. reflexivity.
  - intros Hq. unfold addAnswersAuthoritative. rewrite Hcn.
    assert (E : istype tx TypeCNAME = true).
    { unfold istype. destruct Hq as [-> | ->]; [reflexivity|]. apply orb_true_r. }
    rewrite E. reflexivity.
Qed.

Lemma cname_redirect_witness :
  addAnswersAuthoritative [Zone.aliasCNAME; Zone.aliasTXT] None
    (Zone.txFor Zone.server "www.example." TypeA)
  = Done (updRes (appendAnswer [Own Zone.aliasCNAME])
            (Zone.txFor Zone.server "www.example." TypeA), None).
Proof.
  destruct (cname_redirect [Zone.aliasCNAME; Zone.aliasTXT]
              (Zone.txFor Zone.server "www.example." TypeA) Zone.aliasCNAME "host.example."
              eq_refl eq_refl) as [H _].
  apply H; discriminate.
Defined.

(** C8, as stated, fails for an ANY query: [istype] matches every type, so
    the alias test is skipped, every record is appended to Answer and the
    types are recorded. *)
Lemma cname_any_query_counterexample :
  rrsetHasType [Zone.aliasCNAME; Zone.aliasTXT] TypeCNAME = Some Zone.aliasCNAME ∧
  qtype (Zone.txFor Zone.server "www.example." TypeANY) ≠ TypeCNAME ∧
  (∃ tx1, addAnswersAuthoritative [Zone.aliasCNAME; Zone.aliasTXT] None
            (Zone.txFor Zone.server "www.example." TypeANY) = Done (tx1, None) ∧
          Answer (res tx1) = [Own Zone.aliasCNAME; Own Zone.aliasTXT] ∧
          TypeCNAME ∈ typesAtQname tx1 ∧ 16 ∈ typesAtQname tx1) ∧
  addAnswersAuthoritative [Zone.aliasCNAME; Zone.aliasTXT] None
    (Zone.txFor Zone.server "www.example." TypeANY)
  ≠ Done (updRes (appendAnswer [Own Zone.aliasCNAME])
            (Zone.txFor Zone.server "www.example." TypeANY), None).
Proof.
  split; [reflexivity|]. split; [discriminate|]. split.
  - eexists. split; [reflexivity|]. split; [reflexivity|].
    split; simpl; set_solver.
  - intros H. apply (f_equal (fun r => match r with
                                       | Done (t, _) => List.length (Answer (res t))
                                       | _ => O
                                       end)) in H.
    vm_compute in H. discriminate.
Qed.

(** ** The NSEC3 record *)

Lemma sortTypes_elem (l : list N) (t : N) : t ∈ sortTypes l ↔ t ∈ l.
Proof. unfold sortTypes. by rewrite merge_sort_Permutation. Qed.

Lemma StronglySorted_le_lt (l : list N) :
  NoDup l → StronglySorted N.le l → StronglySorted N.lt l.
Proof.
  induction l as [|x l IH]; intros Hnd Hs; [constructor|].
  inversion Hnd as [|? ? Hx Hl]; subst. inversion Hs as [|? ? Hs' Hall]; subst.
  constructor; [auto|].
  rewrite Forall_forall in Hall |- *. intros y Hy.
  assert (x ≠ y) by (intros ->; exact (Hx Hy)).
  specialize (Hall y Hy). lia.
Qed.

(** The keys of a set, once sorted, are strictly increasing. *)
Lemma sortTypes_sorted (tset : gset N) : StronglySorted N.lt (sortTypes (elements tset)).
Proof.
  apply StronglySorted_le_lt.
  - unfold sortTypes. rewrite merge_sort_Permutation. apply NoDup_elements.
  - unfold sortTypes. apply StronglySorted_merge_sort; apply _.
Qed.

Section NSEC3.

Variable absname : string -> string.
Variable HashName : string -> N -> N -> string -> string.
Variable stepName : string -> string.
Variable useDNSSEC : Tx -> bool.

(** What [addNSEC] does, by cases; [tx.soa] is set. *)
Lemma addNSEC_cases (tx : Tx) (apex : RR) :
  soa tx = Some apex →
  addNSEC absname HashName stepName useDNSSEC tx
  = Done (if useDNSSEC tx && negb (suppressNSEC tx)
          then match Answer (res tx) with
               | [] => updRes (appendNs [Own (nsec3For absname HashName stepName tx
                                                (typesAtQname tx) apex)]) tx
               | _ :: _ => tx
               end
          else tx, None).
Proof.
  intros Hsoa. unfold addNSEC, addNSEC3RR, addNSEC3RRActual.
  destruct (useDNSSEC tx), (suppressNSEC tx); simpl; try reflexivity.
  destruct (Answer (res tx)); [|reflexivity].
  rewrite Hsoa. reflexivity.
Qed.

End NSEC3.

(** ** Updates of the response *)

Lemma updRes_id (tx : Tx) : updRes (appendAnswer []) tx = tx.
Proof.
  destruct tx as [rq [i r a c rc q an ns ex] ? ? ? ? ? ? ? ? ? ? ? ?].
  unfold updRes, appendAnswer; simpl. rewrite app_nil_r. reflexivity.
Qed.

Lemma updRes_appendAnswer_app (l1 l2 : list RRptr) (tx : Tx) :
  updRes (appendAnswer l2) (updRes (appendAnswer l1) tx)
  = updRes (appendAnswer (l1 ++ l2)) tx.
Proof. unfold updRes, appendAnswer; simpl. rewrite app_assoc. reflexivity. Qed.

(** ** The delegation branch *)

(** The DS loop appends the DS records of [nss], in order. *)
Lemma addDSAnswers_spec (nss : list RR) :
  ∀ (added : bool) (tx : Tx),
    addDSAnswers nss added tx
    = (added || existsb (isType TypeDS) nss,
       updRes (appendAnswer (map Own (List.filter (isType TypeDS) nss))) tx).
Proof.
  induction nss as [|ns rest IH]; intros added tx; simpl.
  - rewrite orb_false_r, updRes_id. reflexivity.
  - unfold isType at 1 3. destruct (Rrtype (Hdr ns) =? TypeDS); simpl.
    + rewrite IH, updRes_appendAnswer_app. simpl. rewrite orb_true_r. reflexivity.
    + apply IH.
Qed.

(** The referral loop, when every record typed NS is an NS record. *)
Lemma addReferral_spec (nss : list RR) :
  ∀ tx : Tx,
    forallb nsTyped nss = true →
    ∃ tx', addReferral nss tx = Done tx' ∧
           Authoritative (res tx') = Authoritative (res tx) ∧
           Answer (res tx') = Answer (res tx) ∧
           Ns (res tx') = (Ns (res tx) ++ map Own (List.filter isNSorDS nss))%list ∧
           Extra (res tx') = Extra (res tx) ∧
           additionalQueue tx' = additionalQueue tx ∪ list_to_set (nsTargets nss) ∧
           suppressNSEC tx' = suppressNSEC tx || existsb (isType TypeDS) nss ∧
           consolationSOA tx' = consolationSOA tx ∧
           typesAtQname tx' = typesAtQname tx ∧
           s tx' = s tx ∧ soa tx' = soa tx.
Proof.
  induction nss as [|ns rest IH]; intros tx Hwt; simpl in *.
  - exists tx. rewrite app_nil_r, orb_false_r.
    repeat split; try reflexivity. unfold nsTargets. simpl.
    symmetry. apply (right_id_L ∅ (∪)).
  - apply andb_true_iff in Hwt as [Hns Hrest].
    unfold nsTyped, isNSorDS, nsTargets, isType in *. simpl.
    destruct (Rrtype (Hdr ns) =? TypeNS) eqn:ENS.
    + assert (EDS : (Rrtype (Hdr ns) =? TypeDS) = false).
      { apply N.eqb_eq in ENS. rewrite ENS. reflexivity. }
      rewrite EDS. unfold as_NS. destruct (Rdata ns) eqn:ER; try discriminate. simpl.
      destruct (IH (queueAdditional Ns0 (updRes (appendNs [Own ns]) tx)) Hrest)
        as (tx' & -> & HA & HAn & HNs & HE & HQ & HS & HC & HT & Hs & Hsoa).
      exists tx'. simpl in *. rewrite <- app_assoc in HNs.
      repeat split; try assumption. rewrite HQ. simpl.
      rewrite (comm_L (∪) {[Ns0]} (additionalQueue tx)), <- (assoc_L (∪)). reflexivity.
    + destruct (Rrtype (Hdr ns) =? TypeDS) eqn:EDS; simpl.
      * destruct (IH (setSuppressNSEC true (updRes (appendNs [Own ns]) tx)) Hrest)
          as (tx' & -> & HA & HAn & HNs & HE & HQ & HS & HC & HT & Hs & Hsoa).
        exists tx'. simpl in *. rewrite <- app_assoc in HNs. rewrite orb_true_r.
        repeat split; assumption.
      * destruct (IH tx Hrest)
          as (tx' & -> & HA & HAn & HNs & HE & HQ & HS & HC & HT & Hs & Hsoa).
        exists tx'. repeat split; assumption.
Qed.

(** C2: the flag [queryIsAtDelegationPoint] is raised by the walk and
    never lowered, and the handler runs every question of a request on the
    same transaction. The question [foo.sub.example. DS], below the
    delegation [sub.example.], is answered by a referral when it is asked
    alone. Asked after [sub.example. A], which raised the flag, it is
    still resolved with the flag set although the queried name is not the
    delegation point: the DS record of [sub.example.] is appended to
    Answer, and nothing is appended to Authority or queued. *)
Theorem delegation_flag_not_reset :
  (∃ m, Zone.run_handle true Zone.server (Zone.query "foo.sub.example." TypeDS)
        = Done (Zone.server, m) ∧
        Authoritative m = false ∧ Answer m = [] ∧
        Ns m = [Own Zone.subNS; Own Zone.subDS]) ∧
  (∃ tx1 tx2,
     Zone.run_addAnswers true
       (setQuestion "sub.example." TypeA ClassINET
          (newTx Zone.IsEdns0 Zone.server Zone.twoQuestions)) = Done (tx1, None) ∧
     delegationPoint tx1 = "sub.example." ∧ queryIsAtDelegationPoint tx1 = true ∧
     Authoritative (res tx1) = false ∧ Answer (res tx1) = [] ∧
     Ns (res tx1) = [Own Zone.subNS; Own Zone.subDS] ∧
     additionalQueue tx1 = {[ "ns1.sub.example." ]} ∧
     suppressNSEC tx1 = true ∧ typesAtQname tx1 = {[ TypeNS ]} ∧
     Zone.run_addAnswers true (setQuestion "foo.sub.example." TypeDS ClassINET tx1)
       = Done (tx2, None) ∧
     qname tx2 = "foo.sub.example." ∧ qtype tx2 = TypeDS ∧
     delegationPoint tx2 = "sub.example." ∧ qname tx2 ≠ delegationPoint tx2 ∧
     queryIsAtDelegationPoint tx2 = true ∧
     Answer (res tx2) = (Answer (res tx1) ++ [Own Zone.subDS])%list ∧
     Ns (res tx2) = Ns (res tx1) ∧
     additionalQueue tx2 = additionalQueue tx1) ∧
  ∃ m, Zone.run_handle true Zone.server Zone.twoQuestions = Done (Zone.server, m) ∧
       Answer m = [Own Zone.subDS] ∧
       Ns m = [Own Zone.subNS; Own Zone.subDS].
Proof.
  split_and!.
  - eexists. split; [vm_compute; reflexivity|]. split_and!; reflexivity.
  - eexists. eexists. split; [vm_compute; reflexivity|].
    do 5 (split; [reflexivity|]).
    split; [vm_compute; reflexivity|]. split; [reflexivity|].
    split; [vm_compute; reflexivity|].
    split; [vm_compute; reflexivity|].
    split_and!; try reflexivity. discriminate.
  - eexists. split; [vm_compute; reflexivity|]. split; reflexivity.
Qed.

(** ** The additional section *)

Lemma updRes_appendExtra_nil (tx : Tx) : updRes (appendExtra []) tx = tx.
Proof.
  destruct tx as [rq [i r a c rc q an ns ex] ? ? ? ? ? ? ? ? ? ? ? ?].
  unfold updRes, appendExtra; simpl. rewrite app_nil_r. reflexivity.
Qed.

Lemma updRes_appendExtra_app (l1 l2 : list RRptr) (tx : Tx) :
  updRes (appendExtra l2) (updRes (appendExtra l1) tx)
  = updRes (appendExtra (l1 ++ l2)) tx.
Proof. unfold updRes, appendExtra; simpl. rewrite app_assoc. reflexivity. Qed.

Lemma addAdditionalItem_extra (aname : string) (tx : Tx) :
  ∃ l, fst (addAdditionalItem aname tx) = updRes (appendExtra l) tx.
Proof.
  unfold addAdditionalItem. destruct (blookup tx aname) as [rrs [e|]]; simpl.
  - exists []. symmetry. apply updRes_appendExtra_nil.
  - clear aname. revert tx. induction rrs as [|rr rest IH]; intros tx; simpl.
    + exists []. symmetry. apply updRes_appendExtra_nil.
    + destruct ((Rrtype (Hdr rr) =? TypeA) || (Rrtype (Hdr rr) =? TypeAAAA)).
      * destruct (IH (updRes (appendExtra [Own rr]) tx)) as [l ->].
        exists ([Own rr] ++ l)%list. apply updRes_appendExtra_app.
      * apply IH.
Qed.

(** [addAdditional] returns, without an error, and only appends to the
    Additional section. *)
Lemma addAdditional_extra (tx : Tx) :
  ∃ l, addAdditional tx = Done (updRes (appendExtra l) tx, None).
Proof.
  unfold addAdditional.
  assert (H : ∀ names t, ∃ l,
             fold_left (fun (t : Tx) (aname : string) => fst (addAdditionalItem aname t))
                       names t = updRes (appendExtra l) t).
  { induction names as [|a rest IH]; intros t; simpl.
    - exists []. symmetry. apply updRes_appendExtra_nil.
    - destruct (addAdditionalItem_extra a t) as [l1 ->].
      destruct (IH (updRes (appendExtra l1) t)) as [l2 ->].
      exists (l1 ++ l2)%list. apply updRes_appendExtra_app. }
  destruct (H (elements (additionalQueue tx)) tx) as [l ->]. exists l. reflexivity.
Qed.

(** ** The steps after the branch *)

Lemma soa_addApexDNSKEY (tx : Tx) : soa (addApexDNSKEY tx) = soa tx.
Proof.
  unfold addApexDNSKEY. destruct (soa tx) eqn:E; [|exact E].
  destruct (bool_decide (TypeSOA ∈ typesAtQname tx)); [|exact E].
  destruct (istype tx TypeDNSKEY); simpl; exact E.
Qed.

Lemma soa_addConsolationSOA (tx : Tx) : soa (addConsolationSOA tx) = soa tx.
Proof.
  unfold addConsolationSOA. destruct (soa tx) eqn:E; [|exact E].
  destruct (consolationSOA tx); simpl; exact E.
Qed.

Lemma addConsolationSOA_frame (tx : Tx) :
  Answer (res (addConsolationSOA tx)) = Answer (res tx) ∧
  typesAtQname (addConsolationSOA tx) = typesAtQname tx ∧
  s (addConsolationSOA tx) = s tx ∧
  (consolationSOA tx = false → addConsolationSOA tx = tx).
Proof.
  unfold addConsolationSOA. destruct (soa tx); [|auto].
  destruct (consolationSOA tx); simpl; auto. repeat split; discriminate.
Qed.

Section Apex.

Variable absname : string -> string.
Variable HashName : string -> N -> N -> string -> string.
Variable stepName : string -> string.
Variable useDNSSEC : Tx -> bool.
Variable signResponse : Tx -> run (Tx * option error).

(** The tail of [addAnswers] only passes on what [signResponse] returns. *)
Lemma sign_tail (tx : Tx) :
  ('(tx5, err) ← signResponse tx;
   match err with
   | Some e => Done (tx5, Some e)
   | None => Done (tx5, None)
   end) = signResponse tx.
Proof. destruct (signResponse tx) as [[t [e|]]| |]; reflexivity. Qed.

(** [addAnswers] after a branch that returned no error. *)
Lemma addAnswers_after_branch (tx tx1 : Tx) (apex : RR) :
  addAnswersMain absname tx = Done (tx1, None) →
  soa tx1 = Some apex →
  ∃ tx3 l,
    addNSEC absname HashName stepName useDNSSEC (addConsolationSOA (addApexDNSKEY tx1))
      = Done (tx3, None) ∧
    addAnswers absname HashName stepName useDNSSEC signResponse tx
      = signResponse (updRes (appendExtra l) tx3).
Proof.
  intros Hmain Hsoa.
  assert (Hsoa2 : soa (addConsolationSOA (addApexDNSKEY tx1)) = Some apex).
  { rewrite soa_addConsolationSOA, soa_addApexDNSKEY. exact Hsoa. }
  assert (∃ tx3, addNSEC absname HashName stepName useDNSSEC
                    (addConsolationSOA (addApexDNSKEY tx1)) = Done (tx3, None))
    as [tx3 HN] by (eexists; apply (addNSEC_cases _ _ _ _ _ apex Hsoa2)).
  destruct (addAdditional_extra tx3) as [l Hl].
  exists tx3, l. split; [exact HN|].
  unfold addAnswers. rewrite Hmain. unfold mbind at 1, run_bind at 1. cbv beta iota.
  rewrite HN. unfold mbind at 1, run_bind at 1. cbv beta iota.
  rewrite Hl. unfold mbind at 1, run_bind at 1. cbv beta iota.
  apply sign_tail.
Qed.

(** [addNSEC] keeps the Answer section, the types and the server, and
    does nothing when there is an answer. *)
Lemma addNSEC_frame (tx tx' : Tx) (e : option error) (apex : RR) :
  soa tx = Some apex →
  addNSEC absname HashName stepName useDNSSEC tx = Done (tx', e) →
  Answer (res tx') = Answer (res tx) ∧
  typesAtQname tx' = typesAtQname tx ∧
  s tx' = s tx ∧
  (Answer (res tx) ≠ [] → tx' = tx).
Proof.
  intros Hsoa H. rewrite (addNSEC_cases _ _ _ _ _ apex Hsoa) in H.
  injection H as <- _.
  destruct (useDNSSEC tx && negb (suppressNSEC tx)); [|auto].
  destruct (Answer (res tx)) eqn:EA; simpl; rewrite ?EA; auto.
  repeat split; try reflexivity. congruence.
Qed.

End Apex.

(** ** The zone walk *)

Lemma blookup_server (tx tx' : Tx) (n : string) :
  s tx = s tx' → blookup tx n = blookup tx' n.
Proof. unfold blookup. intros ->. reflexivity. Qed.

Section Walk.

Variable absname : string -> string.

Lemma onNS_fields (n norig : string) (rrs : list RR) (st : WalkSt) :
  s (w_tx (onNS absname n norig rrs st)) = s (w_tx st) ∧
  res (w_tx (onNS absname n norig rrs st)) = res (w_tx st) ∧
  w_soa (onNS absname n norig rrs st) = w_soa st ∧
  w_firstSOAAtLen (onNS absname n norig rrs st) = w_firstSOAAtLen st ∧
  w_visited (onNS absname n norig rrs st) = w_visited st ∧
  w_origq (onNS absname n norig rrs st) = w_origq st ∧
  w_origerr (onNS absname n norig rrs st) = w_origerr st ∧
  w_nss (onNS absname n norig rrs st) = rrs ∧
  w_firstNSAtLen (onNS absname n norig rrs st)
    = (if (w_firstNSAtLen st <? 0)%Z then len n else w_firstNSAtLen st).
Proof.
  unfold onNS. destruct (w_firstNSAtLen st <? 0)%Z; simpl.
  - destruct (String.eqb n norig); simpl; repeat split.
  - repeat split.
Qed.

(** One pass over the records of a name, entered before any SOA was
    found: the pass stops at the first record typed SOA, and the first
    record typed NS before it fixes [firstNSAtLen] if it was unset. *)
Lemma scan_spec (n norig : string) (rrs : list RR) :
  (0 < len n)%Z →
  ∀ (todo : list RR) (st st' : WalkSt) (brk : bool),
    w_soa st = None → w_firstSOAAtLen st = (-1)%Z →
    scan absname n norig rrs todo st = Done (st', brk) →
    s (w_tx st') = s (w_tx st) ∧ res (w_tx st') = res (w_tx st) ∧
    w_visited st' = w_visited st ∧
    w_origq st' = w_origq st ∧ w_origerr st' = w_origerr st ∧
    brk = existsb (isType TypeSOA) todo ∧
    (brk = false →
     w_soa st' = None ∧ w_firstSOAAtLen st' = (-1)%Z ∧
     w_firstNSAtLen st'
       = (if existsb (isType TypeNS) todo && (w_firstNSAtLen st <? 0)%Z
          then len n else w_firstNSAtLen st)) ∧
    (brk = true →
     (∃ apex, w_soa st' = Some apex) ∧ w_firstSOAAtLen st' = len n ∧
     (w_firstNSAtLen st' = w_firstNSAtLen st ∨
      ((w_firstNSAtLen st < 0)%Z ∧ w_firstNSAtLen st' = len n ∧
       existsb (isType TypeNS) todo = true))).
Proof.
  intros Hn todo. induction todo as [|rr rest IH]; intros st st' brk Hsoa Hfs H; simpl in H.
  - injection H as <- <-. simpl. split_and!; try reflexivity; try discriminate.
    intros _. split_and!; simpl; auto.
  - unfold isType; simpl. fold (isType TypeSOA). fold (isType TypeNS).
    destruct (Rrtype (Hdr rr) =? TypeSOA) eqn:ESOA.
    + unfold onSOA in H. rewrite Hsoa in H.
      destruct (as_SOA rr) as [x|]; [|discriminate]. simpl in H. rewrite Hfs in H.
      simpl in H.
      injection H as <- <-. simpl.
      split_and!; try reflexivity; try discriminate. intros _. split_and!; eauto.
    + destruct (Rrtype (Hdr rr) =? TypeNS) eqn:ENS.
      * destruct (onNS_fields n norig rrs st)
          as (F1 & F2 & F3 & F4 & F5 & F6 & F7 & _ & F9).
        rewrite Hsoa in F3. rewrite Hfs in F4.
        destruct (IH _ _ _ F3 F4 H) as (I1 & I2 & I3 & I4 & I5 & I6 & I7 & I8).
        rewrite I1, I2, I3, I4, I5, F1, F2, F5, F6, F7. simpl.
        split_and!; try reflexivity; try assumption.
        -- intros Hb. destruct (I7 Hb) as (J1 & J2 & J3). split_and!; try assumption.
           rewrite J3, F9.
           destruct (existsb (isType TypeNS) rest); simpl;
             repeat match goal with
                    | |- context [(?a <? ?c)%Z] => destruct (Z.ltb_spec a c); simpl
                    end; try reflexivity; lia.
        -- intros Hb. destruct (I8 Hb) as (J1 & J2 & J3). split_and!; try assumption.
           rewrite F9 in J3.
           destruct (Z.ltb_spec (w_firstNSAtLen st) 0); [|tauto].
           right. split_and!; [assumption | | reflexivity].
           destruct J3 as [J3 | (_ & J3 & _)]; exact J3.
      * simpl. apply IH; assumption.
Qed.

Lemma walkInv_exit (tx0 : Tx) (norig n : string) (st : WalkSt) :
  walkInv tx0 norig n st → walkPost tx0 norig st.
Proof.
  intros (Is & Ir & Isoa & Ifs & Ivis & Ins & Ie & Ine).
  split_and!; try assumption.
  - intros H. apply Ine in H. tauto.
  - left. split; [assumption|]. eapply Forall_impl; [exact Ivis|]. simpl. tauto.
Qed.

Lemma walkInv_len (tx0 : Tx) (norig n : string) (st : WalkSt) :
  walkInv tx0 norig n st → (len n <= len norig)%Z.
Proof.
  intros (_ & _ & _ & _ & _ & _ & Ie & Ine).
  destruct (w_visited st) as [|v vs].
  - rewrite (Ie eq_refl). lia.
  - assert (H : v :: vs ≠ []) by discriminate. apply Ine in H. lia.
Qed.

(** A turn that found no SOA record re-establishes the invariant for a
    shorter name. *)
Lemma walkInv_next (tx0 : Tx) (norig n n' : string) (st st2 : WalkSt) :
  walkInv tx0 norig n st →
  s (w_tx st2) = s tx0 → res (w_tx st2) = res tx0 →
  w_soa st2 = None → w_firstSOAAtLen st2 = (-1)%Z →
  w_visited st2 = (w_visited st ++ [n])%list →
  w_origq st2 = (blookup tx0 norig).1 → w_origerr st2 = (blookup tx0 norig).2 →
  bearsType tx0 TypeSOA n = false →
  w_firstNSAtLen st2
    = (if bearsType tx0 TypeNS n && (w_firstNSAtLen st <? 0)%Z
       then len n else w_firstNSAtLen st) →
  (len n' < len n)%Z →
  walkInv tx0 norig n' st2.
Proof.
  intros Inv Hs Hr Hsoa Hfs Hvis Hq He Hbs Hns Hlt.
  pose proof (walkInv_len _ _ _ _ Inv) as Hle.
  destruct Inv as (Is & Ir & Isoa & Ifs & Ivis & Ins & Ie & Ine).
  split_and!; try assumption.
  - rewrite Hvis. apply Forall_app. split.
    + eapply Forall_impl; [exact Ivis|]. simpl. intros v [? ?]. split; [assumption|lia].
    + constructor; [|constructor]. split; [assumption|lia].
  - rewrite Hvis, Hns. destruct Ins as [[E F] | [L X]].
    + rewrite E. simpl. destruct (bearsType tx0 TypeNS n) eqn:EN; simpl.
      * right. split; [lia|]. apply Exists_app. right. constructor. exact EN.
      * left. split; [reflexivity|]. apply Forall_app. split; [exact F|].
        constructor; [exact EN | constructor].
    + right. pose proof (len_nonneg n).
      destruct (Z.ltb_spec (w_firstNSAtLen st) 0); [lia|]. rewrite andb_false_r.
      split; [lia|]. apply Exists_app. left. exact X.
  - rewrite Hvis. intros H. destruct (w_visited st); discriminate.
  - intros _. split_and!; [lia | assumption | assumption].
Qed.

(** A turn that found an SOA record leaves the loop. *)
Lemma walkInv_break (tx0 : Tx) (norig n : string) (st st2 : WalkSt) (apex : RR) :
  walkInv tx0 norig n st → (0 < len n)%Z →
  s (w_tx st2) = s tx0 → res (w_tx st2) = res tx0 →
  w_soa st2 = Some apex → w_firstSOAAtLen st2 = len n →
  w_visited st2 = (w_visited st ++ [n])%list →
  w_origq st2 = (blookup tx0 norig).1 → w_origerr st2 = (blookup tx0 norig).2 →
  bearsType tx0 TypeSOA n = true →
  (w_firstNSAtLen st2 = w_firstNSAtLen st ∨
   ((w_firstNSAtLen st < 0)%Z ∧ w_firstNSAtLen st2 = len n ∧
    bearsType tx0 TypeNS n = true)) →
  walkPost tx0 norig st2.
Proof.
  intros Inv Hpos Hs Hr Hsoa Hfs Hvis Hq He Hbs Hns.
  destruct Inv as (Is & Ir & Isoa & Ifs & Ivis & Ins & Ie & Ine).
  split_and!; try assumption; [tauto|].
  right. exists apex, (w_visited st), n. split_and!; try assumption.
  destruct Ins as [[E F] | [L X]].
  - left. split; [exact F|]. destruct Hns as [-> | (_ & -> & ?)]; auto.
  - right. split; [exact X|]. destruct Hns as [-> | [? _]]; lia.
Qed.

Lemma keepOriginal_fields (n norig : string) (rrs : list RR) (err : option error)
      (st : WalkSt) :
  w_tx (keepOriginal n norig rrs err (noteLookup n st)) = w_tx st ∧
  w_soa (keepOriginal n norig rrs err (noteLookup n st)) = w_soa st ∧
  w_firstSOAAtLen (keepOriginal n norig rrs err (noteLookup n st)) = w_firstSOAAtLen st ∧
  w_firstNSAtLen (keepOriginal n norig rrs err (noteLookup n st)) = w_firstNSAtLen st ∧
  w_visited (keepOriginal n norig rrs err (noteLookup n st)) = (w_visited st ++ [n])%list ∧
  w_origq (keepOriginal n norig rrs err (noteLookup n st))
    = (if (len n =? len norig)%Z then rrs else w_origq st) ∧
  w_origerr (keepOriginal n norig rrs err (noteLookup n st))
    = (if (len n =? len norig)%Z then err else w_origerr st).
Proof. unfold keepOriginal. destruct (len n =? len norig)%Z; simpl; split_and!; reflexivity. Qed.

Lemma keepFirstErr_fields (e : error) (st : WalkSt) :
  w_tx (keepFirstErr e st) = w_tx st ∧
  w_soa (keepFirstErr e st) = w_soa st ∧
  w_firstSOAAtLen (keepFirstErr e st) = w_firstSOAAtLen st ∧
  w_firstNSAtLen (keepFirstErr e st) = w_firstNSAtLen st ∧
  w_visited (keepFirstErr e st) = w_visited st ∧
  w_origq (keepFirstErr e st) = w_origq st ∧
  w_origerr (keepFirstErr e st) = w_origerr st.
Proof. unfold keepFirstErr. destruct (w_firsterr st); simpl; split_and!; reflexivity. Qed.

(** The loop [A] keeps its invariant; what it returns satisfies
    [walkPost]. *)
Lemma walkLoop_post (tx0 : Tx) (norig : string) :
  ∀ (fuel : nat) (n : string) (st w : WalkSt),
    walkInv tx0 norig n st →
    walkLoop absname fuel norig n st = Done w →
    walkPost tx0 norig w.
Proof.
  induction fuel as [|fuel IH]; intros n st w Inv H; simpl in H.
  - destruct (0 <? len n)%Z; [discriminate|]. injection H as <-.
    eapply walkInv_exit; eauto.
  - destruct (Z.ltb_spec 0 (len n)) as [Hpos|Hnp];
      [|injection H as <-; eapply walkInv_exit; eauto].
    assert (Is : s (w_tx st) = s tx0) by apply Inv.
    rewrite (blookup_server (w_tx st) tx0 n Is) in H.
    destruct (blookup tx0 n) as [rrs err] eqn:EB.
    destruct (keepOriginal_fields n norig rrs err st) as (K1 & K2 & K3 & K4 & K5 & K6 & K7).
    remember (keepOriginal n norig rrs err (noteLookup n st)) as st1 eqn:Est1.
    assert (Horig : w_origq st1 = (blookup tx0 norig).1 ∧ w_origerr st1 = (blookup tx0 norig).2).
    { rewrite K6, K7. destruct Inv as (_ & _ & _ & _ & _ & _ & Ie & Ine).
      destruct (w_visited st) as [|v vs].
      - rewrite <- (Ie eq_refl), Z.eqb_refl, EB. split; reflexivity.
      - assert (Hne : v :: vs ≠ []) by discriminate. apply Ine in Hne as (Hl & Hq & He).
        destruct (Z.eqb_spec (len n) (len norig)); [lia|]. split; assumption. }
    destruct Horig as [Hq He].
    assert (Ir : res (w_tx st) = res tx0) by apply Inv.
    assert (Isoa : w_soa st = None) by apply Inv.
    assert (Ifs : w_firstSOAAtLen st = (-1)%Z) by apply Inv.
    destruct err as [e|].
    + destruct (keepFirstErr_fields e st1) as (E1 & E2 & E3 & E4 & E5 & E6 & E7).
      assert (Inv' : ∀ n', (len n' < len n)%Z → walkInv tx0 norig n' (keepFirstErr e st1)).
      { intros n' Hlt. eapply walkInv_next with (st := st) (n := n); eauto; try congruence.
        - unfold bearsType. rewrite EB. reflexivity.
        - unfold bearsType. rewrite EB. simpl. congruence. }
      simpl in H. destruct (Z.ltb_spec (IndexDot n) 0).
      * injection H as <-. apply (walkInv_exit tx0 norig ""). apply Inv'. exact Hpos.
      * apply (IH _ _ _ (Inv' _ (len_next n ltac:(lia))) H).
    + destruct (scan absname n norig rrs rrs st1) as [[st2 brk]| |] eqn:ES;
        simpl in H; try discriminate.
      destruct (scan_spec n norig rrs Hpos rrs st1 st2 brk ltac:(congruence)
                  ltac:(congruence) ES) as (S1 & S2 & S3 & S4 & S5 & S6 & S7 & S8).
      assert (BS : bearsType tx0 TypeSOA n = brk)
        by (unfold bearsType; rewrite EB; symmetry; exact S6).
      destruct brk.
      * injection H as <-. destruct (S8 eq_refl) as ([apex Hap] & Hf & Hns).
        rewrite K4 in Hns.
        assert (Hns' : w_firstNSAtLen st2 = w_firstNSAtLen st ∨
                       ((w_firstNSAtLen st < 0)%Z ∧ w_firstNSAtLen st2 = len n ∧
                        bearsType tx0 TypeNS n = true)).
        { unfold bearsType. rewrite EB. exact Hns. }
        eapply walkInv_break with (st := st) (n := n); eauto; congruence.
      * destruct (S7 eq_refl) as (Hs0 & Hf & Hns).
        assert (Inv' : ∀ n', (len n' < len n)%Z → walkInv tx0 norig n' st2).
        { intros n' Hlt. eapply walkInv_next with (st := st) (n := n); eauto; try congruence.
          rewrite Hns, K4. unfold bearsType. rewrite EB. reflexivity. }
        destruct (Z.ltb_spec (IndexDot n) 0).
        -- injection H as <-. apply (walkInv_exit tx0 norig ""). apply Inv'. exact Hpos.
        -- apply (IH _ _ _ (Inv' _ (len_next n ltac:(lia))) H).
Qed.

Lemma walkInit_inv (tx : Tx) :
  walkInv tx (TrimRightDot (qname tx)) (TrimRightDot (qname tx)) (walkInit tx).
Proof.
  unfold walkInv, walkInit; simpl. split_and!; try reflexivity.
  - constructor.
  - left. split; [reflexivity | constructor].
  - intros H. exfalso. apply H. reflexivity.
Qed.

(** What the walk returns satisfies [walkPost]. *)
Lemma walk_post (tx : Tx) (w : WalkSt) :
  walk absname tx = Done w → walkPost tx (TrimRightDot (qname tx)) w.
Proof. unfold walk. apply walkLoop_post, walkInit_inv. Qed.

(** The fuel of [walk] is never used up. *)
Lemma walkLoop_fuel (norig : string) :
  ∀ (fuel : nat) (n : string) (st : WalkSt),
    (String.length n < fuel)%nat → walkLoop absname fuel norig n st ≠ NoFuel.
Proof.
  induction fuel as [|fuel IH]; intros n st Hf; [lia|]. simpl.
  destruct (0 <? len n)%Z; [|discriminate].
  destruct (blookup (w_tx st) n) as [rrs err].
  assert (Hnext : (0 <= IndexDot n)%Z →
                  (String.length (sliceFrom (Z.to_nat (IndexDot n + 1)) n) < fuel)%nat).
  { intros Hi. pose proof (len_next n Hi). unfold len in *. lia. }
  destruct err as [e|].
  - simpl. destruct (Z.ltb_spec (IndexDot n) 0); [discriminate|]. apply IH, Hnext. lia.
  - destruct (scan absname n norig rrs rrs (keepOriginal n norig rrs None (noteLookup n st)))
      as [[st2 brk]| |] eqn:E; simpl.
    + destruct brk; [discriminate|].
      destruct (Z.ltb_spec (IndexDot n) 0); [discriminate|]. apply IH, Hnext. lia.
    + discriminate.
    + exfalso. clear -E. revert E.
      generalize (keepOriginal n norig rrs None (noteLookup n st)).
      generalize rrs at 2. intros todo. induction todo as [|rr rest IHt]; intros st1; simpl.
      * discriminate.
      * destruct (Rrtype (Hdr rr) =? TypeSOA).
        -- unfold onSOA. destruct (w_soa st1); simpl; [discriminate|].
           destruct (as_SOA rr); simpl; discriminate.
        -- destruct (Rrtype (Hdr rr) =? TypeNS); apply IHt.
Qed.

Lemma walk_fuel (tx : Tx) : walk absname tx ≠ NoFuel.
Proof. unfold walk. apply walkLoop_fuel. lia. Qed.

Lemma scan_done (n norig : string) (rrs : list RR) :
  ∀ (todo : list RR) (st : WalkSt),
    forallb soaTyped todo = true →
    ∃ st' brk, scan absname n norig rrs todo st = Done (st', brk) ∧
               s (w_tx st') = s (w_tx st).
Proof.
  induction todo as [|rr rest IH]; intros st Hwt; simpl in *.
  - eauto.
  - apply andb_true_iff in Hwt as [Hrr Hrest].
    unfold soaTyped, isType in Hrr.
    destruct (Rrtype (Hdr rr) =? TypeSOA).
    + unfold onSOA, as_SOA.
      destruct (w_soa st), (Rdata rr); try discriminate; simpl;
        (eexists _, true; split; [reflexivity|];
         match goal with |- context [if ?c then _ else _] => destruct c end; reflexivity).
    + destruct (Rrtype (Hdr rr) =? TypeNS).
      * destruct (IH (onNS absname n norig rrs st) Hrest) as (st' & brk & -> & Hs).
        exists st', brk. split; [reflexivity|].
        rewrite Hs. apply onNS_fields.
      * apply IH, Hrest.
Qed.

(** The walk returns when the backend types its SOA records properly. *)
Lemma walkLoop_done (norig : string) :
  ∀ (fuel : nat) (n : string) (st : WalkSt),
    (String.length n < fuel)%nat →
    (∀ name, forallb soaTyped (b (s (w_tx st)) name).1 = true) →
    ∃ w, walkLoop absname fuel norig n st = Done w.
Proof.
  induction fuel as [|fuel IH]; intros n st Hf Hwt; [lia|]. simpl.
  destruct (0 <? len n)%Z; [|eauto].
  assert (Hnext : (0 <= IndexDot n)%Z →
                  (String.length (sliceFrom (Z.to_nat (IndexDot n + 1)) n) < fuel)%nat).
  { intros Hi. pose proof (len_next n Hi). unfold len in *. lia. }
  assert (Hrrs : forallb soaTyped (blookup (w_tx st) n).1 = true).
  { specialize (Hwt n). unfold blookup. destruct (b (s (w_tx st)) n) as [rrs [e|]]; simpl in *;
      [exact Hwt|]. destruct (length rrs =? 0)%nat; exact Hwt. }
  destruct (blookup (w_tx st) n) as [rrs err]. simpl in Hrrs.
  destruct (keepOriginal_fields n norig rrs err st) as (K1 & _).
  destruct err as [e|].
  - simpl. destruct (Z.ltb_spec (IndexDot n) 0); [eauto|].
    apply IH; [apply Hnext; lia|].
    destruct (keepFirstErr_fields e (keepOriginal n norig rrs (Some e) (noteLookup n st)))
      as (E1 & _).
    rewrite E1, K1. exact Hwt.
  - destruct (scan_done n norig rrs rrs (keepOriginal n norig rrs None (noteLookup n st)) Hrrs)
      as (st' & brk & -> & Hs).
    simpl. destruct brk; [eauto|].
    destruct (Z.ltb_spec (IndexDot n) 0); [eauto|].
    apply IH; [apply Hnext; lia|]. rewrite Hs, K1. exact Hwt.
Qed.

Lemma walk_done (tx : Tx) :
  (∀ name, forallb soaTyped (b (s tx) name).1 = true) →
  ∃ w, walk absname tx = Done w.
Proof. intros H. unfold walk. apply walkLoop_done; [lia | exact H]. Qed.

(** C1: for a query whose zone walk completes. No SOA is recorded exactly
    when no visited name bears one, and then the resolver returns
    [ErrNotInZone]. Otherwise the walk ended at the first name [m] bearing
    an SOA record, [origq] and [origerr] are what the lookup of the
    original name gave, and the resolver takes the authoritative branch on
    them when [firstSOAAtLen >= firstNSAtLen] and the delegation branch on
    [nss] when [firstSOAAtLen < firstNSAtLen]. [firstNSAtLen] is -1 when
    no visited name bears an NS record; NS records at [m] itself, and only
    there, keep the authoritative branch; an NS record at a name visited
    before [m], which is strictly longer, selects the delegation branch. *)
Theorem zone_walk_classification (tx : Tx) (w : WalkSt) :
  walk absname tx = Done w →
  (w_soa w = None ↔ Forall (fun n => bearsType tx TypeSOA n = false) (w_visited w)) ∧
  (w_soa w = None → addAnswersMain absname tx = Done (w_tx w, Some ErrNotInZone)) ∧
  (∀ apex, w_soa w = Some apex →
     w_origq w = (blookup tx (TrimRightDot (qname tx))).1 ∧
     w_origerr w = (blookup tx (TrimRightDot (qname tx))).2 ∧
     ((w_firstSOAAtLen w >= w_firstNSAtLen w)%Z →
      addAnswersMain absname tx
      = addAnswersAuthoritative (w_origq w) (w_origerr w) (setSoa (Some apex) (w_tx w))) ∧
     ((w_firstSOAAtLen w < w_firstNSAtLen w)%Z →
      addAnswersMain absname tx
      = addAnswersDelegation (w_nss w) (setSoa (Some apex) (w_tx w))) ∧
     ∃ pre m,
       w_visited w = (pre ++ [m])%list ∧
       bearsType tx TypeSOA m = true ∧
       Forall (fun n => bearsType tx TypeSOA n = false ∧ (len m < len n)%Z) pre ∧
       w_firstSOAAtLen w = len m ∧
       (Forall (fun n => bearsType tx TypeNS n = false) (pre ++ [m]) →
        w_firstNSAtLen w = (-1)%Z) ∧
       (Forall (fun n => bearsType tx TypeNS n = false) pre →
        (w_firstSOAAtLen w >= w_firstNSAtLen w)%Z) ∧
       (Exists (fun n => bearsType tx TypeNS n = true) pre →
        (w_firstSOAAtLen w < w_firstNSAtLen w)%Z)).
Proof.
  intros Hw. pose proof (walk_post tx w Hw) as (Ps & Pr & Porig & Pcase).
  assert (Hmain : addAnswersMain absname tx
                  = match w_soa w with
                    | None => Done (w_tx w, Some ErrNotInZone)
                    | Some apex =>
                        if (w_firstNSAtLen w <=? w_firstSOAAtLen w)%Z
                        then addAnswersAuthoritative (w_origq w) (w_origerr w)
                               (setSoa (Some apex) (w_tx w))
                        else addAnswersDelegation (w_nss w) (setSoa (Some apex) (w_tx w))
                    end).
  { unfold addAnswersMain. rewrite Hw. reflexivity. }
  split_and!.
  - destruct Pcase as [[Hn Hall] | (apex & pre & m & Hs & Hv & Hb & _)].
    + tauto.
    + split; [congruence|]. intros Hall. exfalso. rewrite Hv in Hall.
      apply Forall_app in Hall as [_ Hm]. inversion Hm; congruence.
  - intros Hn. rewrite Hmain, Hn. reflexivity.
  - intros apex Hap.
    destruct Pcase as [[Hn _] | (apex' & pre & m & Hs & Hv & Hb & Hpre & Hf & Hpos & Hns)];
      [congruence|].
    assert (Hne : w_visited w ≠ []) by (rewrite Hv; destruct pre; discriminate).
    destruct (Porig Hne) as [Hq He].
    split_and!; try assumption.
    + intros Hge. rewrite Hmain, Hap.
      destruct (Z.leb_spec (w_firstNSAtLen w) (w_firstSOAAtLen w)); [reflexivity|lia].
    + intros Hlt. rewrite Hmain, Hap.
      destruct (Z.leb_spec (w_firstNSAtLen w) (w_firstSOAAtLen w)); [lia|reflexivity].
    + exists pre, m. split_and!; try assumption.
      * intros Hall. apply Forall_app in Hall as [Hp Hm].
        destruct Hns as [[_ [E | [_ E]]] | [X _]]; [exact E | |].
        -- inversion Hm; congruence.
        -- exfalso. apply Exists_exists in X as (v & Hin & Hv1).
           rewrite Forall_forall in Hp. specialize (Hp v Hin). congruence.
      * intros Hp. destruct Hns as [[_ [E | [E _]]] | [X _]]; [lia | lia |].
        exfalso. apply Exists_exists in X as (v & Hin & Hv1).
        rewrite Forall_forall in Hp. specialize (Hp v Hin). congruence.
      * intros X. destruct Hns as [[Hp _] | [_ L]]; [|lia].
        exfalso. apply Exists_exists in X as (v & Hin & Hv1).
        rewrite Forall_forall in Hp. specialize (Hp v Hin). congruence.
Qed.

End Walk.

Lemma zone_walk_classification_witness :
  ∃ w, walk Zone.absname (Zone.txFor Zone.server "host.example." TypeA) = Done w ∧
       addAnswersMain Zone.absname (Zone.txFor Zone.server "host.example." TypeA)
       = addAnswersAuthoritative (w_origq w) (w_origerr w)
           (setSoa (Some Zone.soaRR) (w_tx w)).
Proof.
  destruct (walk Zone.absname (Zone.txFor Zone.server "host.example." TypeA))
    as [w| |] eqn:E; [|vm_compute in E; discriminate E..].
  exists w. split; [reflexivity|].
  destruct (zone_walk_classification Zone.absname _ w E) as (_ & _ & H).
  vm_compute in E. injection E as <-.
  destruct (H Zone.soaRR eq_refl) as (_ & _ & Ha & _).
  apply Ha. simpl. lia.
Defined.

(** C5: below the apex [example] the names [c.example] and [b.c.example]
    both bear NS records. For [a.b.c.example. A] and for [b.c.example. DS]
    the delegation point is fixed at the first, longest name,
    [b.c.example], but the records handed to the delegation branch are
    those of [c.example], visited later; the DS question at the
    delegation point is then answered without the DS record found
    there. *)
Theorem nested_delegation_records (absname : string -> string) :
  (blookup (Zone.txFor Zone.nestedServer "a.b.c.example." TypeA) "b.c.example").1
    = [Zone.bcNS; Zone.bcDS] ∧
  (∃ w, walk absname (Zone.txFor Zone.nestedServer "a.b.c.example." TypeA) = Done w ∧
        w_visited w = ["a.b.c.example"; "b.c.example"; "c.example"; "example"] ∧
        delegationPoint (w_tx w) = absname "b.c.example" ∧
        w_firstNSAtLen w = len "b.c.example" ∧
        w_nss w = [Zone.cNS] ∧
        addAnswersMain absname (Zone.txFor Zone.nestedServer "a.b.c.example." TypeA)
        = addAnswersDelegation [Zone.cNS] (setSoa (Some Zone.soaRR) (w_tx w))) ∧
  (∃ w tx1, walk absname (Zone.txFor Zone.nestedServer "b.c.example." TypeDS) = Done w ∧
            delegationPoint (w_tx w) = absname "b.c.example" ∧
            queryIsAtDelegationPoint (w_tx w) = true ∧
            w_nss w = [Zone.cNS] ∧
            addAnswersMain absname (Zone.txFor Zone.nestedServer "b.c.example." TypeDS)
            = Done (tx1, None) ∧
            Answer (res tx1) = [] ∧ consolationSOA tx1 = true).
Proof.
  split; [reflexivity|]. split.
  - eexists. split; [vm_compute; reflexivity|]. split_and!; reflexivity.
  - eexists. eexists. split; [vm_compute; reflexivity|]. split_and!; reflexivity.
Qed.

(** ** The shared state of the server *)

Lemma setKeyName_same (k : DNSKEY) : setKeyName (Name (KHdr k)) k = k.
Proof. destruct k as [[? ? ? ?] ? ? ? ?]. reflexivity. Qed.

Lemma sameButKeyNames_refl (sv : Server) : sameButKeyNames sv sv.
Proof. unfold sameButKeyNames. rewrite !setKeyName_same. split_and!; reflexivity. Qed.


Lemma addAnswersAuthoritative_server (rrs : list RR) (e e' : option error) (tx tx' : Tx) :
  addAnswersAuthoritative rrs e tx = Done (tx', e') → s tx' = s tx.
Proof.
  assert (Hfold : ∀ l t, s (fold_left addRequested l t) = s t).
  { induction l as [|rr l IH]; intros t; simpl; [reflexivity|].
    rewrite IH. unfold addRequested. destruct (istype t (Rrtype (Hdr rr))); reflexivity. }
  assert (Hall : ∀ (t : Tx) (e0 : option error),
             Done (match Answer (res (fold_left addRequested rrs tx)) with
                   | [] => setConsolationSOA true (fold_left addRequested rrs tx)
                   | _ :: _ => fold_left addRequested rrs tx
                   end, None) = Done (t, e0) → s t = s tx).
  { intros t e0 H. injection H as <- _.
    destruct (Answer (res (fold_left addRequested rrs tx))); simpl; apply Hfold. }
  unfold addAnswersAuthoritative. destruct e as [e|].
  - intros H. injection H as <- _. reflexivity.
  - destruct (rrsetHasType rrs TypeCNAME) as [cn|]; [|apply Hall].
    destruct (negb (istype tx TypeCNAME)); [|apply Hall].
    destruct (as_CNAME cn); [|discriminate].
    unfold addAnswersCNAME. intros H. injection H as <- _. reflexivity.
Qed.

Lemma addReferral_server (nss : list RR) :
  ∀ tx tx' : Tx, addReferral nss tx = Done tx' → s tx' = s tx.
Proof.
  induction nss as [|ns rest IH]; intros tx tx' H; simpl in H.
  - injection H as <-. reflexivity.
  - destruct (Rrtype (Hdr ns) =? TypeNS); simpl in H.
    + destruct (as_NS ns); simpl in H; [|discriminate].
      apply IH in H. rewrite H. destruct (Rrtype (Hdr ns) =? TypeDS); reflexivity.
    + apply IH in H. rewrite H.
      destruct (Rrtype (Hdr ns) =? TypeDS); reflexivity.
Qed.

Lemma addAnswersDelegation_server (nss : list RR) (e' : option error) (tx tx' : Tx) :
  addAnswersDelegation nss tx = Done (tx', e') → s tx' = s tx.
Proof.
  unfold addAnswersDelegation.
  destruct ((qtype tx =? TypeDS) && queryIsAtDelegationPoint tx).
  - rewrite addDSAnswers_spec. simpl. intros H. injection H as <- _.
    destruct (existsb (isType TypeDS) nss); reflexivity.
  - destruct (addReferral nss (updRes (setAuthoritative false) tx)) as [t| |] eqn:E;
      simpl; try discriminate.
    intros H. injection H as <- _. simpl. apply (addReferral_server _ _ _ E).
Qed.

Lemma addAnswersMain_server (absname : string -> string) (e' : option error) (tx tx' : Tx) :
  addAnswersMain absname tx = Done (tx', e') → s tx' = s tx.
Proof.
  unfold addAnswersMain. destruct (walk absname tx) as [w| |] eqn:E; simpl; try discriminate.
  pose proof (walk_post absname tx w E) as (Ps & _).
  destruct (w_soa w) as [apex|].
  - destruct (w_firstNSAtLen w <=? w_firstSOAAtLen w)%Z; intros H.
    + apply addAnswersAuthoritative_server in H. rewrite H. exact Ps.
    + apply addAnswersDelegation_server in H. rewrite H. exact Ps.
  - intros H. injection H as <- _. exact Ps.
Qed.

(** The apex block overwrites the owner names of the two keys, nothing
    else of the server. *)
Lemma addApexDNSKEY_server (tx : Tx) : sameButKeyNames (s tx) (s (addApexDNSKEY tx)).
Proof.
  unfold addApexDNSKEY. destruct (soa tx); [|apply sameButKeyNames_refl].
  destruct (bool_decide (TypeSOA ∈ typesAtQname tx)); [|apply sameButKeyNames_refl].
  destruct (istype tx TypeDNSKEY); simpl; [|apply sameButKeyNames_refl].
  unfold sameButKeyNames; simpl. split_and!; reflexivity.
Qed.

(** Outside a DNSKEY-matching question at the apex the block leaves the
    server as it is. *)
Lemma addApexDNSKEY_server_same (tx : Tx) :
  soa tx = None ∨ TypeSOA ∉ typesAtQname tx ∨ istype tx TypeDNSKEY = false →
  s (addApexDNSKEY tx) = s tx.
Proof.
  intros H. unfold addApexDNSKEY. destruct (soa tx); [|reflexivity].
  destruct (bool_decide_reflect (TypeSOA ∈ typesAtQname tx)) as [Hin|]; [|reflexivity].
  destruct (istype tx TypeDNSKEY); [|reflexivity].
  destruct H as [H | [H | H]]; [discriminate | contradiction | discriminate].
Qed.

Section Shared.

Variable absname : string -> string.
Variable HashName : string -> N -> N -> string -> string.
Variable stepName : string -> string.
Variable useDNSSEC : Tx -> bool.
Variable signResponse : Tx -> run (Tx * option error).
Variable ToLower : string -> string.
Variable IsEdns0 : Msg -> option RR.

(** [signResponse] is declared outside [ncdns.go]; it is taken not to
    write to the server. *)
Hypothesis signResponse_server :
  ∀ (tx tx' : Tx) (e : option error), signResponse tx = Done (tx', e) → s tx' = s tx.

Lemma addNSEC_server (tx tx' : Tx) (e : option error) :
  addNSEC absname HashName stepName useDNSSEC tx = Done (tx', e) → s tx' = s tx.
Proof.
  unfold addNSEC, addNSEC3RR, addNSEC3RRActual.
  destruct (negb (useDNSSEC tx) || suppressNSEC tx).
  - intros H. injection H as <- _. reflexivity.
  - destruct (Answer (res tx)).
    + destruct (soa tx); simpl; [|discriminate]. intros H. injection H as <- _. reflexivity.
    + intros H. injection H as <- _. reflexivity.
Qed.

Lemma addAnswers_server (tx tx' : Tx) (e : option error) :
  addAnswers absname HashName stepName useDNSSEC signResponse tx = Done (tx', e) →
  sameButKeyNames (s tx) (s tx').
Proof.
  unfold addAnswers.
  destruct (addAnswersMain absname tx) as [[tx1 [e1|]]| |] eqn:EM;
    unfold mbind at 1, run_bind at 1; cbv beta iota; try discriminate.
  - intros H. injection H as <- _. rewrite (addAnswersMain_server _ _ _ _ EM).
    apply sameButKeyNames_refl.
  - pose proof (addAnswersMain_server _ _ _ _ EM) as H1.
    destruct (addNSEC absname HashName stepName useDNSSEC
                (addConsolationSOA (addApexDNSKEY tx1))) as [[tx3 e3]| |] eqn:EN;
      unfold mbind at 1, run_bind at 1; cbv beta iota; try discriminate.
    pose proof (addNSEC_server _ _ _ EN) as H3.
    destruct (addConsolationSOA_frame (addApexDNSKEY tx1)) as (_ & _ & H2 & _).
    assert (Hrel : sameButKeyNames (s tx) (s tx3)).
    { rewrite H3, H2, <- H1. apply addApexDNSKEY_server. }
    destruct e3 as [e3|].
    + intros H. injection H as <- _. exact Hrel.
    + destruct (addAdditional_extra tx3) as [l ->].
      unfold mbind at 1, run_bind at 1; cbv beta iota.
      rewrite sign_tail. intros ES.
      apply signResponse_server in ES. rewrite ES. exact Hrel.
Qed.


End Shared.

(** * Further properties *)

(** ** Lookups *)

(** X1: [blookup] never reports success without a record: a successful
    lookup of the backend that yields no record becomes [ErrNoResults], a
    failed lookup is passed on as it is, and a successful [blookup] has at
    least one record, the records of the backend. *)
Theorem blookup_results (tx : Tx) (name : string) :
  (∀ rrs, blookup tx name = (rrs, None) → rrs ≠ [] ∧ b (s tx) name = (rrs, None)) ∧
  (∀ rrs e, b (s tx) name = (rrs, Some e) → blookup tx name = (rrs, Some e)) ∧
  (b (s tx) name = ([], None) → blookup tx name = ([], Some ErrNoResults)) ∧
  (blookup tx name).1 = (b (s tx) name).1.
Proof.
  unfold blookup. destruct (b (s tx) name) as [rrs0 [e0|]]; split_and!.
  - intros rrs H. discriminate H.
  - intros rrs e H. injection H as -> ->. reflexivity.
  - intros H. discriminate H.
  - reflexivity.
  - intros rrs H. destruct rrs0; simpl in H; [discriminate H|].
    injection H as <-. split; [discriminate | reflexivity].
  - intros rrs e H. discriminate H.
  - intros H. injection H as ->. reflexivity.
  - destruct (length rrs0 =? 0)%nat; reflexivity.
Qed.

(** X2: [rrsetHasType] returns the first record of the set whose header
    has the type asked for, and nil exactly when no record has it. *)
Theorem rrsetHasType_first (rrs : list RR) (t : N) :
  (∀ rr, rrsetHasType rrs t = Some rr ↔
         ∃ pre post, rrs = (pre ++ rr :: post)%list ∧ Rrtype (Hdr rr) = t ∧
                     Forall (fun r => Rrtype (Hdr r) ≠ t) pre) ∧
  (rrsetHasType rrs t = None ↔ Forall (fun r => Rrtype (Hdr r) ≠ t) rrs).
Proof.
  induction rrs as [|r rest [IH1 IH2]]; simpl.
  - split.
    + intros rr. split; [discriminate|]. intros (pre & post & H & _).
      destruct pre; discriminate H.
    + split; [constructor | reflexivity].
  - destruct (N.eqb_spec (Rrtype (Hdr r)) t) as [E|NE]; split.
    + intros rr. split.
      * intros H. injection H as <-. exists [], rest. split_and!; [reflexivity | exact E | constructor].
      * intros (pre & post & H & Ht & Hpre). destruct pre as [|p pre]; simpl in H.
        -- injection H as -> _. reflexivity.
        -- injection H as -> _. inversion Hpre; subst. contradiction.
    + split; [discriminate|]. intros H. inversion H; subst. contradiction.
    + intros rr. rewrite IH1. split.
      * intros (pre & post & -> & Ht & Hpre). exists (r :: pre), post.
        split_and!; [reflexivity | exact Ht | constructor; assumption].
      * intros (pre & post & H & Ht & Hpre). destruct pre as [|p pre]; simpl in H.
        -- injection H as -> _. contradiction.
        -- injection H as -> ->. inversion Hpre; subst. exists pre, post. auto.
    + rewrite IH2. split.
      * intros H. constructor; assumption.
      * intros H. inversion H; assumption.
Qed.

(** ** The records answered by the authoritative branch *)

Lemma withTypes_same (tx : Tx) : withTypes (typesAtQname tx) tx = tx.
Proof. destruct tx. reflexivity. Qed.

Lemma fold_addRequested (rrs : list RR) :
  ∀ tx : Tx,
    fold_left addRequested rrs tx
    = withTypes (fold_left (fun (ts : gset N) (rr : RR) => {[ Rrtype (Hdr rr) ]} ∪ ts)
                           rrs (typesAtQname tx))
                (updRes (appendAnswer (map Own (List.filter (requested tx) rrs))) tx).
Proof.
  induction rrs as [|rr rest IH]; intros tx; simpl.
  - rewrite updRes_id. symmetry. apply withTypes_same.
  - rewrite IH. unfold addRequested, requested, istype.
    destruct ((qtype tx =? Rrtype (Hdr rr)) || (qtype tx =? TypeANY)); simpl.
    + unfold withTypes, updRes, appendAnswer; simpl. rewrite <- app_assoc. reflexivity.
    + reflexivity.
Qed.

Lemma elem_of_fold_types (rrs : list RR) :
  ∀ (ts : gset N) (t : N),
    t ∈ fold_left (fun (ts : gset N) (rr : RR) => {[ Rrtype (Hdr rr) ]} ∪ ts) rrs ts
    ↔ t ∈ ts ∨ ∃ rr, rr ∈ rrs ∧ Rrtype (Hdr rr) = t.
Proof.
  induction rrs as [|r rest IH]; intros ts t; simpl.
  - split; [auto|]. intros [H | (rr & Hin & _)]; [exact H|]. inversion Hin.
  - rewrite IH, elem_of_union, elem_of_singleton. split.
    + intros [[-> | H] | (rr & Hin & E)].
      * right. exists r. split; [constructor | reflexivity].
      * left. exact H.
      * right. exists rr. split; [constructor; exact Hin | exact E].
    + intros [H | (rr & Hin & E)]; [tauto|].
      inversion Hin; subst; [left; left; reflexivity | right; eauto].
Qed.

(** X3: without a lookup error, and unless the alias case applies (the
    records hold no CNAME, or the query type matches CNAME), the
    authoritative branch appends to Answer exactly the records whose type
    matches the question, in the order of the record set, records the
    type of every record of the set in [typesAtQname], sets
    [consolationSOA] when Answer is still empty, and changes nothing
    else. *)
Theorem authoritative_answers (rrs : list RR) (tx : Tx) :
  rrsetHasType rrs TypeCNAME = None ∨ istype tx TypeCNAME = true →
  ∃ ts : gset N,
    (∀ t, t ∈ ts ↔ t ∈ typesAtQname tx ∨ ∃ rr, rr ∈ rrs ∧ Rrtype (Hdr rr) = t) ∧
    addAnswersAuthoritative rrs None tx
    = Done (match (Answer (res tx) ++ map Own (List.filter (requested tx) rrs))%list with
            | [] =>
                setConsolationSOA true
                  (withTypes ts (updRes (appendAnswer
                                           (map Own (List.filter (requested tx) rrs))) tx))
            | _ :: _ =>
                withTypes ts (updRes (appendAnswer
                                        (map Own (List.filter (requested tx) rrs))) tx)
            end, None).
Proof.
  intros H.
  exists (fold_left (fun (ts : gset N) (rr : RR) => {[ Rrtype (Hdr rr) ]} ∪ ts)
                    rrs (typesAtQname tx)).
  split; [intros t; apply elem_of_fold_types|].
  assert (E : addAnswersAuthoritative rrs None tx
              = Done (match Answer (res (fold_left addRequested rrs tx)) with
                      | [] => setConsolationSOA true (fold_left addRequested rrs tx)
                      | _ :: _ => fold_left addRequested rrs tx
                      end, None)).
  { unfold addAnswersAuthoritative. destruct H as [-> | H]; [reflexivity|].
    destruct (rrsetHasType rrs TypeCNAME); [|reflexivity]. rewrite H. reflexivity. }
  rewrite E, fold_addRequested. reflexivity.
Qed.

Lemma authoritative_answers_witness :
  ∃ tx', addAnswersAuthoritative [Zone.soaRR; Zone.nsRR] None
           (Zone.txFor Zone.server "example." TypeNS) = Done (tx', None) ∧
         Answer (res tx') = [Own Zone.nsRR] ∧ consolationSOA tx' = false.
Proof.
  destruct (authoritative_answers [Zone.soaRR; Zone.nsRR]
              (Zone.txFor Zone.server "example." TypeNS)) as (ts & _ & E).
  - left. reflexivity.
  - eexists. split; [exact E|]. split; reflexivity.
Defined.

(** ** The names of the walk *)

Lemma namesFrom_fuel :
  ∀ (f1 f2 : nat) (n : string),
    (String.length n <= f1)%nat → (String.length n <= f2)%nat →
    namesFrom f1 n = namesFrom f2 n.
Proof.
  induction f1 as [|f1 IH]; intros f2 n H1 H2.
  - destruct n; [|simpl in H1; lia]. destruct f2; reflexivity.
  - destruct f2 as [|f2].
    + destruct n; [reflexivity | simpl in H2; lia].
    + simpl. destruct (Z.ltb_spec 0 (len n)); [|reflexivity].
      destruct (Z.ltb_spec (IndexDot n) 0); [reflexivity|].
      f_equal. pose proof (len_next n ltac:(lia)) as L. unfold len, nextName in *.
      apply IH; lia.
Qed.

Lemma walkNames_unfold (n : string) :
  (0 < len n)%Z →
  walkNames n = n :: (if (IndexDot n <? 0)%Z then [] else walkNames (nextName n)).
Proof.
  intros Hpos. unfold walkNames. destruct n as [|c n]; [unfold len in Hpos; simpl in Hpos; lia|].
  cbn [String.length namesFrom]. destruct (Z.ltb_spec 0 (len (String c n))); [|lia].
  destruct (Z.ltb_spec (IndexDot (String c n)) 0); [reflexivity|].
  f_equal. pose proof (len_next (String c n) ltac:(lia)) as L.
  fold (nextName (String c n)) in L.
  generalize dependent (nextName (String c n)). intros m L.
  unfold len in L. cbn [String.length] in L.
  apply namesFrom_fuel; lia.
Qed.

Lemma walkNames_empty (n : string) : (len n <= 0)%Z → walkNames n = [].
Proof.
  intros H. destruct n; [reflexivity|]. unfold len in H. simpl in H. lia.
Qed.

(** What precedes the next name is a label without a dot, and a dot. *)
Lemma nextName_split (n : string) :
  (0 <= IndexDot n)%Z →
  ∃ label, n = label ++ "." ++ nextName n ∧ IndexDot label = (-1)%Z ∧
           countDots n = S (countDots (nextName n)).
Proof.
  induction n as [|c n IH]; simpl; [lia|]. unfold nextName. simpl.
  destruct (Ascii.eqb_spec c ".") as [->|NE].
  - intros _. exists "". split_and!; reflexivity.
  - destruct (Z.ltb_spec (IndexDot n) 0) as [|Hge]; [lia|]. intros _.
    destruct (IH Hge) as (label & E & Hl & Hc). exists (String c label).
    assert (Hn : Z.to_nat (IndexDot n + 1 + 1) = S (Z.to_nat (IndexDot n + 1))) by lia.
    rewrite Hn. simpl. unfold nextName in *. split_and!.
    + change (String c n = String c (label ++ "." ++ sliceFrom (Z.to_nat (IndexDot n + 1)) n)).
      f_equal. exact E.
    + destruct (Ascii.eqb_spec c "."); [contradiction|]. rewrite Hl. reflexivity.
    + exact Hc.
Qed.

Lemma walkNames_count :
  ∀ (k : nat) (n : string),
    (String.length n <= k)%nat → (length (walkNames n) <= countDots n + 1)%nat.
Proof.
  induction k as [|k IH]; intros n Hk.
  - destruct n; [simpl; lia | simpl in Hk; lia].
  - destruct (Z.ltb_spec 0 (len n)) as [Hpos|]; [|rewrite walkNames_empty by lia; simpl; lia].
    rewrite (walkNames_unfold n Hpos).
    destruct (Z.ltb_spec (IndexDot n) 0) as [|Hge]; [simpl; lia|].
    destruct (nextName_split n Hge) as (_ & _ & _ & Hc).
    pose proof (len_next n Hge) as L. unfold len, nextName in *.
    specialize (IH (sliceFrom (Z.to_nat (IndexDot n + 1)) n) ltac:(lia)).
    simpl. lia.
Qed.

Lemma append_assoc (a c d : string) : (a ++ c) ++ d = a ++ (c ++ d).
Proof.
  induction a as [|x a IH]; [reflexivity|].
  change (String x ((a ++ c) ++ d) = String x (a ++ (c ++ d))). f_equal. exact IH.
Qed.

Lemma walkNames_suffix :
  ∀ (k : nat) (n : string),
    (String.length n <= k)%nat →
    Forall (fun v => v ≠ "" ∧ (v = n ∨ ∃ p, n = p ++ "." ++ v)) (walkNames n).
Proof.
  induction k as [|k IH]; intros n Hk.
  - destruct n; [constructor | simpl in Hk; lia].
  - destruct (Z.ltb_spec 0 (len n)) as [Hpos|]; [|rewrite walkNames_empty by lia; constructor].
    rewrite (walkNames_unfold n Hpos). constructor.
    + split; [|left; reflexivity]. intros ->. unfold len in Hpos. simpl in Hpos. lia.
    + destruct (Z.ltb_spec (IndexDot n) 0) as [|Hge]; [constructor|].
      destruct (nextName_split n Hge) as (label & E & _ & _).
      pose proof (len_next n Hge) as L. unfold len in L. fold (nextName n) in L.
      specialize (IH (nextName n) ltac:(lia)).
      eapply Forall_impl; [exact IH|]. simpl. intros v [Hv [-> | (p & Hp)]].
      * split; [exact Hv|]. right. exists label. exact E.
      * split; [exact Hv|]. right. exists (label ++ "." ++ p).
        rewrite E at 1. rewrite Hp at 1.
        rewrite append_assoc. reflexivity.
Qed.

(** ** What the walk writes *)

Section Trace.

Variable absname : string -> string.

(** One pass over the records of [n]: when it reaches an NS record, [nss]
    becomes the record set and, if unset, [firstNSAtLen] and the
    delegation point are fixed; otherwise the three are kept. *)
Lemma scan_trace (n norig : string) (rrs : list RR) :
  (0 < len n)%Z →
  ∀ (todo : list RR) (st st' : WalkSt) (brk : bool),
    scan absname n norig rrs todo st = Done (st', brk) →
    w_visited st' = w_visited st ∧
    if nsSeen todo then
      w_nss st' = rrs ∧
      (if (w_firstNSAtLen st <? 0)%Z
       then w_firstNSAtLen st' = len n ∧
            w_tx st' = markDelegation absname norig n (w_tx st)
       else w_firstNSAtLen st' = w_firstNSAtLen st ∧ w_tx st' = w_tx st)
    else
      w_nss st' = w_nss st ∧ w_firstNSAtLen st' = w_firstNSAtLen st ∧
      w_tx st' = w_tx st.
Proof.
  intros Hpos. induction todo as [|rr rest IH]; intros st st' brk H; simpl in H.
  - injection H as <- <-. simpl. auto.
  - simpl. unfold isType.
    destruct (Rrtype (Hdr rr) =? TypeSOA).
    + unfold onSOA in H.
      destruct (w_soa st); simpl in H;
        [|destruct (as_SOA rr); simpl in H; [|discriminate H]];
        injection H as <- <-;
        match goal with |- context [if ?c then _ else _] => destruct c end; simpl; auto.
    + destruct (Rrtype (Hdr rr) =? TypeNS).
      * apply IH in H. destruct H as [Hv H].
        destruct (onNS_fields absname n norig rrs st)
          as (_ & _ & _ & _ & F5 & _ & _ & F8 & F9).
        split; [congruence|].
        assert (Htx : w_tx (onNS absname n norig rrs st)
                      = if (w_firstNSAtLen st <? 0)%Z
                        then markDelegation absname norig n (w_tx st) else w_tx st).
        { unfold onNS, markDelegation. destruct (w_firstNSAtLen st <? 0)%Z; [|reflexivity].
          destruct (String.eqb n norig); reflexivity. }
        assert (Hge : (w_firstNSAtLen (onNS absname n norig rrs st) <? 0)%Z = false).
        { rewrite F9. destruct (Z.ltb_spec (w_firstNSAtLen st) 0); apply Z.ltb_ge; lia. }
        rewrite Hge, F8, F9, Htx in H.
        destruct (nsSeen rest).
        -- destruct H as (H1 & H2 & H3). split; [exact H1|].
           destruct (w_firstNSAtLen st <? 0)%Z; auto.
        -- destruct H as (H1 & H2 & H3). split; [exact H1|].
           destruct (w_firstNSAtLen st <? 0)%Z; auto.
      * apply (IH _ _ _ H).
Qed.

Lemma markDelegation_server (norig m : string) (tx : Tx) :
  s (markDelegation absname norig m tx) = s tx.
Proof. unfold markDelegation. destruct (String.eqb m norig); reflexivity. Qed.

Lemma walkTrace_server (tx0 : Tx) (norig : string) (st : WalkSt) :
  walkTrace absname tx0 norig st → s (w_tx st) = s tx0.
Proof.
  intros [(_ & -> & _) | (pre & m & mid & pre' & l & post' & _ & _ & _ & _ & -> & _)].
  - reflexivity.
  - apply markDelegation_server.
Qed.

(** A turn for [n] that does not reach an NS record. *)
Lemma walkTrace_keep (tx0 : Tx) (norig n : string) (st st2 : WalkSt) :
  walkTrace absname tx0 norig st →
  seesNS tx0 n = false →
  w_visited st2 = (w_visited st ++ [n])%list →
  w_nss st2 = w_nss st → w_firstNSAtLen st2 = w_firstNSAtLen st → w_tx st2 = w_tx st →
  walkTrace absname tx0 norig st2.
Proof.
  intros [(A1 & A2 & A3 & A4) |
          (pre & m & mid & pre' & l & post' & B1 & B2 & B3 & B4 & B5 & B6 & B7 & B8 & B9)]
         Hn Hv Hnss Hf Htx.
  - left. split_and!; try congruence. rewrite Hv. apply Forall_app. split; [exact A4|].
    constructor; [exact Hn | constructor].
  - right. exists pre, m, (mid ++ [n])%list, pre', l, (post' ++ [n])%list.
    split_and!; try congruence.
    + rewrite Hv, B1, <- app_assoc. reflexivity.
    + rewrite Hv, B6, <- app_assoc. reflexivity.
    + apply Forall_app. split; [exact B8|]. constructor; [exact Hn | constructor].
Qed.

(** A turn for [n] that reaches an NS record. *)
Lemma walkTrace_mark (tx0 : Tx) (norig n : string) (st st2 : WalkSt) :
  walkTrace absname tx0 norig st → (0 < len n)%Z →
  seesNS tx0 n = true →
  w_visited st2 = (w_visited st ++ [n])%list →
  w_nss st2 = (blookup tx0 n).1 →
  (if (w_firstNSAtLen st <? 0)%Z
   then w_firstNSAtLen st2 = len n ∧ w_tx st2 = markDelegation absname norig n (w_tx st)
   else w_firstNSAtLen st2 = w_firstNSAtLen st ∧ w_tx st2 = w_tx st) →
  walkTrace absname tx0 norig st2.
Proof.
  intros [(A1 & A2 & A3 & A4) |
          (pre & m & mid & pre' & l & post' & B1 & B2 & B3 & B4 & B5 & B6 & B7 & B8 & B9)]
         Hpos Hn Hv Hnss H.
  - rewrite A1 in H. simpl in H. destruct H as [H1 H2]. rewrite A2 in H2.
    right. exists (w_visited st), n, [], (w_visited st), n, [].
    split_and!; try assumption. constructor.
  - pose proof (len_nonneg m).
    destruct (Z.ltb_spec (w_firstNSAtLen st) 0); [lia|]. destruct H as [G1 G2].
    right. exists pre, m, (mid ++ [n])%list, (w_visited st), n, [].
    split_and!; try congruence.
    + rewrite Hv, B1, <- app_assoc. reflexivity.
    + constructor.
Qed.

(** The loop [A] keeps [walkTrace], and goes through the names of
    [walkNames] in order, all of them unless an SOA record stops it. *)
Lemma walkLoop_trace (tx0 : Tx) (norig : string) :
  ∀ (fuel : nat) (n : string) (st w : WalkSt),
    walkTrace absname tx0 norig st →
    w_soa st = None → w_firstSOAAtLen st = (-1)%Z →
    (w_visited st ++ walkNames n)%list = walkNames norig →
    walkLoop absname fuel norig n st = Done w →
    walkTrace absname tx0 norig w ∧
    w_visited w `prefix_of` walkNames norig ∧
    (w_soa w = None → w_visited w = walkNames norig).
Proof.
  induction fuel as [|fuel IH]; intros n st w Tr Hsoa Hfs Hch H; simpl in H.
  - destruct (Z.ltb_spec 0 (len n)); [discriminate|]. injection H as <-.
    rewrite walkNames_empty, app_nil_r in Hch by lia.
    split_and!; [exact Tr | rewrite Hch; reflexivity | auto].
  - destruct (Z.ltb_spec 0 (len n)) as [Hpos|Hnp].
    2:{ injection H as <-. rewrite walkNames_empty, app_nil_r in Hch by lia.
        split_and!; [exact Tr | rewrite Hch; reflexivity | auto]. }
    rewrite (walkNames_unfold n Hpos) in Hch.
    rewrite (blookup_server (w_tx st) tx0 n (walkTrace_server _ _ _ Tr)) in H.
    destruct (blookup tx0 n) as [rrs err] eqn:EB.
    destruct (keepOriginal_fields n norig rrs err st) as (K1 & K2 & K3 & K4 & K5 & _).
    assert (Knss : w_nss (keepOriginal n norig rrs err (noteLookup n st)) = w_nss st).
    { unfold keepOriginal. destruct (len n =? len norig)%Z; reflexivity. }
    remember (keepOriginal n norig rrs err (noteLookup n st)) as st1 eqn:Est1.
    assert (Hnext : ∀ st2, walkTrace absname tx0 norig st2 →
                           w_soa st2 = None → w_firstSOAAtLen st2 = (-1)%Z →
                           w_visited st2 = (w_visited st ++ [n])%list →
                           (if (IndexDot n <? 0)%Z then Done st2
                            else walkLoop absname fuel norig
                                   (sliceFrom (Z.to_nat (IndexDot n + 1)) n) st2) = Done w →
                           walkTrace absname tx0 norig w ∧
                           w_visited w `prefix_of` walkNames norig ∧
                           (w_soa w = None → w_visited w = walkNames norig)).
    { intros st2 Tr2 Hs2 Hf2 Hv2 Hrun. destruct (Z.ltb_spec (IndexDot n) 0).
      - injection Hrun as <-. rewrite <- Hch, Hv2.
        split_and!; [exact Tr2 | reflexivity | auto].
      - apply (IH _ _ _ Tr2 Hs2 Hf2) in Hrun; [exact Hrun|].
        rewrite Hv2, <- app_assoc. exact Hch. }
    destruct err as [e|].
    + destruct (keepFirstErr_fields e st1) as (E1 & E2 & E3 & E4 & E5 & _).
      assert (Enss : w_nss (keepFirstErr e st1) = w_nss st1).
      { unfold keepFirstErr. destruct (w_firsterr st1); reflexivity. }
      simpl in H. apply (Hnext (keepFirstErr e st1)); try congruence.
      apply (walkTrace_keep tx0 norig n st _ Tr); try congruence.
      unfold seesNS. rewrite EB. reflexivity.
    + destruct (scan absname n norig rrs rrs st1) as [[st2 brk]| |] eqn:ES;
        simpl in H; try discriminate.
      destruct (scan_spec absname n norig rrs Hpos rrs st1 st2 brk ltac:(congruence)
                  ltac:(congruence) ES) as (_ & _ & S3 & _ & _ & _ & S7 & S8).
      destruct (scan_trace n norig rrs Hpos rrs st1 st2 brk ES) as [_ T].
      assert (Tr2 : walkTrace absname tx0 norig st2).
      { destruct (nsSeen rrs) eqn:ENS.
        - destruct T as [T1 T2]. rewrite K4, K1 in T2.
          apply (walkTrace_mark tx0 norig n st _ Tr Hpos).
          + unfold seesNS. rewrite EB. exact ENS.
          + congruence.
          + rewrite EB. exact T1.
          + exact T2.
        - destruct T as (T1 & T2 & T3).
          apply (walkTrace_keep tx0 norig n st _ Tr); try congruence.
          unfold seesNS. rewrite EB. exact ENS. }
      destruct brk.
      * injection H as <-. destruct (S8 eq_refl) as ([apex Hap] & _).
        split_and!; [exact Tr2 | | congruence].
        rewrite S3, K5, <- Hch. apply prefix_app, prefix_cons, prefix_nil.
      * destruct (S7 eq_refl) as (Hs0 & Hf0 & _).
        apply (Hnext st2); try congruence.
Qed.

End Trace.

Lemma TrimRightDot_cons (c : ascii) (n : string) :
  TrimRightDot (String c n)
  = match TrimRightDot n with
    | EmptyString => if Ascii.eqb c "." then EmptyString else String c EmptyString
    | String c' t => String c (String c' t)
    end.
Proof. reflexivity. Qed.

Lemma TrimRightDot_idem (n : string) : TrimRightDot (TrimRightDot n) = TrimRightDot n.
Proof.
  induction n as [|c n IH]; [reflexivity|]. rewrite TrimRightDot_cons.
  destruct (TrimRightDot n) as [|c' t] eqn:E.
  - destruct (Ascii.eqb c ".") eqn:Ec; [reflexivity|].
    rewrite TrimRightDot_cons. simpl. rewrite Ec. reflexivity.
  - rewrite TrimRightDot_cons, IH. reflexivity.
Qed.

(** A non-empty end of a name without a trailing dot has no trailing dot. *)
Lemma TrimRightDot_suffix (p v : string) :
  v ≠ "" → TrimRightDot (p ++ v) = p ++ v → TrimRightDot v = v.
Proof.
  intros Hv. induction p as [|c p IH]; [auto|].
  change (TrimRightDot (String c (p ++ v)) = String c (p ++ v) → TrimRightDot v = v).
  rewrite TrimRightDot_cons. destruct (TrimRightDot (p ++ v)) as [|c' t] eqn:E.
  - destruct (Ascii.eqb c "."); [discriminate|]. intros H. injection H as H.
    destruct p as [|a p'].
    + change ("" = v) in H. congruence.
    + change ("" = String a (p' ++ v)) in H. discriminate H.
  - intros H. injection H as H. apply IH. exact H.
Qed.

Section WalkFacts.

Variable absname : string -> string.

Lemma walk_trace (tx : Tx) (w : WalkSt) :
  walk absname tx = Done w →
  walkTrace absname tx (TrimRightDot (qname tx)) w ∧
  w_visited w `prefix_of` walkNames (TrimRightDot (qname tx)) ∧
  (w_soa w = None → w_visited w = walkNames (TrimRightDot (qname tx))).
Proof.
  unfold walk. intros H.
  apply (walkLoop_trace absname tx (TrimRightDot (qname tx))
           (S (String.length (TrimRightDot (qname tx)))) (TrimRightDot (qname tx))
           (walkInit tx) w); try reflexivity; [|exact H].
  left. split_and!; try reflexivity. constructor.
Qed.

(** X4: the names handed to the backend by the zone walk are, in order,
    the query name without its trailing dots, then what follows its first
    dot, and so on; the walk goes through all of them when it finds no
    SOA record and through a first part of them otherwise. They are
    non-empty suffixes of the trimmed query name, each cut after a dot
    and none with a trailing dot, and there are at most one more than the
    trimmed name has dots. *)
Theorem walk_visits (tx : Tx) (w : WalkSt) :
  walk absname tx = Done w →
  w_visited w `prefix_of` walkNames (TrimRightDot (qname tx)) ∧
  (w_soa w = None → w_visited w = walkNames (TrimRightDot (qname tx))) ∧
  (length (w_visited w) <= countDots (TrimRightDot (qname tx)) + 1)%nat ∧
  Forall (fun v => v ≠ "" ∧ TrimRightDot v = v ∧
                   (v = TrimRightDot (qname tx) ∨
                    ∃ p, TrimRightDot (qname tx) = p ++ "." ++ v))
         (w_visited w).
Proof.
  intros H. destruct (walk_trace tx w H) as (_ & Hp & Hall).
  split_and!; [exact Hp | exact Hall | |].
  - pose proof (walkNames_count _ (TrimRightDot (qname tx)) (Nat.le_refl _)) as Hc.
    apply prefix_length in Hp. lia.
  - pose proof (walkNames_suffix _ (TrimRightDot (qname tx)) (Nat.le_refl _)) as Hs.
    destruct Hp as [k Hk]. rewrite Hk in Hs. apply Forall_app in Hs as [Hs _].
    eapply Forall_impl; [exact Hs|]. simpl. intros v [Hv Hsuf].
    split_and!; [exact Hv | | exact Hsuf].
    destruct Hsuf as [-> | (p & Hp')]; [apply TrimRightDot_idem|].
    apply (TrimRightDot_suffix (p ++ ".") v Hv).
    rewrite append_assoc, <- Hp'. apply TrimRightDot_idem.
Qed.

(** X5: what the zone walk writes to the transaction. When the pass over
    the records reaches an NS record at no visited name, [firstNSAtLen]
    stays -1, [nss] stays nil and the transaction is left as it was.
    Otherwise the first such name [m] fixes [firstNSAtLen] to its length
    and the delegation point to its absolute form, the flag
    [queryIsAtDelegationPoint] is raised when [m] is the trimmed query
    name and is never lowered, nothing else of the transaction changes,
    and [nss] is the record set of the last such name. *)
Theorem walk_delegation_point (tx : Tx) (w : WalkSt) :
  walk absname tx = Done w →
  (Forall (fun v => seesNS tx v = false) (w_visited w) ∧
   w_firstNSAtLen w = (-1)%Z ∧ w_nss w = [] ∧ w_tx w = tx) ∨
  (∃ pre m mid pre' l post',
     w_visited w = (pre ++ m :: mid)%list ∧
     Forall (fun v => seesNS tx v = false) pre ∧ seesNS tx m = true ∧
     w_firstNSAtLen w = len m ∧
     w_tx w = markDelegation absname (TrimRightDot (qname tx)) m tx ∧
     delegationPoint (w_tx w) = absname m ∧
     queryIsAtDelegationPoint (w_tx w)
       = (queryIsAtDelegationPoint tx || String.eqb m (TrimRightDot (qname tx))) ∧
     res (w_tx w) = res tx ∧
     w_visited w = (pre' ++ l :: post')%list ∧
     seesNS tx l = true ∧ Forall (fun v => seesNS tx v = false) post' ∧
     w_nss w = (blookup tx l).1).
Proof.
  intros H. destruct (walk_trace tx w H) as (Tr & _).
  destruct Tr as [(A1 & A2 & A3 & A4) |
                  (pre & m & mid & pre' & l & post' & B1 & B2 & B3 & B4 & B5 & B6 & B7 & B8 & B9)].
  - left. auto.
  - right. exists pre, m, mid, pre', l, post'. rewrite B5.
    split_and!; try assumption; try reflexivity;
      unfold markDelegation; destruct (String.eqb m (TrimRightDot (qname tx)));
      simpl; rewrite ?orb_true_r, ?orb_false_r; reflexivity.
Qed.

End WalkFacts.

Lemma walk_visits_witness :
  ∃ w, walk Zone.absname (Zone.txFor Zone.nestedServer "a.b.c.example." TypeA) = Done w ∧
       w_visited w `prefix_of` walkNames "a.b.c.example" ∧
       (length (w_visited w) <= 4)%nat.
Proof.
  destruct (walk Zone.absname (Zone.txFor Zone.nestedServer "a.b.c.example." TypeA))
    as [w| |] eqn:E; [|vm_compute in E; discriminate E..].
  exists w. split; [reflexivity|].
  destruct (walk_visits Zone.absname _ w E) as (H1 & _ & H3 & _).
  split; [exact H1 | exact H3].
Defined.

Lemma walk_delegation_point_witness :
  ∃ w, walk Zone.absname (Zone.txFor Zone.server "foo.sub.example." TypeA) = Done w ∧
       (w_firstNSAtLen w = (-1)%Z ∨
        ∃ m, w_firstNSAtLen w = len m ∧ delegationPoint (w_tx w) = Zone.absname m).
Proof.
  destruct (walk Zone.absname (Zone.txFor Zone.server "foo.sub.example." TypeA))
    as [w| |] eqn:E; [|vm_compute in E; discriminate E..].
  exists w. split; [reflexivity|].
  destruct (walk_delegation_point Zone.absname _ w E)
    as [(_ & H & _) | (pre & m & mid & _ & _ & _ & _ & _ & _ & H1 & _ & H2 & _)].
  - left. exact H.
  - right. exists m. split; [exact H1 | exact H2].
Defined.

(** ** The resolver only adds *)

Lemma extends_refl (tx : Tx) : extends tx tx.
Proof. unfold extends. split_and!; reflexivity. Qed.

Lemma extends_trans (a c d : Tx) : extends a c → extends c d → extends a d.
Proof.
  unfold extends.
  intros (A1 & A2 & A3 & A4 & A5 & A6 & A7 & A8 & A9 & A10 & A11)
         (B1 & B2 & B3 & B4 & B5 & B6 & B7 & B8 & B9 & B10 & B11).
  split_and!; try congruence; etrans; eassumption.
Qed.

(** The elementary updates extend the transaction. *)
Ltac extends_step :=
  unfold extends; simpl; split_and!;
  first [ reflexivity | apply prefix_app_r; reflexivity | apply union_subseteq_r ].

Lemma extends_appendAnswer (l : list RRptr) (tx : Tx) :
  extends tx (updRes (appendAnswer l) tx).
Proof. extends_step. Qed.
Lemma extends_appendNs (l : list RRptr) (tx : Tx) : extends tx (updRes (appendNs l) tx).
Proof. extends_step. Qed.
Lemma extends_appendExtra (l : list RRptr) (tx : Tx) :
  extends tx (updRes (appendExtra l) tx).
Proof. extends_step. Qed.
Lemma extends_setAuthoritative (a : bool) (tx : Tx) :
  extends tx (updRes (setAuthoritative a) tx).
Proof. extends_step. Qed.
Lemma extends_addType (t : N) (tx : Tx) : extends tx (addType t tx).
Proof. extends_step. Qed.
Lemma extends_queueAdditional (n : string) (tx : Tx) : extends tx (queueAdditional n tx).
Proof. extends_step. Qed.
Lemma extends_setConsolationSOA (v : bool) (tx : Tx) : extends tx (setConsolationSOA v tx).
Proof. extends_step. Qed.
Lemma extends_setSuppressNSEC (v : bool) (tx : Tx) : extends tx (setSuppressNSEC v tx).
Proof. extends_step. Qed.
Lemma extends_setSoa (o : option RR) (tx : Tx) : extends tx (setSoa o tx).
Proof. extends_step. Qed.
Lemma extends_setServer (sv : Server) (tx : Tx) : extends tx (setServer sv tx).
Proof. extends_step. Qed.
Lemma extends_markDelegation (absname : string -> string) (norig m : string) (tx : Tx) :
  extends tx (markDelegation absname norig m tx).
Proof. unfold markDelegation. destruct (String.eqb m norig); extends_step. Qed.

Create HintDb extends discriminated.
#[local] Hint Resolve extends_refl extends_appendAnswer extends_appendNs extends_appendExtra
  extends_setAuthoritative extends_addType extends_queueAdditional
  extends_setConsolationSOA extends_setSuppressNSEC extends_setSoa extends_setServer
  extends_markDelegation : extends.

Lemma fold_addRequested_extends (rrs : list RR) :
  ∀ tx : Tx, extends tx (fold_left addRequested rrs tx) ∧
             soa (fold_left addRequested rrs tx) = soa tx.
Proof.
  induction rrs as [|rr rest IH]; intros tx; simpl.
  - split; [apply extends_refl | reflexivity].
  - destruct (IH (addRequested tx rr)) as [IH1 IH2]. split.
    + eapply extends_trans; [|exact IH1]. unfold addRequested.
      destruct (istype tx (Rrtype (Hdr rr))).
      * eapply extends_trans; [apply extends_appendAnswer | apply extends_addType].
      * apply extends_addType.
    + rewrite IH2. unfold addRequested. destruct (istype tx (Rrtype (Hdr rr))); reflexivity.
Qed.

(** The authoritative branch extends the transaction and keeps [soa]. *)
Lemma addAnswersAuthoritative_extends (rrs : list RR) (e e' : option error) (tx tx' : Tx) :
  addAnswersAuthoritative rrs e tx = Done (tx', e') →
  extends tx tx' ∧ soa tx' = soa tx.
Proof.
  assert (Hall : ∀ (t : Tx) (e0 : option error),
             Done (match Answer (res (fold_left addRequested rrs tx)) with
                   | [] => setConsolationSOA true (fold_left addRequested rrs tx)
                   | _ :: _ => fold_left addRequested rrs tx
                   end, None) = Done (t, e0) → extends tx t ∧ soa t = soa tx).
  { intros t e0 H. injection H as <- _.
    destruct (fold_addRequested_extends rrs tx) as [H1 H2].
    destruct (Answer (res (fold_left addRequested rrs tx))); [|auto].
    split; [|exact H2]. eapply extends_trans; [exact H1 | apply extends_setConsolationSOA]. }
  unfold addAnswersAuthoritative. destruct e as [e|].
  - intros H. injection H as <- _. split; [apply extends_refl | reflexivity].
  - destruct (rrsetHasType rrs TypeCNAME) as [cn|]; [|apply Hall].
    destruct (negb (istype tx TypeCNAME)); [|apply Hall].
    destruct (as_CNAME cn); [|discriminate].
    unfold addAnswersCNAME. intros H. injection H as <- _.
    split; [apply extends_appendAnswer | reflexivity].
Qed.

Lemma addReferral_extends (nss : list RR) :
  ∀ tx tx' : Tx, addReferral nss tx = Done tx' → extends tx tx' ∧ soa tx' = soa tx.
Proof.
  induction nss as [|ns rest IH]; intros tx tx' H; simpl in H.
  - injection H as <-. split; [apply extends_refl | reflexivity].
  - destruct (Rrtype (Hdr ns) =? TypeNS); simpl in H.
    + destruct (as_NS ns) as [target|]; simpl in H; [|discriminate].
      apply IH in H. destruct H as [H1 H2]. split.
      * eapply extends_trans; [|exact H1].
        eapply extends_trans; [apply (extends_appendNs [Own ns])|].
        eapply extends_trans; [apply (extends_queueAdditional target)|].
        destruct (Rrtype (Hdr ns) =? TypeDS); auto with extends.
      * rewrite H2. destruct (Rrtype (Hdr ns) =? TypeDS); reflexivity.
    + apply IH in H. destruct H as [H1 H2]. split.
      * eapply extends_trans; [|exact H1].
        destruct (Rrtype (Hdr ns) =? TypeDS); simpl; [|apply extends_refl].
        eapply extends_trans; [apply (extends_appendNs [Own ns]) | auto with extends].
      * rewrite H2. destruct (Rrtype (Hdr ns) =? TypeDS); reflexivity.
Qed.

(** The delegation branch extends the transaction and keeps [soa]. *)
Lemma addAnswersDelegation_extends (nss : list RR) (e' : option error) (tx tx' : Tx) :
  addAnswersDelegation nss tx = Done (tx', e') →
  extends tx tx' ∧ soa tx' = soa tx.
Proof.
  unfold addAnswersDelegation.
  destruct ((qtype tx =? TypeDS) && queryIsAtDelegationPoint tx).
  - rewrite addDSAnswers_spec. simpl. intros H. injection H as <- _.
    destruct (existsb (isType TypeDS) nss); (split; [|reflexivity]);
      (eapply extends_trans; [apply extends_appendAnswer|]);
      (eapply extends_trans; [|apply extends_addType]); auto with extends.
  - destruct (addReferral nss (updRes (setAuthoritative false) tx)) as [t| |] eqn:E;
      simpl; try discriminate.
    intros H. injection H as <- _. apply addReferral_extends in E. destruct E as [E1 E2].
    split; [|exact E2].
    eapply extends_trans; [apply (extends_setAuthoritative false)|].
    eapply extends_trans; [exact E1 | apply extends_addType].
Qed.

Lemma addApexDNSKEY_extends (tx : Tx) : extends tx (addApexDNSKEY tx).
Proof.
  unfold addApexDNSKEY. destruct (soa tx); [|apply extends_refl].
  destruct (bool_decide (TypeSOA ∈ typesAtQname tx)); [|apply extends_refl].
  destruct (istype tx TypeDNSKEY); [|apply extends_addType].
  eapply extends_trans; [apply extends_setServer|].
  eapply extends_trans; [apply (extends_appendAnswer [PtrKSK])|].
  eapply extends_trans; [apply (extends_appendAnswer [PtrZSK])|].
  eapply extends_trans; [apply (extends_setConsolationSOA false) | apply extends_addType].
Qed.

Lemma addConsolationSOA_extends (tx : Tx) : extends tx (addConsolationSOA tx).
Proof.
  unfold addConsolationSOA. destruct (soa tx); [|apply extends_refl].
  destruct (consolationSOA tx); [apply extends_appendNs | apply extends_refl].
Qed.

Section Resolution.

Variable absname : string -> string.
Variable HashName : string -> N -> N -> string -> string.
Variable stepName : string -> string.
Variable useDNSSEC : Tx -> bool.
Variable signResponse : Tx -> run (Tx * option error).

Lemma walk_extends (tx : Tx) (w : WalkSt) :
  walk absname tx = Done w → extends tx (w_tx w) ∧ soa (w_tx w) = soa tx.
Proof.
  intros H. destruct (walk_trace absname tx w H) as (Tr & _).
  destruct Tr as [(_ & -> & _) | (pre & m & mid & pre' & l & post' & _ & _ & _ & _ & -> & _)].
  - split; [apply extends_refl | reflexivity].
  - split; [apply extends_markDelegation|].
    unfold markDelegation. destruct (String.eqb m (TrimRightDot (qname tx))); reflexivity.
Qed.

(** [addAnswersMain] extends the transaction; when it returns no error,
    [tx.soa] is set. *)
Lemma addAnswersMain_extends (tx tx1 : Tx) (e : option error) :
  addAnswersMain absname tx = Done (tx1, e) →
  extends tx tx1 ∧ (e = None → ∃ apex, soa tx1 = Some apex).
Proof.
  unfold addAnswersMain. destruct (walk absname tx) as [w| |] eqn:E; simpl; try discriminate.
  destruct (walk_extends tx w E) as [We _].
  destruct (w_soa w) as [apex|].
  - destruct (w_firstNSAtLen w <=? w_firstSOAAtLen w)%Z; intros H.
    + apply addAnswersAuthoritative_extends in H. destruct H as [H1 H2]. split.
      * eapply extends_trans; [exact We|]. eapply extends_trans; [apply extends_setSoa | exact H1].
      * intros _. exists apex. rewrite H2. reflexivity.
    + apply addAnswersDelegation_extends in H. destruct H as [H1 H2]. split.
      * eapply extends_trans; [exact We|]. eapply extends_trans; [apply extends_setSoa | exact H1].
      * intros _. exists apex. rewrite H2. reflexivity.
  - intros H. injection H as <- <-. split; [exact We | discriminate].
Qed.

Lemma addAnswersMain_fuel (tx : Tx) : addAnswersMain absname tx ≠ NoFuel.
Proof.
  unfold addAnswersMain. pose proof (walk_fuel absname tx) as Hf.
  destruct (walk absname tx) as [w| |]; simpl; [|discriminate|contradiction].
  destruct (w_soa w); [|discriminate].
  destruct (w_firstNSAtLen w <=? w_firstSOAAtLen w)%Z.
  - unfold addAnswersAuthoritative. destruct (w_origerr w); [discriminate|].
    destruct (rrsetHasType (w_origq w) TypeCNAME) as [cn|]; [|discriminate].
    destruct (negb _); [|discriminate]. destruct (as_CNAME cn); discriminate.
  - unfold addAnswersDelegation.
    destruct ((qtype _ =? TypeDS) && queryIsAtDelegationPoint _).
    + rewrite addDSAnswers_spec. simpl. discriminate.
    + match goal with |- context [addReferral ?l ?t] => generalize t; generalize l end.
      intros l. induction l as [|ns rest IH]; intros t; simpl; [discriminate|].
      destruct (Rrtype (Hdr ns) =? TypeNS); simpl.
      * destruct (as_NS ns); simpl; [apply IH | discriminate].
      * apply IH.
Qed.

(** The ways [addAnswers] can end. *)
Lemma addAnswers_cases (tx : Tx) :
  (addAnswersMain absname tx = Panic ∧
   addAnswers absname HashName stepName useDNSSEC signResponse tx = Panic) ∨
  (∃ tx1 e, addAnswersMain absname tx = Done (tx1, Some e) ∧
            addAnswers absname HashName stepName useDNSSEC signResponse tx
              = Done (tx1, Some e) ∧
            extends tx tx1) ∨
  (∃ tx1 tx4 apex,
     addAnswersMain absname tx = Done (tx1, None) ∧ soa tx1 = Some apex ∧
     addAnswers absname HashName stepName useDNSSEC signResponse tx = signResponse tx4 ∧
     extends tx tx1 ∧ extends tx1 tx4).
Proof.
  pose proof (addAnswersMain_fuel tx) as Hf.
  destruct (addAnswersMain absname tx) as [[tx1 [e|]]| |] eqn:EM; [| | |contradiction].
  - right. left. exists tx1, e. split_and!; [reflexivity | |].
    + apply addAnswers_branch_error. exact EM.
    + apply (addAnswersMain_extends _ _ _ EM).
  - right. right. destruct (addAnswersMain_extends _ _ _ EM) as [He Hs].
    destruct (Hs eq_refl) as [apex Hap].
    destruct (addAnswers_after_branch absname HashName stepName useDNSSEC signResponse
                tx tx1 apex EM Hap) as (tx3 & l & HN & HA).
    exists tx1, (updRes (appendExtra l) tx3), apex.
    split_and!; try assumption; try reflexivity.
    assert (Hsoa2 : soa (addConsolationSOA (addApexDNSKEY tx1)) = Some apex)
      by (rewrite soa_addConsolationSOA, soa_addApexDNSKEY; exact Hap).
    rewrite (addNSEC_cases absname HashName stepName useDNSSEC _ apex Hsoa2) in HN.
    injection HN as <-.
    eapply extends_trans; [apply addApexDNSKEY_extends|].
    eapply extends_trans; [apply addConsolationSOA_extends|].
    eapply extends_trans; [|apply extends_appendExtra].
    destruct (useDNSSEC _ && negb _); [|apply extends_refl].
    destruct (Answer _); [apply extends_appendNs | apply extends_refl].
  - left. split; [reflexivity|]. unfold addAnswers. rewrite EM. reflexivity.
Qed.

(** X6: the three ways [addAnswers] can end. Either it panics in its
    branch; or the branch returns an error, which is returned at once with
    the transaction as the branch left it; or the branch returns no
    error, [tx.soa] is set, and [addAnswers] returns what [signResponse]
    returns for a transaction built by the later steps. In the last two
    cases that transaction extends the one [addAnswers] was called with:
    same request, question and rcode, sections that begin with the former
    ones, sets that contain the former ones. No record, type or queued
    name is ever removed. *)
Theorem addAnswers_outcomes (tx : Tx) :
  (addAnswersMain absname tx = Panic ∧
   addAnswers absname HashName stepName useDNSSEC signResponse tx = Panic) ∨
  (∃ tx1 e, addAnswersMain absname tx = Done (tx1, Some e) ∧
            addAnswers absname HashName stepName useDNSSEC signResponse tx
              = Done (tx1, Some e) ∧
            extends tx tx1) ∨
  (∃ tx1 tx4 apex,
     addAnswersMain absname tx = Done (tx1, None) ∧ soa tx1 = Some apex ∧
     addAnswers absname HashName stepName useDNSSEC signResponse tx = signResponse tx4 ∧
     extends tx tx1 ∧ extends tx1 tx4).
Proof. exact (addAnswers_cases tx). Qed.

End Resolution.

(** ** The two sub-cases of the delegation branch *)

Lemma elem_of_nsTargets (nss : list RR) (name : string) :
  name ∈ nsTargets nss ↔
  ∃ rr, rr ∈ nss ∧ Rrtype (Hdr rr) = TypeNS ∧ Rdata rr = RD_NS name.
Proof.
  unfold nsTargets. rewrite list_elem_of_omap. split.
  - intros (rr & Hin & H). exists rr. split; [exact Hin|].
    unfold isType in H. destruct (N.eqb_spec (Rrtype (Hdr rr)) TypeNS) as [E|]; [|discriminate].
    split; [exact E|]. unfold as_NS in H. destruct (Rdata rr); try discriminate.
    injection H as ->. reflexivity.
  - intros (rr & Hin & Ht & Hd). exists rr. split; [exact Hin|].
    unfold isType, as_NS. rewrite Ht, Hd. reflexivity.
Qed.

(** The referral loop panics at a record typed NS that is not an NS
    record. *)
Lemma addReferral_panics (nss : list RR) :
  ∀ tx : Tx, forallb nsTyped nss = false → addReferral nss tx = Panic.
Proof.
  induction nss as [|ns rest IH]; intros tx H; simpl in H; [discriminate|].
  simpl. unfold nsTyped, isType in H.
  destruct (Rrtype (Hdr ns) =? TypeNS) eqn:ENS.
  - unfold as_NS. destruct (Rdata ns); simpl in *;
      try reflexivity. apply IH. exact H.
  - simpl in *. apply IH. exact H.
Qed.

(** X14: the two sub-cases of [addAnswersDelegation], selected by the
    query type and the flag [queryIsAtDelegationPoint]. With the query
    type DS (not ANY) and the flag set, the DS records of [nss] go to
    Answer in their order, [suppressNSEC] is set when there is one and
    [consolationSOA] otherwise, and the Authority section, the
    Authoritative flag and the queue are kept. Otherwise the Authoritative
    flag is cleared, exactly the records of [nss] typed NS or DS go to
    Authority in their order, a name is queued exactly when it was queued
    before or is the target of an NS record of [nss], and [suppressNSEC]
    is set when [nss] has a DS record; a record typed NS that is not an NS
    record makes this sub-case panic. Either way NS is added to
    [typesAtQname]. *)
Theorem delegation_branch (nss : list RR) (tx : Tx) :
  (qtype tx = TypeDS ∧ queryIsAtDelegationPoint tx = true →
   ∃ tx', addAnswersDelegation nss tx = Done (tx', None) ∧
          typesAtQname tx' = {[TypeNS]} ∪ typesAtQname tx ∧
          Answer (res tx')
            = (Answer (res tx) ++ map Own (List.filter (isType TypeDS) nss))%list ∧
          Ns (res tx') = Ns (res tx) ∧
          Extra (res tx') = Extra (res tx) ∧
          Authoritative (res tx') = Authoritative (res tx) ∧
          additionalQueue tx' = additionalQueue tx ∧
          ((∃ rr, rr ∈ nss ∧ Rrtype (Hdr rr) = TypeDS) →
           suppressNSEC tx' = true ∧ consolationSOA tx' = consolationSOA tx) ∧
          (¬ (∃ rr, rr ∈ nss ∧ Rrtype (Hdr rr) = TypeDS) →
           consolationSOA tx' = true ∧ suppressNSEC tx' = suppressNSEC tx)) ∧
  (¬ (qtype tx = TypeDS ∧ queryIsAtDelegationPoint tx = true) →
   (∀ rr, rr ∈ nss → Rrtype (Hdr rr) = TypeNS → ∃ name, Rdata rr = RD_NS name) →
   ∃ tx', addAnswersDelegation nss tx = Done (tx', None) ∧
          typesAtQname tx' = {[TypeNS]} ∪ typesAtQname tx ∧
          Authoritative (res tx') = false ∧
          Answer (res tx') = Answer (res tx) ∧
          Ns (res tx') = (Ns (res tx) ++ map Own (List.filter isNSorDS nss))%list ∧
          (∀ rr, rr ∈ List.filter isNSorDS nss ↔
                 rr ∈ nss ∧ (Rrtype (Hdr rr) = TypeNS ∨ Rrtype (Hdr rr) = TypeDS)) ∧
          Extra (res tx') = Extra (res tx) ∧
          (∀ name, name ∈ additionalQueue tx' ↔
                   name ∈ additionalQueue tx ∨
                   ∃ rr, rr ∈ nss ∧ Rrtype (Hdr rr) = TypeNS ∧ Rdata rr = RD_NS name) ∧
          ((∃ rr, rr ∈ nss ∧ Rrtype (Hdr rr) = TypeDS) → suppressNSEC tx' = true) ∧
          (¬ (∃ rr, rr ∈ nss ∧ Rrtype (Hdr rr) = TypeDS) →
           suppressNSEC tx' = suppressNSEC tx) ∧
          consolationSOA tx' = consolationSOA tx) ∧
  (¬ (qtype tx = TypeDS ∧ queryIsAtDelegationPoint tx = true) →
   (∃ rr, rr ∈ nss ∧ Rrtype (Hdr rr) = TypeNS ∧ ∀ name, Rdata rr ≠ RD_NS name) →
   addAnswersDelegation nss tx = Panic).
Proof.
  assert (HDS : existsb (isType TypeDS) nss = true ↔
                ∃ rr, rr ∈ nss ∧ Rrtype (Hdr rr) = TypeDS).
  { rewrite existsb_exists. split.
    - intros (rr & Hin & Ht). exists rr. split; [apply list_elem_of_In, Hin|].
      apply N.eqb_eq, Ht.
    - intros (rr & Hin & Ht). exists rr. split; [apply list_elem_of_In, Hin|].
      apply N.eqb_eq, Ht. }
  assert (Hflag : ¬ (qtype tx = TypeDS ∧ queryIsAtDelegationPoint tx = true) →
                  (qtype tx =? TypeDS) && queryIsAtDelegationPoint tx = false).
  { intros Hnot. apply not_true_is_false. intros H. apply andb_true_iff in H as [H1 H2].
    apply N.eqb_eq in H1. tauto. }
  assert (Htyped : forallb nsTyped nss = true ↔
                   ∀ rr, rr ∈ nss → Rrtype (Hdr rr) = TypeNS → ∃ name, Rdata rr = RD_NS name).
  { rewrite forallb_forall. split.
    - intros H rr Hin Ht. apply list_elem_of_In in Hin. specialize (H rr Hin).
      unfold nsTyped, isType in H. rewrite Ht in H. simpl in H.
      destruct (Rdata rr); try discriminate. eauto.
    - intros H rr Hin. apply list_elem_of_In in Hin. unfold nsTyped, isType.
      destruct (N.eqb_spec (Rrtype (Hdr rr)) TypeNS) as [E|]; [|reflexivity].
      destruct (H rr Hin E) as [name ->]. reflexivity. }
  split_and!.
  - intros [Hq Hd]. unfold addAnswersDelegation.
    rewrite Hq, Hd, addDSAnswers_spec. simpl.
    destruct (existsb (isType TypeDS) nss) eqn:EX; eexists; (split; [reflexivity|]);
      simpl; split_and!; try reflexivity.
    + intros _. split; reflexivity.
    + intros Hn. exfalso. apply Hn, HDS. reflexivity.
    + intros Hx. apply HDS in Hx. discriminate Hx.
    + intros _. split; reflexivity.
  - intros Hnot Hwt. apply Htyped in Hwt. unfold addAnswersDelegation.
    rewrite (Hflag Hnot).
    destruct (addReferral_spec nss (updRes (setAuthoritative false) tx) Hwt)
      as (tx' & -> & HA & HAn & HNs & HE & HQ & HS & HC & HT & _).
    exists (addType TypeNS tx'). split; [reflexivity|]. simpl in *.
    rewrite HT. split_and!; try assumption; try reflexivity.
    + intros rr. rewrite list_elem_of_In, filter_In, <- list_elem_of_In.
      unfold isNSorDS, isType. rewrite orb_true_iff, !N.eqb_eq. reflexivity.
    + intros name. rewrite HQ, elem_of_union, elem_of_list_to_set, elem_of_nsTargets.
      reflexivity.
    + intros Hx. apply HDS in Hx. rewrite HS, Hx. apply orb_true_r.
    + intros Hn. rewrite HS. destruct (existsb (isType TypeDS) nss) eqn:EX.
      * exfalso. apply Hn, HDS. reflexivity.
      * apply orb_false_r.
  - intros Hnot (rr & Hin & Ht & Hd). unfold addAnswersDelegation.
    rewrite (Hflag Hnot), addReferral_panics; [reflexivity|].
    apply not_true_is_false. intros Hwt.
    destruct (proj1 Htyped Hwt rr Hin Ht) as [name Hname]. exact (Hd name Hname).
Qed.

Lemma delegation_branch_witness :
  (∃ tx', addAnswersDelegation [Zone.subNS; Zone.subDS] Zone.dsTx = Done (tx', None) ∧
          Answer (res tx') = [Own Zone.subDS] ∧ suppressNSEC tx' = true) ∧
  (∃ tx', addAnswersDelegation [Zone.subNS; Zone.subDS] Zone.referralTx = Done (tx', None) ∧
          Authoritative (res tx') = false ∧
          Ns (res tx') = [Own Zone.subNS; Own Zone.subDS] ∧
          "ns1.sub.example." ∈ additionalQueue tx' ∧
          suppressNSEC tx' = true).
Proof.
  destruct (delegation_branch [Zone.subNS; Zone.subDS] Zone.dsTx) as [Ha _].
  destruct (delegation_branch [Zone.subNS; Zone.subDS] Zone.referralTx) as (_ & Hb & _).
  assert (Hds : ∃ rr, rr ∈ [Zone.subNS; Zone.subDS] ∧ Rrtype (Hdr rr) = TypeDS).
  { exists Zone.subDS. split; [|reflexivity]. apply list_elem_of_In. simpl. auto. }
  split.
  - destruct Ha as (tx' & E & _ & HAn & _ & _ & _ & _ & HS & _).
    + split; reflexivity.
    + exists tx'. split; [exact E|]. split; [exact HAn|]. apply HS. exact Hds.
  - destruct Hb as (tx' & E & _ & HA & _ & HNs & _ & _ & HQ & HS & _).
    + intros [H _]. discriminate H.
    + intros rr Hin Ht. apply list_elem_of_In in Hin. simpl in Hin.
      destruct Hin as [<- | [<- | []]]; [eexists; reflexivity | discriminate Ht].
    + exists tx'. split; [exact E|]. split; [exact HA|]. split; [exact HNs|].
      split; [|exact (HS Hds)].
      apply HQ. right. exists Zone.subNS. split_and!; [|reflexivity|reflexivity].
      apply list_elem_of_In. simpl. auto.
Defined.

(** ** The additional section, in full *)

Lemma fold_additional (rrs : list RR) :
  ∀ t : Tx,
    fold_left (fun (t : Tx) (rr : RR) =>
                 if (Rrtype (Hdr rr) =? TypeA) || (Rrtype (Hdr rr) =? TypeAAAA)
                 then updRes (appendExtra [Own rr]) t else t) rrs t
    = updRes (appendExtra (map Own (List.filter isAddress rrs))) t.
Proof.
  induction rrs as [|rr rest IH]; intros t; simpl.
  - symmetry. apply updRes_appendExtra_nil.
  - rewrite IH. unfold isAddress at 2.
    destruct ((Rrtype (Hdr rr) =? TypeA) || (Rrtype (Hdr rr) =? TypeAAAA)); [|reflexivity].
    rewrite updRes_appendExtra_app. reflexivity.
Qed.

Lemma addAdditionalItem_records (aname : string) (tx : Tx) :
  fst (addAdditionalItem aname tx) = updRes (appendExtra (map Own (additionalFor tx aname))) tx.
Proof.
  unfold addAdditionalItem, additionalFor. destruct (blookup tx aname) as [rrs [e|]]; simpl.
  - symmetry. apply updRes_appendExtra_nil.
  - apply fold_additional.
Qed.

Lemma additionalFor_server (tx tx' : Tx) (aname : string) :
  s tx = s tx' → additionalFor tx aname = additionalFor tx' aname.
Proof. intros H. unfold additionalFor. rewrite (blookup_server tx tx' aname H). reflexivity. Qed.

Lemma fold_addAdditionalItem (names : list string) (tx0 : Tx) :
  ∀ t : Tx,
    s t = s tx0 →
    fold_left (fun (t : Tx) (aname : string) => fst (addAdditionalItem aname t)) names t
    = updRes (appendExtra (map Own (concat (map (additionalFor tx0) names)))) t.
Proof.
  induction names as [|a rest IH]; intros t Hs; simpl.
  - symmetry. apply updRes_appendExtra_nil.
  - rewrite addAdditionalItem_records, IH by exact Hs.
    rewrite updRes_appendExtra_app, (additionalFor_server t tx0 a Hs), map_app. reflexivity.
Qed.

(** X7: [addAdditional] never fails and only appends to the Additional
    section: the section becomes the former one followed by the appended
    records, and the Answer and Authority sections, the flags of the
    response and every other field of the transaction stay as they were.
    A record is appended exactly when it is an A or AAAA record returned
    by a successful lookup of a queued name; a name whose lookup fails
    contributes nothing, and with an empty queue nothing changes. *)
Theorem addAdditional_records (tx : Tx) :
  ∃ (l : list RR) (tx' : Tx),
    addAdditional tx = Done (tx', None) ∧
    Extra (res tx') = (Extra (res tx) ++ map Own l)%list ∧
    Answer (res tx') = Answer (res tx) ∧
    Ns (res tx') = Ns (res tx) ∧
    Authoritative (res tx') = Authoritative (res tx) ∧
    Rcode (res tx') = Rcode (res tx) ∧
    Question (res tx') = Question (res tx) ∧
    typesAtQname tx' = typesAtQname tx ∧
    additionalQueue tx' = additionalQueue tx ∧
    soa tx' = soa tx ∧ s tx' = s tx ∧ rcode tx' = rcode tx ∧
    consolationSOA tx' = consolationSOA tx ∧ suppressNSEC tx' = suppressNSEC tx ∧
    tx' = updRes (appendExtra (map Own l)) tx ∧
    (∀ rr, rr ∈ l ↔
           ∃ aname rrs, aname ∈ additionalQueue tx ∧ blookup tx aname = (rrs, None) ∧
                        rr ∈ rrs ∧
                        (Rrtype (Hdr rr) = TypeA ∨ Rrtype (Hdr rr) = TypeAAAA)) ∧
    (additionalQueue tx = ∅ → l = [] ∧ tx' = tx).
Proof.
  exists (concat (map (additionalFor tx) (elements (additionalQueue tx)))).
  exists (updRes (appendExtra
                    (map Own (concat (map (additionalFor tx)
                                          (elements (additionalQueue tx)))))) tx).
  assert (E : addAdditional tx
              = Done (updRes (appendExtra
                                (map Own (concat (map (additionalFor tx)
                                                      (elements (additionalQueue tx)))))) tx,
                      None)).
  { unfold addAdditional. rewrite (fold_addAdditionalItem _ tx tx eq_refl). reflexivity. }
  split; [exact E|].
  do 14 (split; [reflexivity|]).
  split.
  - intros rr. rewrite list_elem_of_In, in_concat. split.
    + intros (l0 & Hl0 & Hin). apply in_map_iff in Hl0 as (a & <- & Ha).
      unfold additionalFor in Hin. destruct (blookup tx a) as [rrs [e|]] eqn:EB; [inversion Hin|].
      apply filter_In in Hin as [Hin Haddr].
      exists a, rrs. split_and!.
      * apply elem_of_elements, list_elem_of_In, Ha.
      * exact EB.
      * apply list_elem_of_In, Hin.
      * unfold isAddress in Haddr. apply orb_true_iff in Haddr.
        destruct Haddr as [H | H]; apply N.eqb_eq in H; auto.
    + intros (a & rrs & Ha & EB & Hin & Ht).
      exists (additionalFor tx a). split.
      * apply in_map. apply list_elem_of_In, elem_of_elements, Ha.
      * unfold additionalFor. rewrite EB. apply filter_In. split.
        -- apply list_elem_of_In, Hin.
        -- unfold isAddress. apply orb_true_iff.
           destruct Ht as [-> | ->]; [left | right]; reflexivity.
  - intros Hq. rewrite Hq, elements_empty. simpl.
    rewrite updRes_appendExtra_nil. auto.
Qed.

(** A queue of two names: the lookup of one gives an address record,
    the lookup of the other fails. *)
Lemma addAdditional_records_witness :
  ∃ tx', addAdditional Zone.glueTx = Done (tx', None) ∧
         Extra (res tx') = [Own Zone.ns1A] ∧ Ns (res tx') = Ns (res Zone.glueTx).
Proof.
  destruct (addAdditional_records Zone.glueTx)
    as (l & tx' & E & _ & _ & HN & _).
  exists tx'. split; [exact E|]. split; [|exact HN].
  vm_compute in E. injection E as <-. reflexivity.
Defined.

(** ** The handler *)

Section Handler.

Variable absname : string -> string.
Variable HashName : string -> N -> N -> string -> string.
Variable stepName : string -> string.
Variable useDNSSEC : Tx -> bool.
Variable signResponse : Tx -> run (Tx * option error).
Variable ToLower : string -> string.
Variable IsEdns0 : Msg -> option RR.

Lemma questionLoop_skipped (qs : list dnsQuestion) :
  ∀ tx : Tx,
    Forall (fun q => Qclass q ≠ ClassINET ∧ Qclass q ≠ ClassANY) qs →
    ∃ tx', questionLoop absname HashName stepName useDNSSEC signResponse ToLower qs tx
           = Done tx' ∧
           res tx' = res tx ∧ rcode tx' = rcode tx ∧ s tx' = s tx.
Proof.
  induction qs as [|q rest IH]; intros tx Hall; simpl.
  - exists tx. auto.
  - inversion Hall as [|? ? [H1 H2] Hrest]; subst.
    apply N.eqb_neq in H1. apply N.eqb_neq in H2. rewrite H1, H2. simpl.
    destruct (IH (setQuestion (ToLower (QName q)) (Qtype q) (Qclass q) tx) Hrest)
      as (tx' & E & Hr & Hc & Hs).
    exists tx'. auto.
Qed.

(** X8: a request all of whose questions have a class other than INET
    and ANY (a request without a question among them) is answered without
    running the resolver: rcode 0, empty Answer and Authority sections,
    an Additional section holding only the echoed OPT record if the
    request had one, and the server as it was. *)
Theorem handle_class_filter (sv : Server) (reqMsg : Msg) :
  Forall (fun q => Qclass q ≠ ClassINET ∧ Qclass q ≠ ClassANY) (Question reqMsg) →
  ∃ m, handle absname HashName stepName useDNSSEC signResponse ToLower IsEdns0 sv reqMsg
       = Done (sv, m) ∧
       Rcode m = RcodeSuccess ∧ Answer m = [] ∧ Ns m = [] ∧
       Extra m = match IsEdns0 reqMsg with
                 | Some opt => [Own opt]
                 | None => []
                 end ∧
       Response m = true ∧ Authoritative m = true ∧ MsgId m = MsgId reqMsg.
Proof.
  intros Hall. unfold handle.
  destruct (questionLoop_skipped (Question reqMsg) (newTx IsEdns0 sv reqMsg) Hall)
    as (tx' & -> & Hr & Hc & Hs).
  exists (SetRcode reqMsg (rcode tx') (res tx')). split.
  - simpl. rewrite Hs. unfold newTx. destruct (IsEdns0 reqMsg); reflexivity.
  - rewrite Hc, Hr. unfold newTx. destruct (IsEdns0 reqMsg); simpl; split_and!; reflexivity.
Qed.

End Handler.

Lemma handle_class_filter_witness :
  ∃ m, Zone.run_handle true Zone.server Zone.chaosQuery = Done (Zone.server, m) ∧
       Rcode m = RcodeSuccess ∧ Answer m = [] ∧ Ns m = [].
Proof.
  destruct (handle_class_filter Zone.absname Zone.HashName Zone.stepName (fun _ => true)
              Zone.signResponse Zone.ToLower Zone.IsEdns0 Zone.server Zone.chaosQuery)
    as (m & E & H1 & H2 & H3 & _).
  - constructor; [|constructor]. split; discriminate.
  - exists m. auto.
Defined.

Section HandlerRcode.

Variable absname : string -> string.
Variable HashName : string -> N -> N -> string -> string.
Variable stepName : string -> string.
Variable useDNSSEC : Tx -> bool.
Variable signResponse : Tx -> run (Tx * option error).
Variable ToLower : string -> string.
Variable IsEdns0 : Msg -> option RR.

(** [signResponse] is declared outside [ncdns.go]; it is taken not to
    write [tx.rcode]. *)
Hypothesis signResponse_rcode :
  ∀ (tx tx' : Tx) (e : option error), signResponse tx = Done (tx', e) → rcode tx' = rcode tx.

Lemma addAnswers_rcode (tx tx' : Tx) (e : option error) :
  addAnswers absname HashName stepName useDNSSEC signResponse tx = Done (tx', e) →
  rcode tx' = rcode tx.
Proof.
  intros H.
  destruct (addAnswers_cases absname HashName stepName useDNSSEC signResponse tx)
    as [[_ E] | [(tx1 & e1 & _ & E & X) | (tx1 & tx4 & apex & _ & _ & E & X1 & X4)]].
  - rewrite E in H. discriminate H.
  - rewrite E in H. injection H as <- _. apply X.
  - rewrite E in H. apply signResponse_rcode in H. rewrite H.
    destruct X1 as (_ & _ & _ & _ & R1 & _). destruct X4 as (_ & _ & _ & _ & R4 & _).
    congruence.
Qed.

Lemma questionLoop_rcode (qs : list dnsQuestion) :
  ∀ tx tx' : Tx,
    rcode tx = 0%Z →
    questionLoop absname HashName stepName useDNSSEC signResponse ToLower qs tx = Done tx' →
    rcode tx' = RcodeSuccess ∨ rcode tx' = RcodeNameError ∨ rcode tx' = RcodeServerFailure.
Proof.
  induction qs as [|q rest IH]; intros tx tx' H0 H; simpl in H.
  - injection H as <-. left. exact H0.
  - destruct (negb (Qclass q =? ClassINET) && negb (Qclass q =? ClassANY)).
    + apply (IH (setQuestion (ToLower (QName q)) (Qtype q) (Qclass q) tx) tx'); [exact H0 | exact H].
    + destruct (addAnswers absname HashName stepName useDNSSEC signResponse
                  (setQuestion (ToLower (QName q)) (Qtype q) (Qclass q) tx))
        as [[tx2 [e|]]| |] eqn:EA; simpl in H; try discriminate.
      * apply addAnswers_rcode in EA. simpl in EA. injection H as <-.
        unfold rcodeFor. rewrite EA, H0. simpl.
        repeat case_bool_decide; simpl; auto.
      * apply addAnswers_rcode in EA. simpl in EA. apply (IH tx2 tx'); congruence.
Qed.

(** X9: whatever the request, the rcode of the response the handler
    writes is NOERROR (0), NXDOMAIN (3) or SERVFAIL (2); REFUSED is never
    written. *)
Theorem handle_rcode (sv sv' : Server) (reqMsg m : Msg) :
  handle absname HashName stepName useDNSSEC signResponse ToLower IsEdns0 sv reqMsg
    = Done (sv', m) →
  (Rcode m = RcodeSuccess ∨ Rcode m = RcodeNameError ∨ Rcode m = RcodeServerFailure) ∧
  Rcode m ≠ RcodeRefused.
Proof.
  unfold handle.
  destruct (questionLoop absname HashName stepName useDNSSEC signResponse ToLower
              (Question reqMsg) (newTx IsEdns0 sv reqMsg)) as [tx| |] eqn:EQ;
    simpl; try discriminate.
  intros H. injection H as _ <-. simpl.
  apply questionLoop_rcode in EQ.
  - split; [exact EQ|]. destruct EQ as [-> | [-> | ->]]; discriminate.
  - unfold newTx. destruct (IsEdns0 reqMsg); reflexivity.
Qed.

End HandlerRcode.

Lemma handle_rcode_witness :
  ∃ sv' m, Zone.run_handle true Zone.server (Zone.query "nothere.example." TypeA)
           = Done (sv', m) ∧
           Rcode m ≠ RcodeRefused.
Proof.
  destruct (Zone.run_handle true Zone.server (Zone.query "nothere.example." TypeA))
    as [[sv' m]| |] eqn:E; [|vm_compute in E; discriminate E..].
  exists sv', m. split; [reflexivity|].
  refine (proj2 (handle_rcode Zone.absname Zone.HashName Zone.stepName (fun _ => true)
                   Zone.signResponse Zone.ToLower Zone.IsEdns0 _
                   Zone.server sv' (Zone.query "nothere.example." TypeA) m E)).
  intros tx tx' e H. unfold Zone.signResponse in H. injection H as <- _. reflexivity.
Defined.

(** ** The handler returns *)

Lemma blookup_records (tx : Tx) (n : string) : (blookup tx n).1 = (b (s tx) n).1.
Proof.
  unfold blookup. destruct (b (s tx) n) as [rrs [e|]]; [reflexivity|].
  destruct (length rrs =? 0)%nat; reflexivity.
Qed.

Lemma wellTyped_parts (rrs : list RR) :
  forallb wellTyped rrs = true →
  forallb soaTyped rrs = true ∧ forallb nsTyped rrs = true ∧ forallb cnameTyped rrs = true.
Proof.
  induction rrs as [|rr rest IH]; simpl; [auto|].
  intros H. apply andb_true_iff in H as [H1 H2].
  unfold wellTyped in H1. apply andb_true_iff in H1 as [H1 Hc].
  apply andb_true_iff in H1 as [Hs Hn].
  destruct (IH H2) as (I1 & I2 & I3). rewrite Hs, Hn, Hc, I1, I2, I3. auto.
Qed.

Lemma rrsetHasType_cnameTyped (rrs : list RR) (cn : RR) :
  forallb cnameTyped rrs = true →
  rrsetHasType rrs TypeCNAME = Some cn → as_CNAME cn = Some cn.
Proof.
  induction rrs as [|rr rest IH]; simpl; [discriminate|].
  intros H. apply andb_true_iff in H as [H1 H2].
  destruct (Rrtype (Hdr rr) =? TypeCNAME) eqn:E; [|apply IH, H2].
  intros Hc. injection Hc as <-. unfold cnameTyped, isType in H1. rewrite E in H1.
  unfold as_CNAME. destruct (Rdata rr); try discriminate. reflexivity.
Qed.

Lemma addAnswersAuthoritative_done (rrs : list RR) (e : option error) (tx : Tx) :
  forallb cnameTyped rrs = true →
  ∃ r, addAnswersAuthoritative rrs e tx = Done r.
Proof.
  intros Hwt. unfold addAnswersAuthoritative. destruct e; [eauto|].
  destruct (rrsetHasType rrs TypeCNAME) as [cn|] eqn:EC; [|eauto].
  destruct (negb (istype tx TypeCNAME)); [|eauto].
  rewrite (rrsetHasType_cnameTyped rrs cn Hwt EC). unfold addAnswersCNAME. eauto.
Qed.

Lemma addAnswersDelegation_done (nss : list RR) (tx : Tx) :
  forallb nsTyped nss = true →
  ∃ r, addAnswersDelegation nss tx = Done r.
Proof.
  intros Hwt. unfold addAnswersDelegation.
  destruct ((qtype tx =? TypeDS) && queryIsAtDelegationPoint tx).
  - rewrite addDSAnswers_spec. simpl. eauto.
  - destruct (addReferral_spec nss (updRes (setAuthoritative false) tx) Hwt) as (tx' & -> & _).
    simpl. eauto.
Qed.

Section HandlerReturns.

Variable absname : string -> string.
Variable HashName : string -> N -> N -> string -> string.
Variable stepName : string -> string.
Variable useDNSSEC : Tx -> bool.
Variable signResponse : Tx -> run (Tx * option error).
Variable ToLower : string -> string.
Variable IsEdns0 : Msg -> option RR.

(** [signResponse] is declared outside [ncdns.go]; it is taken to return
    and not to write to the server. *)
Hypothesis signResponse_returns : ∀ tx : Tx, ∃ r, signResponse tx = Done r.
Hypothesis signResponse_server :
  ∀ (tx tx' : Tx) (e : option error), signResponse tx = Done (tx', e) → s tx' = s tx.

Lemma addAnswersMain_done (tx : Tx) :
  (∀ name, forallb wellTyped (b (s tx) name).1 = true) →
  ∃ r, addAnswersMain absname tx = Done r.
Proof.
  intros Hwt.
  destruct (walk_done absname tx) as [w Hw].
  { intros name. apply (wellTyped_parts _ (Hwt name)). }
  unfold addAnswersMain. rewrite Hw. simpl.
  destruct (w_soa w) as [apex|] eqn:Es; [|eauto].
  destruct (w_firstNSAtLen w <=? w_firstSOAAtLen w)%Z.
  - apply addAnswersAuthoritative_done.
    destruct (walk_post absname tx w Hw) as (_ & _ & Horig & Hcase).
    destruct Hcase as [[Hn _] | (a & pre & m & _ & Hv & _)]; [congruence|].
    destruct Horig as [-> _]; [rewrite Hv; destruct pre; discriminate|].
    rewrite blookup_records. apply (wellTyped_parts _ (Hwt _)).
  - apply addAnswersDelegation_done.
    destruct (walk_trace absname tx w Hw) as (Tr & _).
    destruct Tr as [(_ & _ & -> & _) |
                    (pre & m & mid & pre' & l & post' & _ & _ & _ & _ & _ & _ & _ & _ & ->)];
      [reflexivity|].
    rewrite blookup_records. apply (wellTyped_parts _ (Hwt _)).
Qed.

Lemma addAnswers_done (tx : Tx) :
  (∀ name, forallb wellTyped (b (s tx) name).1 = true) →
  ∃ r, addAnswers absname HashName stepName useDNSSEC signResponse tx = Done r.
Proof.
  intros Hwt. destruct (addAnswersMain_done tx Hwt) as [r Hr].
  destruct (addAnswers_cases absname HashName stepName useDNSSEC signResponse tx)
    as [[E _] | [(tx1 & e1 & _ & E & _) | (tx1 & tx4 & apex & _ & _ & E & _)]].
  - congruence.
  - eauto.
  - rewrite E. apply signResponse_returns.
Qed.

Lemma questionLoop_done (qs : list dnsQuestion) :
  ∀ tx : Tx,
    (∀ name, forallb wellTyped (b (s tx) name).1 = true) →
    ∃ tx', questionLoop absname HashName stepName useDNSSEC signResponse ToLower qs tx
           = Done tx'.
Proof.
  induction qs as [|q rest IH]; intros tx Hwt; simpl; [eauto|].
  destruct (negb (Qclass q =? ClassINET) && negb (Qclass q =? ClassANY)).
  - apply IH. exact Hwt.
  - destruct (addAnswers_done (setQuestion (ToLower (QName q)) (Qtype q) (Qclass q) tx) Hwt)
      as [[tx2 e] E].
    rewrite E. simpl. destruct e as [e|]; [eauto|].
    apply IH. intros name.
    apply (addAnswers_server absname HashName stepName useDNSSEC signResponse
             signResponse_server) in E.
    destruct E as (_ & _ & _ & Hb & _). simpl in Hb. rewrite Hb. apply Hwt.
Qed.

(** X10: the handler writes a response for every request, without a
    panic from a type assertion or a nil [tx.soa], when every record of
    the backend whose header says SOA, NS or CNAME has that concrete
    type. *)
Theorem handle_returns (sv : Server) (reqMsg : Msg) :
  (∀ name, forallb wellTyped (b sv name).1 = true) →
  ∃ sv' m,
    handle absname HashName stepName useDNSSEC signResponse ToLower IsEdns0 sv reqMsg
    = Done (sv', m).
Proof.
  intros Hwt. unfold handle.
  destruct (questionLoop_done (Question reqMsg) (newTx IsEdns0 sv reqMsg)) as [tx' ->].
  - unfold newTx. destruct (IsEdns0 reqMsg); exact Hwt.
  - simpl. eauto.
Qed.

End HandlerReturns.

Lemma handle_returns_witness :
  ∃ sv' m, Zone.run_handle true Zone.server (Zone.query "foo.sub.example." TypeA)
           = Done (sv', m).
Proof.
  apply (handle_returns Zone.absname Zone.HashName Zone.stepName (fun _ => true)
           Zone.signResponse Zone.ToLower Zone.IsEdns0).
  - intros tx. unfold Zone.signResponse. eauto.
  - intros tx tx' e H. unfold Zone.signResponse in H. injection H as <- _. reflexivity.
  - intros name. unfold Zone.server, Zone.backend. simpl.
    repeat match goal with |- context [String.eqb ?a ?c] => destruct (String.eqb a c) end;
      reflexivity.
Defined.

(** ** Negative answers *)

Lemma addApexDNSKEY_fields (tx : Tx) :
  Ns (res (addApexDNSKEY tx)) = Ns (res tx) ∧
  Authoritative (res (addApexDNSKEY tx)) = Authoritative (res tx) ∧
  suppressNSEC (addApexDNSKEY tx) = suppressNSEC tx.
Proof.
  unfold addApexDNSKEY. destruct (soa tx); [|auto].
  destruct (bool_decide (TypeSOA ∈ typesAtQname tx)); [|auto].
  destruct (istype tx TypeDNSKEY); simpl; auto.
Qed.

Section Negative.

Variable absname : string -> string.
Variable HashName : string -> N -> N -> string -> string.
Variable stepName : string -> string.
Variable useDNSSEC : Tx -> bool.
Variable signResponse : Tx -> run (Tx * option error).

(** X11: when the walk ends at an apex with no delegation above it and
    the lookup of the queried name itself gave an error (among them
    [ErrNoResults], which [blookup] makes of a name without records), the
    resolver returns that error at once; the response, the types and the
    flags of the transaction are as they were before the call: no record,
    no consolation SOA and no NSEC3 is added. *)
Theorem lookup_error_in_zone (tx : Tx) (w : WalkSt) (apex : RR) (e : error) :
  walk absname tx = Done w →
  w_soa w = Some apex →
  (w_firstNSAtLen w <= w_firstSOAAtLen w)%Z →
  (blookup tx (TrimRightDot (qname tx))).2 = Some e →
  ∃ tx1,
    addAnswers absname HashName stepName useDNSSEC signResponse tx = Done (tx1, Some e) ∧
    res tx1 = res tx ∧ typesAtQname tx1 = typesAtQname tx ∧
    additionalQueue tx1 = additionalQueue tx ∧
    consolationSOA tx1 = consolationSOA tx ∧ suppressNSEC tx1 = suppressNSEC tx ∧
    s tx1 = s tx ∧ soa tx1 = Some apex.
Proof.
  intros Hw Hsoa Hle He.
  destruct (walk_post absname tx w Hw) as (_ & _ & Horig & Hcase).
  destruct Hcase as [[Hn _] | (a & pre & m & _ & Hv & _)]; [congruence|].
  destruct Horig as [_ Herr]; [rewrite Hv; destruct pre; discriminate|].
  rewrite He in Herr.
  exists (setSoa (Some apex) (w_tx w)). split.
  - apply addAnswers_branch_error. unfold addAnswersMain. rewrite Hw. simpl. rewrite Hsoa.
    destruct (Z.leb_spec (w_firstNSAtLen w) (w_firstSOAAtLen w)); [|lia].
    rewrite Herr. reflexivity.
  - destruct (walk_trace absname tx w Hw) as (Tr & _).
    destruct Tr as [(_ & -> & _) |
                    (p & m' & mid & p' & l & post' & _ & _ & _ & _ & -> & _)].
    + simpl. split_and!; reflexivity.
    + unfold markDelegation. destruct (String.eqb m' (TrimRightDot (qname tx)));
        simpl; split_and!; reflexivity.
Qed.

(** X12: the Authority section of an answer whose branch returned no
    error. To the records the branch put there, [addAnswers] adds the apex
    SOA when [consolationSOA] is still set after the DNSKEY step, and
    then, when DNSSEC is in use, [suppressNSEC] is not set and Answer is
    empty, the NSEC3 record; in this order and nothing else. The Answer
    section is the one the DNSKEY step left and the Authoritative flag is
    the one the branch left. *)
Theorem authority_section (tx tx1 : Tx) (apex : RR) :
  addAnswersMain absname tx = Done (tx1, None) →
  soa tx1 = Some apex →
  ∃ tx4,
    addAnswers absname HashName stepName useDNSSEC signResponse tx = signResponse tx4 ∧
    Answer (res tx4) = Answer (res (addApexDNSKEY tx1)) ∧
    Authoritative (res tx4) = Authoritative (res tx1) ∧
    Ns (res tx4)
    = (Ns (res tx1)
       ++ (if consolationSOA (addApexDNSKEY tx1) then [Own apex] else [])
       ++ (if useDNSSEC (addConsolationSOA (addApexDNSKEY tx1)) && negb (suppressNSEC tx1)
           then match Answer (res (addApexDNSKEY tx1)) with
                | [] => [Own (nsec3For absname HashName stepName
                                (addConsolationSOA (addApexDNSKEY tx1))
                                (typesAtQname (addApexDNSKEY tx1)) apex)]
                | _ :: _ => []
                end
           else []))%list.
Proof.
  intros Hmain Hsoa.
  destruct (addAnswers_after_branch absname HashName stepName useDNSSEC signResponse
              tx tx1 apex Hmain Hsoa) as (tx3 & l & HN & HA).
  exists (updRes (appendExtra l) tx3). split; [exact HA|].
  assert (Hs2 : soa (addApexDNSKEY tx1) = Some apex) by (rewrite soa_addApexDNSKEY; exact Hsoa).
  assert (Hs3 : soa (addConsolationSOA (addApexDNSKEY tx1)) = Some apex)
    by (rewrite soa_addConsolationSOA; exact Hs2).
  rewrite (addNSEC_cases absname HashName stepName useDNSSEC _ apex Hs3) in HN.
  injection HN as <-.
  destruct (addApexDNSKEY_fields tx1) as (F1 & F2 & F3).
  destruct (addConsolationSOA_frame (addApexDNSKEY tx1)) as (C1 & C2 & _ & _).
  assert (C3 : Ns (res (addConsolationSOA (addApexDNSKEY tx1)))
               = (Ns (res tx1) ++ (if consolationSOA (addApexDNSKEY tx1)
                                   then [Own apex] else []))%list
             ∧ Authoritative (res (addConsolationSOA (addApexDNSKEY tx1)))
               = Authoritative (res tx1)
             ∧ suppressNSEC (addConsolationSOA (addApexDNSKEY tx1)) = suppressNSEC tx1).
  { unfold addConsolationSOA. rewrite Hs2.
    destruct (consolationSOA (addApexDNSKEY tx1)); simpl; rewrite ?F1, ?F2, ?F3, ?app_nil_r;
      auto. }
  destruct C3 as (N3 & A3 & S3). rewrite S3, C1, C2.
  destruct (useDNSSEC (addConsolationSOA (addApexDNSKEY tx1)) && negb (suppressNSEC tx1)).
  - destruct (Answer (res (addApexDNSKEY tx1))) eqn:EA; simpl;
      rewrite ?N3, ?A3, ?C1, ?EA, ?app_nil_r, <- ?app_assoc; auto.
  - simpl. rewrite ?N3, ?A3, ?C1, ?app_nil_r. auto.
Qed.

End Negative.

Lemma lookup_error_in_zone_witness :
  ∃ tx1, Zone.run_addAnswers true (Zone.txFor Zone.server "nothere.example." TypeA)
         = Done (tx1, Some ErrNoSuchDomain) ∧
         res tx1 = res (Zone.txFor Zone.server "nothere.example." TypeA).
Proof.
  destruct (walk Zone.absname (Zone.txFor Zone.server "nothere.example." TypeA))
    as [w| |] eqn:E; [|vm_compute in E; discriminate E..].
  destruct (lookup_error_in_zone Zone.absname Zone.HashName Zone.stepName (fun _ => true)
              Zone.signResponse (Zone.txFor Zone.server "nothere.example." TypeA)
              w Zone.soaRR ErrNoSuchDomain E) as (tx1 & H1 & H2 & _).
  - vm_compute in E. injection E as <-. reflexivity.
  - vm_compute in E. injection E as <-. simpl. lia.
  - vm_compute. reflexivity.
  - exists tx1. split; [exact H1 | exact H2].
Defined.

Lemma authority_section_witness :
  ∃ tx1 tx4,
    addAnswersMain Zone.absname (Zone.txFor Zone.server "host.example." 15)
      = Done (tx1, None) ∧
    Zone.run_addAnswers true (Zone.txFor Zone.server "host.example." 15)
      = Zone.signResponse tx4 ∧
    Answer (res tx4) = Answer (res (addApexDNSKEY tx1)).
Proof.
  destruct (addAnswersMain Zone.absname (Zone.txFor Zone.server "host.example." 15))
    as [[tx1 [e|]]| |] eqn:E; [vm_compute in E; discriminate E | | vm_compute in E; discriminate E..].
  assert (Hs : soa tx1 = Some Zone.soaRR).
  { pose proof E as E'. vm_compute in E'. injection E' as <-. reflexivity. }
  destruct (authority_section Zone.absname Zone.HashName Zone.stepName (fun _ => true)
              Zone.signResponse (Zone.txFor Zone.server "host.example." 15)
              tx1 Zone.soaRR E Hs) as (tx4 & H1 & H2 & _).
  exists tx1, tx4. split; [reflexivity|]. split; [exact H1 | exact H2].
Defined.

(** ** Requests that do not ask for DNSKEY *)

Section KeysUntouched.

Variable absname : string -> string.
Variable HashName : string -> N -> N -> string -> string.
Variable stepName : string -> string.
Variable useDNSSEC : Tx -> bool.
Variable signResponse : Tx -> run (Tx * option error).
Variable ToLower : string -> string.
Variable IsEdns0 : Msg -> option RR.

(** [signResponse] is declared outside [ncdns.go]; it is taken not to
    write to the server. *)
Hypothesis signResponse_server :
  ∀ (tx tx' : Tx) (e : option error), signResponse tx = Done (tx', e) → s tx' = s tx.

Lemma addAnswers_server_same (tx tx' : Tx) (e : option error) :
  istype tx TypeDNSKEY = false →
  addAnswers absname HashName stepName useDNSSEC signResponse tx = Done (tx', e) →
  s tx' = s tx.
Proof.
  intros Hq H.
  destruct (addAnswers_cases absname HashName stepName useDNSSEC signResponse tx)
    as [[_ E] | [(tx1 & e1 & EM & E & _) | (tx1 & tx4 & apex & EM & Hap & _ & X1 & _)]].
  - rewrite E in H. discriminate H.
  - rewrite E in H. injection H as <- _. apply (addAnswersMain_server _ _ _ _ EM).
  - assert (Hq1 : istype tx1 TypeDNSKEY = false).
    { unfold istype in *. destruct X1 as (_ & _ & -> & _). exact Hq. }
    destruct (addAnswers_after_branch absname HashName stepName useDNSSEC signResponse
                tx tx1 apex EM Hap) as (tx3 & l & HN & HA).
    rewrite HA in H. apply signResponse_server in H. rewrite H. simpl.
    assert (Hs3 : soa (addConsolationSOA (addApexDNSKEY tx1)) = Some apex)
      by (rewrite soa_addConsolationSOA, soa_addApexDNSKEY; exact Hap).
    destruct (addNSEC_frame absname HashName stepName useDNSSEC _ _ _ _ Hs3 HN)
      as (_ & _ & -> & _).
    destruct (addConsolationSOA_frame (addApexDNSKEY tx1)) as (_ & _ & -> & _).
    rewrite addApexDNSKEY_server_same by auto.
    apply (addAnswersMain_server _ _ _ _ EM).
Qed.

Lemma questionLoop_server_same (qs : list dnsQuestion) :
  ∀ tx tx' : Tx,
    Forall (fun q => Qtype q ≠ TypeDNSKEY ∧ Qtype q ≠ TypeANY) qs →
    questionLoop absname HashName stepName useDNSSEC signResponse ToLower qs tx = Done tx' →
    s tx' = s tx.
Proof.
  induction qs as [|q rest IH]; intros tx tx' Hall H; simpl in H.
  - injection H as <-. reflexivity.
  - inversion Hall as [|? ? [H1 H2] Hrest]; subst.
    destruct (negb (Qclass q =? ClassINET) && negb (Qclass q =? ClassANY)).
    + apply (IH _ _ Hrest) in H. exact H.
    + destruct (addAnswers absname HashName stepName useDNSSEC signResponse
                  (setQuestion (ToLower (QName q)) (Qtype q) (Qclass q) tx))
        as [[tx2 [e|]]| |] eqn:EA; simpl in H; try discriminate.
      * apply addAnswers_server_same in EA;
          [|apply istype_false; assumption].
        injection H as <-. simpl in EA. rewrite <- EA.
        unfold rcodeFor. repeat case_match; reflexivity.
      * apply addAnswers_server_same in EA;
          [|apply istype_false; assumption].
        apply (IH _ _ Hrest) in H. simpl in EA. congruence.
Qed.

(** X13: a request none of whose questions has the type DNSKEY or ANY
    leaves the server exactly as it was, the two DNSKEY records and their
    owner names included. *)
Theorem handle_keeps_server (sv sv' : Server) (reqMsg m : Msg) :
  Forall (fun q => Qtype q ≠ TypeDNSKEY ∧ Qtype q ≠ TypeANY) (Question reqMsg) →
  handle absname HashName stepName useDNSSEC signResponse ToLower IsEdns0 sv reqMsg
    = Done (sv', m) →
  sv' = sv.
Proof.
  intros Hall. unfold handle.
  destruct (questionLoop absname HashName stepName useDNSSEC signResponse ToLower
              (Question reqMsg) (newTx IsEdns0 sv reqMsg)) as [tx| |] eqn:EQ;
    simpl; try discriminate.
  intros H. injection H as <- _.
  rewrite (questionLoop_server_same _ _ _ Hall EQ).
  unfold newTx. destruct (IsEdns0 reqMsg); reflexivity.
Qed.

End KeysUntouched.

Lemma handle_keeps_server_witness :
  ∃ sv' m, Zone.run_handle true Zone.server (Zone.query "host.example." TypeA)
           = Done (sv', m) ∧ sv' = Zone.server.
Proof.
  destruct (Zone.run_handle true Zone.server (Zone.query "host.example." TypeA))
    as [[sv' m]| |] eqn:E; [|vm_compute in E; discriminate E..].
  exists sv', m. split; [reflexivity|].
  refine (handle_keeps_server Zone.absname Zone.HashName Zone.stepName (fun _ => true)
            Zone.signResponse Zone.ToLower Zone.IsEdns0 _
            Zone.server sv' (Zone.query "host.example." TypeA) m _ E).
  - intros tx tx' e H. unfold Zone.signResponse in H. injection H as <- _. reflexivity.
  - constructor; [|constructor]. split; discriminate.
Defined.

(** * The answer to a question, and to a request *)

(** ** The apex of the zone *)

Lemma rrsetHasType_Some (rrs : list RR) (t : N) (rr : RR) :
  rrsetHasType rrs t = Some rr → rr ∈ rrs ∧ Rrtype (Hdr rr) = t.
Proof.
  induction rrs as [|r rest IH]; simpl; [discriminate|].
  destruct (N.eqb_spec (Rrtype (Hdr r)) t) as [E|].
  - intros H. injection H as <-. split; [constructor | exact E].
  - intros H. destruct (IH H) as [H1 H2]. split; [constructor; exact H1 | exact H2].
Qed.

Lemma rrsetHasType_existsb (rrs : list RR) (t : N) :
  existsb (isType t) rrs = match rrsetHasType rrs t with Some _ => true | None => false end.
Proof.
  induction rrs as [|r rest IH]; simpl; [reflexivity|].
  unfold isType at 1. destruct (Rrtype (Hdr r) =? t); [reflexivity | exact IH].
Qed.

Lemma blookup_soaAt (tx : Tx) (n : string) (rrs : list RR) :
  blookup tx n = (rrs, None) → soaAt (b (s tx)) n = rrsetHasType rrs TypeSOA.
Proof.
  unfold blookup, soaAt. destruct (b (s tx) n) as [rrs0 [e|]]; [discriminate|].
  destruct (length rrs0 =? 0)%nat; [discriminate|]. intros H. injection H as ->. reflexivity.
Qed.

Lemma bearsType_soaAt (tx : Tx) (n : string) :
  bearsType tx TypeSOA n = match soaAt (b (s tx)) n with Some _ => true | None => false end.
Proof.
  unfold bearsType, blookup, soaAt. destruct (b (s tx) n) as [rrs [e|]]; [reflexivity|].
  destruct rrs as [|r rest]; [reflexivity|]. cbn [length Nat.eqb].
  apply rrsetHasType_existsb.
Qed.

Section ApexSOA.

Variable absname : string -> string.

(** A pass that was entered without an apex leaves as the apex the first
    record typed SOA of the records it went through. *)
Lemma scan_apex (n norig : string) (rrs : list RR) :
  ∀ (todo : list RR) (st st' : WalkSt) (brk : bool),
    w_soa st = None →
    scan absname n norig rrs todo st = Done (st', brk) →
    w_soa st' = rrsetHasType todo TypeSOA.
Proof.
  induction todo as [|rr rest IH]; intros st st' brk Hsoa H; simpl in H.
  - injection H as <- _. exact Hsoa.
  - simpl. destruct (Rrtype (Hdr rr) =? TypeSOA).
    + unfold onSOA in H. rewrite Hsoa in H. unfold as_SOA in H.
      destruct (Rdata rr); simpl in H; try discriminate H.
      injection H as <- _.
      match goal with |- context [if ?c then _ else _] => destruct c end; reflexivity.
    + destruct (Rrtype (Hdr rr) =? TypeNS).
      * apply (IH _ _ _ ltac:(rewrite (proj1 (proj2 (proj2 (onNS_fields absname n norig rrs st))));
                              exact Hsoa) H).
      * apply (IH _ _ _ Hsoa H).
Qed.

Lemma walkLoop_apex (tx0 : Tx) (norig : string) :
  ∀ (fuel : nat) (n : string) (st w : WalkSt) (apex : RR),
    s (w_tx st) = s tx0 → w_soa st = None → w_firstSOAAtLen st = (-1)%Z →
    walkLoop absname fuel norig n st = Done w →
    w_soa w = Some apex →
    ∃ pre m, w_visited w = (pre ++ [m])%list ∧ soaAt (b (s tx0)) m = Some apex.
Proof.
  induction fuel as [|fuel IH]; intros n st w apex Hs Hsoa Hfs H Hap; simpl in H.
  - destruct (0 <? len n)%Z; [discriminate|]. injection H as <-. congruence.
  - destruct (Z.ltb_spec 0 (len n)) as [Hpos|Hnp]; [|injection H as <-; congruence].
    rewrite (blookup_server (w_tx st) tx0 n Hs) in H.
    destruct (blookup tx0 n) as [rrs err] eqn:EB.
    destruct (keepOriginal_fields n norig rrs err st) as (K1 & K2 & K3 & K4 & K5 & _).
    remember (keepOriginal n norig rrs err (noteLookup n st)) as st1 eqn:Est1.
    destruct err as [e|].
    + destruct (keepFirstErr_fields e st1) as (E1 & E2 & E3 & _).
      simpl in H. destruct (Z.ltb_spec (IndexDot n) 0).
      * injection H as <-. congruence.
      * eapply IH; [| | | exact H | exact Hap]; congruence.
    + destruct (scan absname n norig rrs rrs st1) as [[st2 brk]| |] eqn:ES;
        simpl in H; try discriminate.
      destruct (scan_spec absname n norig rrs Hpos rrs st1 st2 brk ltac:(congruence)
                  ltac:(congruence) ES) as (S1 & _ & S3 & _ & _ & _ & S7 & _).
      pose proof (scan_apex n norig rrs rrs st1 st2 brk ltac:(congruence) ES) as SA.
      destruct brk.
      * injection H as <-. exists (w_visited st), n. split; [congruence|].
        rewrite (blookup_soaAt tx0 n rrs EB). congruence.
      * destruct (S7 eq_refl) as (Hs0 & Hf0 & _).
        destruct (Z.ltb_spec (IndexDot n) 0).
        -- injection H as <-. congruence.
        -- eapply IH; [| | | exact H | exact Hap]; congruence.
Qed.

(** The apex the walk leaves is the apex SOA of the zone of the queried
    name. *)
Lemma walk_apex (tx : Tx) (w : WalkSt) (apex : RR) :
  walk absname tx = Done w → w_soa w = Some apex →
  apexOf (b (s tx)) (qname tx) apex ∧ Rrtype (Hdr apex) = TypeSOA ∧
  ∃ pre m, w_visited w = (pre ++ [m])%list ∧ soaAt (b (s tx)) m = Some apex ∧
           Forall (fun v => soaAt (b (s tx)) v = None) pre.
Proof.
  intros Hw Hap.
  destruct (walkLoop_apex tx (TrimRightDot (qname tx))
              (S (String.length (TrimRightDot (qname tx)))) (TrimRightDot (qname tx))
              (walkInit tx) w apex eq_refl eq_refl eq_refl Hw Hap) as (pre & m & Hv & Hm).
  destruct (walk_post absname tx w Hw) as (_ & _ & _ & Hcase).
  destruct Hcase as [[Hn _] | (a & pre' & m' & _ & Hv' & _ & Hpre & _)]; [congruence|].
  rewrite Hv in Hv'. apply app_inj_tail in Hv' as [<- <-].
  destruct (walk_trace absname tx w Hw) as (_ & [k Hk] & _).
  assert (Hpre0 : Forall (fun v => soaAt (b (s tx)) v = None) pre).
  { eapply Forall_impl; [exact Hpre|]. simpl. intros v [Hb _].
    rewrite bearsType_soaAt in Hb. destruct (soaAt (b (s tx)) v); [discriminate | reflexivity]. }
  split_and!.
  - exists pre, m, k. split_and!; [|exact Hpre0|exact Hm].
    rewrite Hk, Hv, <- app_assoc. reflexivity.
  - unfold soaAt in Hm. destruct (b (s tx) m) as [rrs [e|]]; [discriminate|].
    apply rrsetHasType_Some in Hm. apply Hm.
  - exists pre, m. auto.
Qed.

(** After a branch that returned no error, [tx.soa] is the apex SOA of
    the zone of the queried name. *)
Lemma addAnswersMain_apex (tx tx1 : Tx) (apex : RR) :
  addAnswersMain absname tx = Done (tx1, None) → soa tx1 = Some apex →
  apexOf (b (s tx)) (qname tx) apex ∧ Rrtype (Hdr apex) = TypeSOA.
Proof.
  unfold addAnswersMain. destruct (walk absname tx) as [w| |] eqn:E; simpl; try discriminate.
  destruct (w_soa w) as [a|] eqn:Ea; [|discriminate].
  intros H Hsoa.
  assert (Hs : soa tx1 = Some a).
  { destruct (w_firstNSAtLen w <=? w_firstSOAAtLen w)%Z.
    - apply addAnswersAuthoritative_extends in H. destruct H as [_ ->]. reflexivity.
    - apply addAnswersDelegation_extends in H. destruct H as [_ ->]. reflexivity. }
  rewrite Hs in Hsoa. injection Hsoa as ->.
  destruct (walk_apex tx w apex E Ea) as (H1 & H2 & _). auto.
Qed.

End ApexSOA.

(** ** What a request writes to the server *)

Section KeyNames.

Variable absname : string -> string.
Variable HashName : string -> N -> N -> string -> string.
Variable stepName : string -> string.
Variable useDNSSEC : Tx -> bool.
Variable signResponse : Tx -> run (Tx * option error).
Variable ToLower : string -> string.
Variable IsEdns0 : Msg -> option RR.

(** [signResponse] is declared outside [ncdns.go]; it is taken not to
    write to the server. *)
Hypothesis signResponse_server :
  ∀ (tx tx' : Tx) (e : option error), signResponse tx = Done (tx', e) → s tx' = s tx.




End KeyNames.



(** ** DNSKEY at the apex *)

Section ApexKeys.

Variable absname : string -> string.
Variable HashName : string -> N -> N -> string -> string.
Variable stepName : string -> string.
Variable useDNSSEC : Tx -> bool.
Variable signResponse : Tx -> run (Tx * option error).

(** When the queried name itself bears the apex SOA, the walk stops at
    its first turn and the authoritative branch is taken on the records of
    that name. *)
Lemma walk_apex_at_qname (tx : Tx) (w : WalkSt) (apex : RR) :
  walk absname tx = Done w → w_soa w = Some apex →
  bearsType tx TypeSOA (TrimRightDot (qname tx)) = true →
  (w_firstNSAtLen w <= w_firstSOAAtLen w)%Z ∧
  blookup tx (TrimRightDot (qname tx)) = (w_origq w, None) ∧ w_origerr w = None.
Proof.
  intros Hw Hap Hb.
  destruct (walk_post absname tx w Hw) as (_ & _ & Porig & Pcase).
  destruct Pcase as [[Hn _] | (a & pre & m & _ & Hv & Hbm & Hpre & Hf & Hpos & Hns)];
    [congruence|].
  assert (Hne : w_visited w ≠ []) by (rewrite Hv; destruct pre; discriminate).
  destruct (Porig Hne) as [Hq He].
  destruct (walk_trace absname tx w Hw) as (_ & [k Hk] & _).
  assert (Hlen : (0 < len (TrimRightDot (qname tx)))%Z).
  { destruct (Z.ltb_spec 0 (len (TrimRightDot (qname tx)))) as [|Hle]; [assumption|].
    rewrite (walkNames_empty _ Hle), Hv in Hk. destruct pre; discriminate Hk. }
  rewrite (walkNames_unfold _ Hlen), Hv in Hk.
  assert (Hpre0 : pre = []).
  { destruct pre as [|p pre']; [reflexivity|]. simpl in Hk. injection Hk as Hp _.
    inversion Hpre as [|? ? [Hno _] _]; subst. congruence. }
  subst pre. simpl in Hk. injection Hk as Hm _.
  unfold bearsType in Hb. destruct (blookup tx (TrimRightDot (qname tx))) as [rrs [e|]] eqn:EB;
    [discriminate|]. simpl in Hq, He.
  split_and!; [|congruence|exact He].
  rewrite Hf. destruct Hns as [[_ [E | [E _]]] | [X _]]; [lia | lia | inversion X].
Qed.

(** At the apex, the resolver is the authoritative branch, run on the
    records of the queried name and on a transaction with the question,
    the response and the types it was called with. *)
Lemma addAnswersMain_at_apex (tx tx1 : Tx) :
  addAnswersMain absname tx = Done (tx1, None) →
  bearsType tx TypeSOA (TrimRightDot (qname tx)) = true →
  ∃ (t : Tx) (rrs : list RR),
    blookup tx (TrimRightDot (qname tx)) = (rrs, None) ∧
    qtype t = qtype tx ∧ res t = res tx ∧ typesAtQname t = typesAtQname tx ∧
    addAnswersAuthoritative rrs None t = Done (tx1, None).
Proof.
  intros Hmain Hb. unfold addAnswersMain in Hmain.
  destruct (walk absname tx) as [w| |] eqn:Hw; simpl in Hmain; try discriminate.
  destruct (w_soa w) as [a|] eqn:Ea; [|discriminate].
  destruct (walk_apex_at_qname tx w a Hw Ea Hb) as (Hle & Hlook & Herr).
  destruct (Z.leb_spec (w_firstNSAtLen w) (w_firstSOAAtLen w)); [|lia].
  rewrite Herr in Hmain.
  exists (setSoa (Some a) (w_tx w)), (w_origq w).
  split; [exact Hlook|]. split_and!; [| | |exact Hmain].
  - destruct (walk_extends absname tx w Hw) as [(_ & _ & Hqw & _) _]. exact Hqw.
  - destruct (walk_post absname tx w Hw) as (_ & Pr & _). exact Pr.
  - destruct (walk_trace absname tx w Hw) as (Tr & _).
    destruct Tr as [(_ & -> & _) | (p & m & mid & p' & l & post' & _ & _ & _ & _ & -> & _)];
      [reflexivity|].
    unfold markDelegation. destruct (String.eqb m (TrimRightDot (qname tx))); reflexivity.
Qed.

(** C7, as amended: once the chosen branch has returned without an error
    with the apex SOA set, which is the apex SOA of the zone of the
    queried name. When SOA is among the types at the queried name, DNSKEY
    is added to them; and when moreover the query type matches DNSKEY, the
    server's KSK and ZSK are appended to Answer in this order, their owner
    name being the owner name of the apex SOA and their other fields the
    ones they had, and [consolationSOA] is cleared. When SOA is not among
    the types, the step changes nothing. SOA is among the types whenever
    the queried name itself bears the apex SOA and the alias case did not
    apply (its records hold no CNAME, or the query type matches CNAME);
    when the alias case applies there, the alias alone is appended to
    Answer and the types are left as they were before the question.
    The transaction then handed to [signResponse] has that Answer section,
    those types and that server, and, for a DNSKEY query at the apex, the
    Authority section the branch left. *)
Theorem dnskey_at_apex (tx tx1 : Tx) (apex : RR) :
  addAnswersMain absname tx = Done (tx1, None) →
  soa tx1 = Some apex →
  apexOf (b (s tx)) (qname tx) apex ∧ qtype tx1 = qtype tx ∧
  (TypeSOA ∈ typesAtQname tx1 →
   typesAtQname (addApexDNSKEY tx1) = {[TypeDNSKEY]} ∪ typesAtQname tx1 ∧
   TypeDNSKEY ∈ typesAtQname (addApexDNSKEY tx1) ∧
   (istype tx1 TypeDNSKEY = true →
    Answer (res (addApexDNSKEY tx1)) = (Answer (res tx1) ++ [PtrKSK; PtrZSK])%list ∧
    Name (Hdr (deref (s (addApexDNSKEY tx1)) PtrKSK)) = Name (Hdr apex) ∧
    Name (Hdr (deref (s (addApexDNSKEY tx1)) PtrZSK)) = Name (Hdr apex) ∧
    Rrtype (Hdr (deref (s (addApexDNSKEY tx1)) PtrKSK)) = Rrtype (KHdr (ksk (s tx1))) ∧
    Class (Hdr (deref (s (addApexDNSKEY tx1)) PtrKSK)) = Class (KHdr (ksk (s tx1))) ∧
    Ttl (Hdr (deref (s (addApexDNSKEY tx1)) PtrKSK)) = Ttl (KHdr (ksk (s tx1))) ∧
    Rdata (deref (s (addApexDNSKEY tx1)) PtrKSK)
      = RD_DNSKEY (KFlags (ksk (s tx1))) (KProtocol (ksk (s tx1)))
                  (KAlgorithm (ksk (s tx1))) (KPublicKey (ksk (s tx1))) ∧
    Rrtype (Hdr (deref (s (addApexDNSKEY tx1)) PtrZSK)) = Rrtype (KHdr (zsk (s tx1))) ∧
    Class (Hdr (deref (s (addApexDNSKEY tx1)) PtrZSK)) = Class (KHdr (zsk (s tx1))) ∧
    Ttl (Hdr (deref (s (addApexDNSKEY tx1)) PtrZSK)) = Ttl (KHdr (zsk (s tx1))) ∧
    Rdata (deref (s (addApexDNSKEY tx1)) PtrZSK)
      = RD_DNSKEY (KFlags (zsk (s tx1))) (KProtocol (zsk (s tx1)))
                  (KAlgorithm (zsk (s tx1))) (KPublicKey (zsk (s tx1))) ∧
    consolationSOA (addApexDNSKEY tx1) = false) ∧
   (istype tx1 TypeDNSKEY = false →
    Answer (res (addApexDNSKEY tx1)) = Answer (res tx1) ∧
    s (addApexDNSKEY tx1) = s tx1 ∧
    consolationSOA (addApexDNSKEY tx1) = consolationSOA tx1)) ∧
  (TypeSOA ∉ typesAtQname tx1 → addApexDNSKEY tx1 = tx1) ∧
  (bearsType tx TypeSOA (TrimRightDot (qname tx)) = true →
   rrsetHasType (blookup tx (TrimRightDot (qname tx))).1 TypeCNAME = None ∨
   istype tx TypeCNAME = true →
   TypeSOA ∈ typesAtQname tx1 ∧ TypeDNSKEY ∈ typesAtQname (addApexDNSKEY tx1)) ∧
  (bearsType tx TypeSOA (TrimRightDot (qname tx)) = true →
   ∀ cn, rrsetHasType (blookup tx (TrimRightDot (qname tx))).1 TypeCNAME = Some cn →
         istype tx TypeCNAME = false →
         Answer (res tx1) = (Answer (res tx) ++ [Own cn])%list ∧
         typesAtQname tx1 = typesAtQname tx ∧
         (TypeDNSKEY ∈ typesAtQname (addApexDNSKEY tx1) ↔
          TypeSOA ∈ typesAtQname tx ∨ TypeDNSKEY ∈ typesAtQname tx)) ∧
  ∃ tx4,
    addAnswers absname HashName stepName useDNSSEC signResponse tx = signResponse tx4 ∧
    Answer (res tx4) = Answer (res (addApexDNSKEY tx1)) ∧
    typesAtQname tx4 = typesAtQname (addApexDNSKEY tx1) ∧
    s tx4 = s (addApexDNSKEY tx1) ∧
    (TypeSOA ∈ typesAtQname tx1 → istype tx1 TypeDNSKEY = true →
     Ns (res tx4) = Ns (res tx1)).
Proof.
  intros Hmain Hsoa.
  assert (Hblock : TypeSOA ∈ typesAtQname tx1 →
                   addApexDNSKEY tx1
                   = addType TypeDNSKEY
                       (if istype tx1 TypeDNSKEY then
                          setConsolationSOA false
                            (updRes (appendAnswer [PtrZSK])
                               (updRes (appendAnswer [PtrKSK])
                                  (setServer
                                     (mkServer (setKeyName (Name (Hdr apex)) (ksk (s tx1)))
                                               (kskPrivate (s tx1))
                                               (setKeyName (Name (Hdr apex)) (zsk (s tx1)))
                                               (zskPrivate (s tx1)) (cfg (s tx1)) (b (s tx1)))
                                     tx1)))
                        else tx1)).
  { intros Htypes. unfold addApexDNSKEY.
    rewrite Hsoa, (bool_decide_eq_true_2 _ Htypes). reflexivity. }
  assert (Hrec : TypeSOA ∈ typesAtQname tx1 →
                 typesAtQname (addApexDNSKEY tx1) = {[TypeDNSKEY]} ∪ typesAtQname tx1).
  { intros Htypes. rewrite (Hblock Htypes). destruct (istype tx1 TypeDNSKEY); reflexivity. }
  assert (Hq : qtype tx1 = qtype tx).
  { destruct (addAnswersMain_extends absname tx tx1 None Hmain) as [(_ & _ & Hq & _) _].
    exact Hq. }
  split; [apply (addAnswersMain_apex absname tx tx1 apex Hmain Hsoa)|].
  split; [exact Hq|].
  assert (Hnone : TypeSOA ∉ typesAtQname tx1 → addApexDNSKEY tx1 = tx1).
  { intros Hno. unfold addApexDNSKEY. rewrite Hsoa, (bool_decide_eq_false_2 _ Hno).
    reflexivity. }
  split; [|split; [exact Hnone|split; [|split]]].
  - intros Htypes. split; [exact (Hrec Htypes)|]. split.
    + rewrite (Hrec Htypes). apply elem_of_union_l, elem_of_singleton. reflexivity.
    + split.
      * intros Hd. rewrite (Hblock Htypes), Hd. simpl. rewrite <- app_assoc.
        split_and!; reflexivity.
      * intros Hd. rewrite (Hblock Htypes), Hd. simpl. split_and!; reflexivity.
  - intros Hb Halias.
    destruct (addAnswersMain_at_apex tx tx1 Hmain Hb) as (t & rrs & Hlook & Hqt & _ & _ & Hbr).
    rewrite Hlook in Halias. simpl in Halias.
    assert (Htypes : TypeSOA ∈ typesAtQname tx1).
    { assert (E : addAnswersAuthoritative rrs None t
                  = Done (match Answer (res (fold_left addRequested rrs t)) with
                          | [] => setConsolationSOA true (fold_left addRequested rrs t)
                          | _ :: _ => fold_left addRequested rrs t
                          end, None)).
      { unfold addAnswersAuthoritative. destruct Halias as [-> | Hc]; [reflexivity|].
        destruct (rrsetHasType rrs TypeCNAME); [|reflexivity].
        assert (Hc' : istype t TypeCNAME = true).
        { unfold istype in *. rewrite Hqt. exact Hc. }
        rewrite Hc'. reflexivity. }
      rewrite E in Hbr. injection Hbr as <-.
      assert (Hin : TypeSOA ∈ typesAtQname (fold_left addRequested rrs t)).
      { rewrite fold_addRequested. simpl. apply elem_of_fold_types. right.
        unfold bearsType in Hb. rewrite Hlook in Hb.
        apply existsb_exists in Hb as (rr & Hin & Ht).
        exists rr. split; [apply list_elem_of_In, Hin | apply N.eqb_eq, Ht]. }
      destruct (Answer (res (fold_left addRequested rrs t))); exact Hin. }
    split; [exact Htypes|]. rewrite (Hrec Htypes).
    apply elem_of_union_l, elem_of_singleton. reflexivity.
  - intros Hb cn Hcn Hc.
    destruct (addAnswersMain_at_apex tx tx1 Hmain Hb) as (t & rrs & Hlook & Hqt & Hr & Ht & Hbr).
    rewrite Hlook in Hcn. simpl in Hcn.
    assert (Hc' : istype t TypeCNAME = false).
    { unfold istype in *. rewrite Hqt. exact Hc. }
    unfold addAnswersAuthoritative in Hbr. rewrite Hcn, Hc' in Hbr. simpl in Hbr.
    unfold as_CNAME in Hbr. destruct (Rdata cn); try discriminate Hbr.
    unfold addAnswersCNAME in Hbr. injection Hbr as <-. simpl.
    rewrite Hr, Ht. split; [reflexivity|]. split; [reflexivity|].
    destruct (decide (TypeSOA ∈ typesAtQname tx)) as [Hin | Hno].
    + assert (Hin1 : TypeSOA ∈ typesAtQname (updRes (appendAnswer [Own cn]) t))
        by (simpl; rewrite Ht; exact Hin).
      rewrite (Hrec Hin1). simpl. rewrite Ht. split; [auto|]. intros _.
      apply elem_of_union_l, elem_of_singleton. reflexivity.
    + assert (Hno1 : TypeSOA ∉ typesAtQname (updRes (appendAnswer [Own cn]) t))
        by (simpl; rewrite Ht; exact Hno).
      rewrite (Hnone Hno1). simpl. rewrite Ht. tauto.
  - destruct (addAnswers_after_branch absname HashName stepName useDNSSEC signResponse
                tx tx1 apex Hmain Hsoa) as (tx3 & l & HN & HA).
    exists (updRes (appendExtra l) tx3). split; [exact HA|].
    assert (Hsoa2 : soa (addConsolationSOA (addApexDNSKEY tx1)) = Some apex)
      by (rewrite soa_addConsolationSOA, soa_addApexDNSKEY; exact Hsoa).
    destruct (addNSEC_frame absname HashName stepName useDNSSEC _ _ _ _ Hsoa2 HN)
      as (H1 & H2 & H3 & H4).
    destruct (addConsolationSOA_frame (addApexDNSKEY tx1)) as (C1 & C2 & C3 & C4).
    simpl. rewrite H1, H2, H3, C1, C2, C3. split_and!; try reflexivity.
    intros Htypes Hd. rewrite H4, C4.
    + rewrite (Hblock Htypes), Hd. reflexivity.
    + rewrite (Hblock Htypes), Hd. reflexivity.
    + rewrite C1, (Hblock Htypes), Hd. simpl. intros E. apply app_eq_nil in E as [E _].
      apply app_eq_nil in E as [_ E]. discriminate.
Qed.

End ApexKeys.

Lemma dnskey_at_apex_witness :
  ∃ tx1 tx4,
    addAnswersMain Zone.absname (Zone.txFor Zone.server "example." TypeDNSKEY)
      = Done (tx1, None) ∧
    soa tx1 = Some Zone.soaRR ∧
    TypeDNSKEY ∈ typesAtQname (addApexDNSKEY tx1) ∧
    Answer (res (addApexDNSKEY tx1)) = (Answer (res tx1) ++ [PtrKSK; PtrZSK])%list ∧
    Name (Hdr (deref (s (addApexDNSKEY tx1)) PtrKSK)) = "example." ∧
    Name (Hdr (deref (s (addApexDNSKEY tx1)) PtrZSK)) = "example." ∧
    Zone.run_addAnswers true (Zone.txFor Zone.server "example." TypeDNSKEY)
      = Zone.signResponse tx4 ∧
    Answer (res tx4) = Answer (res (addApexDNSKEY tx1)).
Proof.
  destruct (addAnswersMain Zone.absname (Zone.txFor Zone.server "example." TypeDNSKEY))
    as [[tx1 [e|]]| |] eqn:E; [vm_compute in E; discriminate E | | vm_compute in E; discriminate E..].
  assert (Hs : soa tx1 = Some Zone.soaRR ∧ istype tx1 TypeDNSKEY = true).
  { pose proof E as E'. vm_compute in E'. injection E' as <-. split; reflexivity. }
  destruct Hs as [Hs Hd].
  destruct (dnskey_at_apex Zone.absname Zone.HashName Zone.stepName (fun _ => true)
              Zone.signResponse (Zone.txFor Zone.server "example." TypeDNSKEY)
              tx1 Zone.soaRR E Hs) as (_ & _ & Hrec & _ & Hat & _ & tx4 & H1 & H2 & _).
  destruct Hat as [Htypes Hkey]; [vm_compute; reflexivity | left; vm_compute; reflexivity |].
  destruct (Hrec Htypes) as (_ & _ & Hkeys & _).
  destruct (Hkeys Hd) as (K1 & K2 & K3 & _).
  exists tx1, tx4. split_and!; try assumption; reflexivity.
Defined.

(** C7, as stated, fails at an apex that bears an alias: [example.] has
    records typed SOA, NS and CNAME, and the question [example. A] is
    answered by the alias alone. The apex SOA is at the queried name, and
    the branch returns without recording a type, so that neither SOA nor
    DNSKEY is among the types at the queried name. *)
Lemma apex_alias_counterexample :
  bearsType (Zone.txFor Zone.aliasedServer "example." TypeA) TypeSOA "example" = true ∧
  ∃ tx1 tx5,
    addAnswersMain Zone.absname (Zone.txFor Zone.aliasedServer "example." TypeA)
      = Done (tx1, None) ∧
    soa tx1 = Some Zone.soaRR ∧
    Answer (res tx1) = [Own Zone.apexCNAME] ∧
    (TypeSOA ∉ typesAtQname tx1) ∧
    (TypeDNSKEY ∉ typesAtQname (addApexDNSKEY tx1)) ∧
    Zone.run_addAnswers true (Zone.txFor Zone.aliasedServer "example." TypeA)
      = Done (tx5, None) ∧
    (TypeDNSKEY ∉ typesAtQname tx5).
Proof.
  split; [reflexivity|].
  eexists. eexists. split; [vm_compute; reflexivity|].
  split; [reflexivity|]. split; [reflexivity|].
  split; [intros H; vm_compute in H; discriminate H|].
  split; [intros H; vm_compute in H; discriminate H|].
  split; [vm_compute; reflexivity|].
  intros H; vm_compute in H; discriminate H.
Qed.

(** ** NSEC3 denial in the response *)

Lemma addAnswersAuthoritative_ns (rrs : list RR) (e e' : option error) (tx tx' : Tx) :
  addAnswersAuthoritative rrs e tx = Done (tx', e') → Ns (res tx') = Ns (res tx).
Proof.
  assert (Hall : ∀ (t : Tx) (e0 : option error),
             Done (match Answer (res (fold_left addRequested rrs tx)) with
                   | [] => setConsolationSOA true (fold_left addRequested rrs tx)
                   | _ :: _ => fold_left addRequested rrs tx
                   end, None) = Done (t, e0) → Ns (res t) = Ns (res tx)).
  { intros t e0 H. injection H as <- _. rewrite fold_addRequested.
    destruct (Answer _); reflexivity. }
  unfold addAnswersAuthoritative. destruct e as [e|].
  - intros H. injection H as <- _. reflexivity.
  - destruct (rrsetHasType rrs TypeCNAME) as [cn|]; [|apply Hall].
    destruct (negb (istype tx TypeCNAME)); [|apply Hall].
    destruct (as_CNAME cn); [|discriminate].
    unfold addAnswersCNAME. intros H. injection H as <- _. reflexivity.
Qed.

Lemma addReferral_ns (nss : list RR) :
  ∀ tx tx' : Tx,
    addReferral nss tx = Done tx' →
    Ns (res tx') = (Ns (res tx) ++ map Own (List.filter isNSorDS nss))%list.
Proof.
  induction nss as [|ns rest IH]; intros tx tx' H; simpl in H.
  - injection H as <-. simpl. rewrite app_nil_r. reflexivity.
  - simpl. unfold isNSorDS at 1, isType.
    destruct (Rrtype (Hdr ns) =? TypeNS); simpl in H |- *.
    + destruct (as_NS ns); simpl in H; [|discriminate].
      apply IH in H. rewrite H.
      destruct (Rrtype (Hdr ns) =? TypeDS); simpl; rewrite <- app_assoc; reflexivity.
    + apply IH in H. rewrite H.
      destruct (Rrtype (Hdr ns) =? TypeDS); simpl; rewrite <- ?app_assoc; reflexivity.
Qed.

Section Denial.

Variable absname : string -> string.
Variable HashName : string -> N -> N -> string -> string.
Variable stepName : string -> string.
Variable useDNSSEC : Tx -> bool.
Variable signResponse : Tx -> run (Tx * option error).

(** The branch appends to the Authority section only records typed NS or
    DS. *)
Lemma addAnswersMain_ns (tx tx1 : Tx) (e : option error) :
  addAnswersMain absname tx = Done (tx1, e) →
  ∃ l, Ns (res tx1) = (Ns (res tx) ++ map Own l)%list ∧
       Forall (fun rr => Rrtype (Hdr rr) = TypeNS ∨ Rrtype (Hdr rr) = TypeDS) l.
Proof.
  unfold addAnswersMain. destruct (walk absname tx) as [w| |] eqn:E; simpl; try discriminate.
  destruct (walk_post absname tx w E) as (_ & Pr & _).
  assert (Hnone : ∀ t : Tx, Ns (res t) = Ns (res tx) →
                            ∃ l, Ns (res t) = (Ns (res tx) ++ map Own l)%list ∧
                                 Forall (fun rr => Rrtype (Hdr rr) = TypeNS ∨
                                                   Rrtype (Hdr rr) = TypeDS) l).
  { intros t Ht. exists []. simpl. rewrite app_nil_r. split; [exact Ht | constructor]. }
  destruct (w_soa w) as [a|].
  - destruct (w_firstNSAtLen w <=? w_firstSOAAtLen w)%Z; intros H.
    + apply addAnswersAuthoritative_ns in H. apply Hnone. rewrite H. simpl. rewrite Pr.
      reflexivity.
    + unfold addAnswersDelegation in H.
      destruct ((qtype (setSoa (Some a) (w_tx w)) =? TypeDS)
                && queryIsAtDelegationPoint (setSoa (Some a) (w_tx w))).
      * rewrite addDSAnswers_spec in H. simpl in H. injection H as <- _. apply Hnone.
        destruct (existsb (isType TypeDS) (w_nss w)); simpl; rewrite Pr; reflexivity.
      * destruct (addReferral (w_nss w) (updRes (setAuthoritative false)
                                                 (setSoa (Some a) (w_tx w))))
          as [t| |] eqn:ER; simpl in H; try discriminate.
        injection H as <- _. apply addReferral_ns in ER. simpl in ER. rewrite Pr in ER.
        exists (List.filter isNSorDS (w_nss w)). split; [exact ER|].
        apply Forall_forall. intros rr Hin. apply list_elem_of_In, filter_In in Hin as [_ Hin].
        unfold isNSorDS, isType in Hin. apply orb_true_iff in Hin.
        destruct Hin as [Hin | Hin]; apply N.eqb_eq in Hin; auto.
  - intros H. injection H as <- _. apply Hnone. rewrite Pr. reflexivity.
Qed.

(** C4, as amended: for a question whose branch has returned without an
    error, with the apex SOA of the zone of the queried name. Among the
    records the resolver adds to the Authority section of the response it
    hands to [signResponse] there is one typed NSEC3 if and only if DNSSEC
    is in use, [suppressNSEC] is false and the Answer section is empty.
    That record is appended last, after the consolation SOA; it is owned
    by the absolute form of [H(qname) . apex], where [H] is [HashName]
    with SHA-1, 1 iteration and salt [8F]; it has type NSEC3, class INET,
    TTL 600, flags 0, salt length 1, the stepped hash as next domain, and
    the strictly increasing list of exactly the types of [typesAtQname] as
    its bit-map. Otherwise nothing is appended after the consolation
    step. *)
Theorem nsec3_denial (tx tx1 : Tx) (apex : RR) :
  addAnswersMain absname tx = Done (tx1, None) →
  soa tx1 = Some apex →
  let tx2 := addConsolationSOA (addApexDNSKEY tx1) in
  let h := HashName (qname tx) SHA1 1 "8F" in
  apexOf (b (s tx)) (qname tx) apex ∧
  ∃ (tx4 : Tx) (added : list RRptr),
    addAnswers absname HashName stepName useDNSSEC signResponse tx = signResponse tx4 ∧
    Ns (res tx4) = (Ns (res tx) ++ added)%list ∧
    Answer (res tx4) = Answer (res tx2) ∧
    suppressNSEC tx4 = suppressNSEC tx2 ∧
    ((∃ p, p ∈ added ∧ Rrtype (Hdr (deref (s tx4) p)) = TypeNSEC3) ↔
     useDNSSEC tx2 = true ∧ suppressNSEC tx4 = false ∧ Answer (res tx4) = []) ∧
    (useDNSSEC tx2 = true ∧ suppressNSEC tx4 = false ∧ Answer (res tx4) = [] →
     ∃ (r : RR) (tbm : list N),
       Ns (res tx4) = (Ns (res tx2) ++ [Own r])%list ∧
       Hdr r = mkHdr (absname (h ++ "." ++ Name (Hdr apex))) TypeNSEC3 ClassINET 600 ∧
       Rdata r = RD_NSEC3 SHA1 0 1 1 "8F"
                   (N.of_nat (String.length (stepName h)) mod 256) (stepName h) tbm ∧
       StronglySorted N.lt tbm ∧
       (∀ t, t ∈ tbm ↔ t ∈ typesAtQname tx4)) ∧
    (¬ (useDNSSEC tx2 = true ∧ suppressNSEC tx4 = false ∧ Answer (res tx4) = []) →
     Ns (res tx4) = Ns (res tx2)).
Proof.
  intros Hmain Hsoa tx2 h.
  destruct (addAnswersMain_apex absname tx tx1 apex Hmain Hsoa) as [Hapex Htype].
  split; [exact Hapex|].
  destruct (addAnswers_after_branch absname HashName stepName useDNSSEC signResponse
              tx tx1 apex Hmain Hsoa) as (tx3 & l & HN & HA).
  assert (Hs1 : soa (addApexDNSKEY tx1) = Some apex) by (rewrite soa_addApexDNSKEY; exact Hsoa).
  assert (Hs2 : soa tx2 = Some apex) by (unfold tx2; rewrite soa_addConsolationSOA; exact Hs1).
  fold tx2 in HN.
  rewrite (addNSEC_cases absname HashName stepName useDNSSEC tx2 apex Hs2) in HN.
  injection HN as <-.
  destruct (addAnswersMain_ns tx tx1 None Hmain) as (lb & Hlb & Hall).
  destruct (addApexDNSKEY_fields tx1) as (F1 & _ & _).
  assert (Hns2 : Ns (res tx2)
                 = (Ns (res tx) ++ map Own lb
                    ++ (if consolationSOA (addApexDNSKEY tx1) then [Own apex] else []))%list).
  { unfold tx2, addConsolationSOA. rewrite Hs1.
    destruct (consolationSOA (addApexDNSKEY tx1)); simpl; rewrite F1, Hlb, <- ?app_assoc;
      rewrite ?app_nil_r; reflexivity. }
  assert (Hqn : qname tx2 = qname tx).
  { destruct (addAnswersMain_extends absname tx tx1 None Hmain) as [(_ & Q1 & _) _].
    destruct (addApexDNSKEY_extends tx1) as (_ & Q2 & _).
    destruct (addConsolationSOA_extends (addApexDNSKEY tx1)) as (_ & Q3 & _).
    unfold tx2. congruence. }
  assert (Hold : ∀ p, p ∈ (map Own lb ++ (if consolationSOA (addApexDNSKEY tx1)
                                          then [Own apex] else []))%list →
                      ∀ sv, Rrtype (Hdr (deref sv p)) ≠ TypeNSEC3).
  { intros p Hp sv. apply elem_of_app in Hp as [Hp | Hp].
    - apply list_elem_of_fmap in Hp as (rr & -> & Hin). simpl.
      rewrite Forall_forall in Hall. destruct (Hall rr Hin) as [-> | ->]; discriminate.
    - destruct (consolationSOA (addApexDNSKEY tx1)); [|inversion Hp].
      apply list_elem_of_singleton in Hp as ->. simpl. rewrite Htype. discriminate. }
  set (r := nsec3For absname HashName stepName tx2 (typesAtQname tx2) apex).
  assert (Hrec : Hdr r = mkHdr (absname (h ++ "." ++ Name (Hdr apex)))
                               TypeNSEC3 ClassINET 600 ∧
                 Rdata r = RD_NSEC3 SHA1 0 1 1 "8F"
                             (N.of_nat (String.length (stepName h)) mod 256) (stepName h)
                             (sortTypes (elements (typesAtQname tx2)))).
  { unfold r, nsec3For, h. rewrite Hqn. split; reflexivity. }
  destruct Hrec as [Hhdr Hrd].
  destruct (useDNSSEC tx2) eqn:EU, (suppressNSEC tx2) eqn:ES, (Answer (res tx2)) eqn:EA;
    simpl;
    try (exists (updRes (appendExtra l) tx2),
           (map Own lb ++ (if consolationSOA (addApexDNSKEY tx1) then [Own apex] else []))%list;
         split; [exact HA|]; simpl; rewrite Hns2, ES, EA;
         split; [reflexivity|]; split; [reflexivity|]; split; [reflexivity|];
         split; [split; [intros (p & Hp & Ht); exfalso; exact (Hold p Hp _ Ht)
                        | intros (? & ? & ?); discriminate]|];
         split; [intros (? & ? & ?); discriminate | reflexivity]).
  exists (updRes (appendExtra l) (updRes (appendNs [Own r]) tx2)),
         ((map Own lb ++ (if consolationSOA (addApexDNSKEY tx1) then [Own apex] else []))
          ++ [Own r])%list.
  split; [exact HA|]. simpl. rewrite Hns2, ES, EA.
  split; [rewrite <- !app_assoc; reflexivity|].
  split; [reflexivity|]. split; [reflexivity|].
  split; [|split].
  - split; [auto|]. intros _. exists (Own r). split.
    + apply elem_of_app. right. constructor.
    + reflexivity.
  - intros _. exists r, (sortTypes (elements (typesAtQname tx2))).
    split_and!; [reflexivity | exact Hhdr | exact Hrd | apply sortTypes_sorted |].
    intros t. rewrite sortTypes_elem. apply elem_of_elements.
  - intros Hn. exfalso. apply Hn. auto.
Qed.

End Denial.

Lemma nsec3_denial_witness :
  ∃ tx1 tx4 added,
    addAnswersMain Zone.absname (Zone.txFor Zone.server "host.example." 15)
      = Done (tx1, None) ∧
    Zone.run_addAnswers true (Zone.txFor Zone.server "host.example." 15)
      = Zone.signResponse tx4 ∧
    Ns (res tx4) = (Ns (res (Zone.txFor Zone.server "host.example." 15)) ++ added)%list ∧
    ∃ p, p ∈ added ∧ Rrtype (Hdr (deref (s tx4) p)) = TypeNSEC3.
Proof.
  destruct (addAnswersMain Zone.absname (Zone.txFor Zone.server "host.example." 15))
    as [[tx1 [e|]]| |] eqn:E; [vm_compute in E; discriminate E | | vm_compute in E; discriminate E..].
  assert (Hs : soa tx1 = Some Zone.soaRR ∧
               suppressNSEC (addConsolationSOA (addApexDNSKEY tx1)) = false ∧
               Answer (res (addConsolationSOA (addApexDNSKEY tx1))) = []).
  { pose proof E as E'. vm_compute in E'. injection E' as <-. split_and!; reflexivity. }
  destruct Hs as (Hs & Hsup & Hans).
  destruct (nsec3_denial Zone.absname Zone.HashName Zone.stepName (fun _ => true)
              Zone.signResponse (Zone.txFor Zone.server "host.example." 15)
              tx1 Zone.soaRR E Hs) as (_ & tx4 & added & H1 & H2 & H3 & H4 & H5 & _).
  exists tx1, tx4, added. split; [reflexivity|]. split; [exact H1|]. split; [exact H2|].
  apply H5. rewrite H4, H3. split_and!; [reflexivity | exact Hsup | exact Hans].
Defined.

(** C4, as stated, fails when the branch returns an error, with DNSSEC in
    use, [suppressNSEC] false and an empty Answer section. For
    [host.org. A] no zone is found, there is no apex to deny the name
    from, and the resolver returns [ErrNotInZone]; for
    [nothere.example. A] the lookup of the queried name fails and the
    resolver returns [ErrNoSuchDomain]. Either way the Authority section
    of the response stays empty: it holds no NSEC3 record. *)
Lemma nsec3_absent_counterexample :
  (∃ tx1 m,
     Zone.run_addAnswers true (Zone.txFor Zone.server "host.org." TypeA)
       = Done (tx1, Some ErrNotInZone) ∧
     suppressNSEC tx1 = false ∧ Answer (res tx1) = [] ∧ Ns (res tx1) = [] ∧
     Zone.run_handle true Zone.server (Zone.query "host.org." TypeA)
       = Done (Zone.server, m) ∧
     Answer m = [] ∧ Ns m = [] ∧ Extra m = []) ∧
  (∃ tx1 m,
     Zone.run_addAnswers true (Zone.txFor Zone.server "nothere.example." TypeA)
       = Done (tx1, Some ErrNoSuchDomain) ∧
     suppressNSEC tx1 = false ∧ Answer (res tx1) = [] ∧ Ns (res tx1) = [] ∧
     Zone.run_handle true Zone.server (Zone.query "nothere.example." TypeA)
       = Done (Zone.server, m) ∧
     Answer m = [] ∧ Ns m = [] ∧ Extra m = []).
Proof.
  split.
  - eexists. eexists. split; [vm_compute; reflexivity|].
    split; [reflexivity|]. split; [reflexivity|]. split; [reflexivity|].
    split; [vm_compute; reflexivity|]. split_and!; reflexivity.
  - eexists. eexists. split; [vm_compute; reflexivity|].
    split; [reflexivity|]. split; [reflexivity|]. split; [reflexivity|].
    split; [vm_compute; reflexivity|]. split_and!; reflexivity.
Qed.
